(** * TalentScout hiring assistant: conversation engine and question bank

  A shallow embedding of [ai_question_generator.py], [chatbot.py], the
  methods of [database_handler.py] on a candidate and the chat turns of
  [app.py], with the properties of the specification stated and settled
  against it, and further properties of the code after them.

  Conventions of the embedding.
  - A Python [str] is a [string] holding its UTF-8 text.  Its characters
    are the UTF-8 sequences [chars] cuts the text into, and [len] counts
    them.  Whitespace ([str.strip], the class [\s]) and decimal digits (the
    class [\d], [int]) are those of the interpreter on all of Unicode
    (CPython 3.11 with Unicode 14), given by code point.  The letters of
    the patterns are the ranges [a-z] and [A-Z] the source writes.
  - [int] raises [ValueError] on more than 4300 digits, the interpreter's
    default limit.
  - [str.lower] is embedded on the ASCII letters only: [lower] is that of
    the interpreter on ASCII text.  The properties of the question bank
    that depend on the lowercase spelling of a technology are stated for a
    technology in ASCII characters ([ascii_text]).
  - A Python [dict] with string keys is a [gmap string _]; a dict literal
    that is iterated ([tech_questions]) is an association list in source
    order.
  - A method of an object is a function in the monad [M S], which threads
    the object's attributes [S] and a possible exception. *)

From Stdlib Require Import ZArith Ascii String List Lia.
From Stdlib Require Import PrimFloat FloatOps SpecFloat Uint63.
From stdpp Require Import gmap strings list pretty.

(** ** Python text *)

Module Py.

Definition nl : string := String "010" "".

Definition code (c : ascii) : N := N_of_ascii c.

Definition in_range (lo hi c : ascii) : bool :=
  ((code lo <=? code c) && (code c <=? code hi))%N.

(** Exceptions the embedded code can raise. *)
Inductive exn : Type :=
| KeyError (k : string)
| IndexError
| TypeError
| DatabaseError
| ZeroDivisionError
| OverflowError
| ValueError
| RecursionError.

Inductive result (A : Type) : Type :=
| Ok (a : A)
| Raise (e : exn).
Arguments Ok {A} a.
Arguments Raise {A} e.

(** *** Characters

    A byte below 128 is a character of its own; any other byte starts a
    character that takes the continuation bytes (128 to 191) after it. *)
Definition is_ascii (c : ascii) : bool := (code c <? 128)%N.
Definition is_cont (c : ascii) : bool := in_range "128" "191" c.

Definition starts_cont (s : string) : bool :=
  match s with
  | String d _ => is_cont d
  | "" => false
  end.

Fixpoint chars (s : string) : list string :=
  match s with
  | "" => []
  | String c s' =>
      if is_ascii c then String c "" :: chars s'
      else
        match chars s' with
        | u :: us => if starts_cont s' then String c u :: us else String c "" :: u :: us
        | [] => [String c ""]
        end
  end.

(** [len(s)] *)
Definition len (s : string) : nat := length (chars s).

(** The text of a list of characters. *)
Definition text (l : list string) : string := fold_right String.append "" l.

(** The code point a character encodes, if it is well formed. *)
Definition cont_value (c : ascii) : N := (code c - 128)%N.

Definition between (lo hi cp : N) : bool := ((lo <=? cp) && (cp <=? hi))%N.

Definition codepoint (ch : string) : option N :=
  match ch with
  | String a "" => if is_ascii a then Some (code a) else None
  | String a (String b "") =>
      if in_range "194" "223" a && is_cont b
      then Some ((code a - 192) * 64 + cont_value b)%N
      else None
  | String a (String b (String c "")) =>
      if in_range "224" "239" a && is_cont b && is_cont c then
        let cp := ((code a - 224) * 4096 + cont_value b * 64 + cont_value c)%N in
        if between 0x800 0xFFFF cp then Some cp else None
      else None
  | String a (String b (String c (String d ""))) =>
      if in_range "240" "244" a && is_cont b && is_cont c && is_cont d then
        let cp := ((code a - 240) * 262144 + cont_value b * 4096
                   + cont_value c * 64 + cont_value d)%N in
        if between 0x10000 0x10FFFF cp then Some cp else None
      else None
  | _ => None
  end.

Definition on_codepoint (p : N -> bool) (ch : string) : bool :=
  match codepoint ch with
  | Some cp => p cp
  | None => false
  end.

(** [str.isspace] of a character; these are the characters [str.strip]
    removes and the class [\s] of [re] on a [str] pattern: the ASCII
    whitespace and separators, NEL, the no-break space and the spaces and
    separators of the general punctuation and CJK blocks. *)
Definition space_codepoint (cp : N) : bool :=
  between 0x9 0xD cp || between 0x1C 0x20 cp
  || (cp =? 0x85)%N || (cp =? 0xA0)%N || (cp =? 0x1680)%N
  || between 0x2000 0x200A cp || between 0x2028 0x2029 cp
  || (cp =? 0x202F)%N || (cp =? 0x205F)%N || (cp =? 0x3000)%N.

Definition isspace : string -> bool := on_codepoint space_codepoint.

(** The decimal digits (category Nd): each block holds the digits 0 to 9
    of a script at ten consecutive code points; the list gives the code
    point of each zero.  This is the class [\d] of [re] on a [str] pattern,
    and what [int] reads. *)
Definition decimal_blocks : list N :=
  [0x30; 0x660; 0x6F0; 0x7C0; 0x966; 0x9E6; 0xA66; 0xAE6; 0xB66; 0xBE6;
   0xC66; 0xCE6; 0xD66; 0xDE6; 0xE50; 0xED0; 0xF20; 0x1040; 0x1090; 0x17E0;
   0x1810; 0x1946; 0x19D0; 0x1A80; 0x1A90; 0x1B50; 0x1BB0; 0x1C40; 0x1C50;
   0xA620; 0xA8D0; 0xA900; 0xA9D0; 0xA9F0; 0xAA50; 0xABF0; 0xFF10; 0x104A0;
   0x10D30; 0x11066; 0x110F0; 0x11136; 0x111D0; 0x112F0; 0x11450; 0x114D0;
   0x11650; 0x116C0; 0x11730; 0x118E0; 0x11950; 0x11C50; 0x11D50; 0x11DA0;
   0x16A60; 0x16AC0; 0x16B50; 0x1D7CE; 0x1D7D8; 0x1D7E2; 0x1D7EC; 0x1D7F6;
   0x1E140; 0x1E2F0; 0x1E950; 0x1FBF0]%N.

Fixpoint decimal_in (blocks : list N) (cp : N) : option N :=
  match blocks with
  | [] => None
  | zero :: rest =>
      if between zero (zero + 9) cp then Some (cp - zero)%N else decimal_in rest cp
  end.

(** The value of a character as a decimal digit. *)
Definition decimal (ch : string) : option N :=
  match codepoint ch with
  | Some cp => decimal_in decimal_blocks cp
  | None => None
  end.

Definition isdigit (ch : string) : bool :=
  match decimal ch with
  | Some _ => true
  | None => false
  end.

(** A character that is one byte of a class of bytes: the ranges and the
    literal characters of the patterns. *)
Definition one_byte (p : ascii -> bool) (ch : string) : bool :=
  match ch with
  | String c "" => p c
  | _ => false
  end.

Definition isupper (c : ascii) : bool := in_range "A" "Z" c.
Definition islower (c : ascii) : bool := in_range "a" "z" c.
Definition isalpha (c : ascii) : bool := isupper c || islower c.

Definition lower_char (c : ascii) : ascii :=
  if isupper c then ascii_of_N (code c + 32) else c.

(** [s.lower()], on the ASCII letters. *)
Fixpoint lower (s : string) : string :=
  match s with
  | "" => ""
  | String c s' => String (lower_char c) (lower s')
  end.

(** [s.lstrip()], [s.rstrip()] and [s.strip()]: the whitespace characters
    at the ends are removed. *)
Fixpoint drop_spaces (l : list string) : list string :=
  match l with
  | [] => []
  | ch :: l' => if isspace ch then drop_spaces l' else l
  end.

Definition lstrip (s : string) : string := text (drop_spaces (chars s)).
Definition rstrip (s : string) : string := text (rev (drop_spaces (rev (chars s)))).
Definition strip (s : string) : string :=
  text (rev (drop_spaces (rev (drop_spaces (chars s))))).

(** [s.split(sep)] for a one-character separator. *)
Fixpoint split (sep : ascii) (s : string) : list string :=
  match s with
  | "" => [""]
  | String c s' =>
      if Ascii.eqb c sep then "" :: split sep s'
      else match split sep s' with
           | w :: ws => String c w :: ws
           | [] => [String c ""]
           end
  end.

(** [sep.join(l)] *)
Fixpoint join (sep : string) (l : list string) : string :=
  match l with
  | [] => ""
  | [x] => x
  | x :: l' => x +:+ sep +:+ join sep l'
  end.

(** [needle in hay] on strings. *)
Fixpoint contains (needle hay : string) : bool :=
  match hay with
  | "" => String.prefix needle ""
  | String _ hay' => String.prefix needle hay || contains needle hay'
  end.

(** Truth value of a string in a condition. *)
Definition truthy (s : string) : bool := negb (String.eqb s "").

(** [str(n)], also the rendering of an integer field of an f-string. *)
Definition str_of_int (n : Z) : string := pretty n.

(** [int(s)] on a run of decimal digits: a run of more than 4300 digits is
    refused with [ValueError]. *)
Definition digit_value (ch : string) : Z :=
  match decimal ch with
  | Some v => Z.of_N v
  | None => 0
  end.

Fixpoint int_of_digits_from (acc : Z) (digits : list string) : Z :=
  match digits with
  | [] => acc
  | ch :: digits' => int_of_digits_from (10 * acc + digit_value ch)%Z digits'
  end.

Definition int_max_str_digits : nat := 4300.

Definition int (s : string) : result Z :=
  if int_max_str_digits <? len s then Raise ValueError
  else Ok (int_of_digits_from 0 (chars s)).

(** [i % n]: the result has the sign of [n], as [Z.modulo]. *)
Definition pymod (i n : Z) : result Z :=
  if (n =? 0)%Z then Raise ZeroDivisionError else Ok (i mod n)%Z.

(** [l[i]] for a list and a non-negative index. *)
Definition getitem {A} (l : list A) (i : nat) : result A :=
  match l !! i with
  | Some x => Ok x
  | None => Raise IndexError
  end.

(** Attributes of an object threaded through its methods, with exceptions. *)
Definition M (S A : Type) : Type := S -> result A * S.

Definition ret {S A} (a : A) : M S A := fun s => (Ok a, s).
Definition raise {S A} (e : exn) : M S A := fun s => (Raise e, s).
Definition bind {S A B} (m : M S A) (k : A -> M S B) : M S B :=
  fun s => match m s with
           | (Ok a, s') => k a s'
           | (Raise e, s') => (Raise e, s')
           end.
Definition get {S} : M S S := fun s => (Ok s, s).
Definition modify {S} (f : S -> S) : M S unit := fun s => (Ok tt, f s).
Definition lift {S A} (r : result A) : M S A := fun s => (r, s).

End Py.

Import Py.

Notation "x <- m ;; k" := (bind m (fun x => k))
(at level 100, m at next level, right associativity).
Notation "m ;;; k" := (bind m (fun _ => k))
(at level 100, right associativity).

(** ** Patterns of the [re] module *)

Module Re.

Inductive regex (A : Type) : Type :=
| Void
| Eps
| Cls (p : A -> bool)
| Cat (a b : regex A)
| Alt (a b : regex A)
| Star (a : regex A).
Arguments Void {A}.
Arguments Eps {A}.
Arguments Cls {A} p.
Arguments Cat {A} a b.
Arguments Alt {A} a b.
Arguments Star {A} a.

(** [a?], [a+], [a{n}], [a{0,n}], [a{lo,hi}] and [a{lo,}]. *)
Definition Opt {A} (a : regex A) : regex A := Alt Eps a.
Definition Plus {A} (a : regex A) : regex A := Cat a (Star a).

Fixpoint Times {A} (n : nat) (a : regex A) : regex A :=
  match n with
  | O => Eps
  | S n' => Cat a (Times n' a)
  end.

Fixpoint UpTo {A} (n : nat) (a : regex A) : regex A :=
  match n with
  | O => Eps
  | S n' => Opt (Cat a (UpTo n' a))
  end.

Definition Range {A} (lo hi : nat) (a : regex A) : regex A :=
  Cat (Times lo a) (UpTo (hi - lo) a).
Definition AtLeast {A} (lo : nat) (a : regex A) : regex A :=
  Cat (Times lo a) (Star a).

(** A literal character and a set of characters. *)
Definition chr (c : ascii) : ascii -> bool := Ascii.eqb c.
Definition one_of (cs : string) (c : ascii) : bool :=
  existsb (Ascii.eqb c) (list_ascii_of_string cs).

(** The words of a pattern. *)
Fixpoint lang {A} (r : regex A) (w : list A) : Prop :=
  match r with
  | Void => False
  | Eps => w = []
  | Cls p => exists c, w = [c] /\ p c = true
  | Cat a b => exists u v, w = u ++ v /\ lang a u /\ lang b v
  | Alt a b => lang a w \/ lang b w
  | Star a => exists ws, w = concat ws /\ Forall (lang a) ws
  end.

(** Matching by derivatives. *)
Fixpoint nullable {A} (r : regex A) : bool :=
  match r with
  | Void => false
  | Eps => true
  | Cls _ => false
  | Cat a b => nullable a && nullable b
  | Alt a b => nullable a || nullable b
  | Star _ => true
  end.

Definition cat {A} (a b : regex A) : regex A :=
  match a with
  | Void => Void
  | Eps => b
  | _ => Cat a b
  end.

Definition alt {A} (a b : regex A) : regex A :=
  match a, b with
  | Void, _ => b
  | _, Void => a
  | _, _ => Alt a b
  end.

Fixpoint deriv {A} (c : A) (r : regex A) : regex A :=
  match r with
  | Void => Void
  | Eps => Void
  | Cls p => if p c then Eps else Void
  | Cat a b =>
      alt (cat (deriv c a) b) (if nullable a then deriv c b else Void)
  | Alt a b => alt (deriv c a) (deriv c b)
  | Star a => cat (deriv c a) (Star a)
  end.

Fixpoint matches {A} (r : regex A) (w : list A) : bool :=
  match w with
  | [] => nullable r
  | c :: w' => matches (deriv c r) w'
  end.

(** [re.match(p, s)] is a match, for a pattern [p] of the form [^body$].
    Without the MULTILINE flag [$] stands at the end of the string and
    also just before a newline that ends the string. *)
Definition anchored {A} (newline : A -> bool) (body : regex A) (w : list A) : bool :=
  matches body w
  || match rev w with
     | c :: r => newline c && matches body (rev r)
     | [] => false
     end.

(** A pattern whose classes are classes of ASCII characters, matched on the
    bytes of the text: a text with another character is not matched. *)
Definition match_anchored (body : regex ascii) (s : string) : bool :=
  anchored (fun c => Ascii.eqb c "010") body (list_ascii_of_string s).

(** A pattern matched on the characters of the text. *)
Definition match_text (body : regex string) (s : string) : bool :=
  anchored (fun ch => String.eqb ch nl) body (chars s).

(** [re.search(r'\d+', s)]: the leftmost, longest run of digits. *)
Fixpoint take_digits (l : list string) : list string :=
  match l with
  | [] => []
  | ch :: l' => if isdigit ch then ch :: take_digits l' else []
  end.

Fixpoint search_digits_in (l : list string) : option (list string) :=
  match l with
  | [] => None
  | ch :: l' => if isdigit ch then Some (take_digits l) else search_digits_in l'
  end.

Definition search_digits (s : string) : option string :=
  text <$> search_digits_in (chars s).

End Re.
(** ** [ai_question_generator.py] *)

Module Gen.

(** The attributes of an [AIQuestionGenerator] that its methods use. *)
Record AIQuestionGenerator : Type := {
  question_cache : gmap string string
}.

(** [__init__] *)
Definition init : AIQuestionGenerator := {| question_cache := ∅ |}.

(** A dict literal with its items in source order: [d[k]] and [d.get(k, dflt)]. *)
Fixpoint assoc {K V : Type} `{EqDecision K} (k : K) (d : list (K * V)) : option V :=
  match d with
  | [] => None
  | (k', v) :: d' => if decide (k = k') then Some v else assoc k d'
  end.

Definition dict_get {K V : Type} `{EqDecision K} (k : K) (d : list (K * V)) (dflt : V) : V :=
  match assoc k d with
  | Some v => v
  | None => dflt
  end.

Definition difficulty_levels : list (Z * string) :=
  [(1%Z, "basic"); (2%Z, "intermediate"); (3%Z, "advanced")].

Definition _create_question_prompt (technology : string) (question_number : Z) : string :=
  let difficulty := dict_get question_number difficulty_levels "intermediate" in
  "Generate a " +:+ difficulty +:+ " technical interview question about "
    +:+ technology +:+ " for a software developer position.".

Definition tech_questions : list (string * list (string * list string)) :=
  [
  ("python",
    [
     ("basic",
        ["What are the key differences between lists and tuples in Python?";
         "Explain how Python's garbage collection works.";
         "What is the difference between '==' and 'is' operators in Python?"]);
     ("intermediate",
        ["How do decorators work in Python? Provide an example.";
         "Explain the concept of generators and their advantages over regular functions.";
         "What are context managers in Python and how do you implement them?"]);
     ("advanced",
        ["How would you implement a metaclass in Python and when would you use it?";
         "Explain the Global Interpreter Lock (GIL) and its impact on multithreading.";
         "How would you optimize Python code for better performance?"])
    ]);
  ("javascript",
    [
     ("basic",
        ["What is the difference between var, let, and const in JavaScript?";
         "Explain how hoisting works in JavaScript.";
         "What are the different data types in JavaScript?"]);
     ("intermediate",
        ["How do closures work in JavaScript? Provide an example.";
         "Explain event bubbling and event capturing.";
         "What is the difference between synchronous and asynchronous code?"]);
     ("advanced",
        ["How does the JavaScript event loop work?";
         "Explain prototypal inheritance in JavaScript.";
         "How would you implement a Promise from scratch?"])
    ]);
  ("react",
    [
     ("basic",
        ["What is the difference between state and props in React?";
         "Explain the concept of JSX.";
         "What are React components and how do you create them?"]);
     ("intermediate",
        ["How do React hooks work and why were they introduced?";
         "Explain the component lifecycle methods in React.";
         "What is the virtual DOM and how does it improve performance?"]);
     ("advanced",
        ["How would you optimize a React application for better performance?";
         "Explain React's reconciliation algorithm.";
         "How do you implement code splitting in React?"])
    ]);
  ("node.js",
    [
     ("basic",
        ["What is Node.js and how does it differ from browser JavaScript?";
         "Explain the concept of modules in Node.js.";
         "What is npm and how do you manage dependencies?"]);
     ("intermediate",
        ["How does the Node.js event loop work?";
         "Explain the difference between synchronous and asynchronous operations.";
         "How do you handle errors in Node.js applications?"]);
     ("advanced",
        ["How would you scale a Node.js application?";
         "Explain cluster and worker threads in Node.js.";
         "How do you implement caching strategies in Node.js?"])
    ]);
  ("java",
    [
     ("basic",
        ["What is the difference between abstract classes and interfaces in Java?";
         "Explain the concept of inheritance in Java.";
         "What are the different access modifiers in Java?"]);
     ("intermediate",
        ["How does garbage collection work in Java?";
         "Explain the concept of polymorphism with examples.";
         "What are generics in Java and why are they useful?"]);
     ("advanced",
        ["How do you optimize Java applications for better performance?";
         "Explain the Java memory model and its implications.";
         "How would you implement a custom thread pool in Java?"])
    ]);
  ("sql",
    [
     ("basic",
        ["What is the difference between INNER JOIN and LEFT JOIN?";
         "Explain the concept of primary keys and foreign keys.";
         "What are the different types of SQL commands?"]);
     ("intermediate",
        ["How do you optimize slow-running SQL queries?";
         "Explain database normalization and its benefits.";
         "What are indexes and how do they improve performance?"]);
     ("advanced",
        ["How would you design a database schema for a complex application?";
         "Explain ACID properties in database transactions.";
         "How do you handle database concurrency and locking?"])
    ]);
  ("mongodb",
    [
     ("basic",
        ["What is MongoDB and how does it differ from relational databases?";
         "Explain the concept of documents and collections.";
         "How do you perform basic CRUD operations in MongoDB?"]);
     ("intermediate",
        ["How do you design efficient MongoDB schemas?";
         "Explain indexing strategies in MongoDB.";
         "What are aggregation pipelines and how do you use them?"]);
     ("advanced",
        ["How would you implement sharding in MongoDB?";
         "Explain replica sets and their role in high availability.";
         "How do you optimize MongoDB performance?"])
    ]);
  ("docker",
    [
     ("basic",
        ["What is Docker and what problems does it solve?";
         "Explain the difference between Docker images and containers.";
         "How do you create a basic Dockerfile?"]);
     ("intermediate",
        ["How do you manage multi-container applications with Docker Compose?";
         "Explain Docker networking and volume management.";
         "What are the best practices for writing Dockerfiles?"]);
     ("advanced",
        ["How would you implement a CI/CD pipeline with Docker?";
         "Explain Docker orchestration with Kubernetes.";
         "How do you optimize Docker images for production?"])
    ]);
  ("kubernetes",
    [
     ("basic",
        ["What is Kubernetes and what problems does it solve?";
         "Explain the concept of pods, services, and deployments.";
         "How do you deploy an application to Kubernetes?"]);
     ("intermediate",
        ["How does Kubernetes handle service discovery and load balancing?";
         "Explain ConfigMaps and Secrets in Kubernetes.";
         "What are the different types of Kubernetes services?"]);
     ("advanced",
        ["How would you implement auto-scaling in Kubernetes?";
         "Explain Kubernetes networking and ingress controllers.";
         "How do you monitor and troubleshoot Kubernetes clusters?"])
    ])
  ].

Definition generic_questions (technology : string) : list (string * list string) :=
  [ ("basic",
       ["What are the fundamental concepts you should know when working with " +:+ technology +:+ "?";
        "How would you explain " +:+ technology +:+ " to someone who's new to it?";
        "What are the main advantages of using " +:+ technology +:+ " in development?"]);
    ("intermediate",
       ["What are some best practices when developing with " +:+ technology +:+ "?";
        "How would you debug common issues in " +:+ technology +:+ " applications?";
        "What are the performance considerations when using " +:+ technology +:+ "?"]);
    ("advanced",
       ["How would you architect a large-scale application using " +:+ technology +:+ "?";
        "What are the advanced features of " +:+ technology +:+ " that you've worked with?";
        "How would you optimize and scale applications built with " +:+ technology +:+ "?"])
  ].

(** Truth value of a list in a condition. *)
Definition nonempty {A} (l : list A) : bool :=
  match l with
  | [] => false
  | _ :: _ => true
  end.

(** [questions[(question_number - 1) % len(questions)]] *)
Definition rotate (questions : list string) (question_number : Z) : result string :=
  match pymod (question_number - 1) (Z.of_nat (length questions)) with
  | Ok question_index => getitem questions (Z.to_nat question_index)
  | Raise e => Raise e
  end.

(** The loop over the keys of [tech_questions]: [Some r] when an iteration
    returns, [None] when the loop runs to its end. *)
Fixpoint partial_match (tech_lower difficulty : string) (question_number : Z)
    (table : list (string * list (string * list string))) : option (result string) :=
  match table with
  | [] => None
  | (key, by_difficulty) :: rest =>
      if contains key tech_lower || contains tech_lower key then
        let questions_by_difficulty := dict_get difficulty by_difficulty [] in
        if nonempty questions_by_difficulty
        then Some (rotate questions_by_difficulty question_number)
        else partial_match tech_lower difficulty question_number rest
      else partial_match tech_lower difficulty question_number rest
  end.

Definition _generate_with_simple_ai (prompt technology : string) (question_number : Z)
    : result (option string) :=
  let tech_lower := lower technology in
  let difficulty := dict_get question_number difficulty_levels "intermediate" in
  let exact :=
    match assoc tech_lower tech_questions with
    | Some by_difficulty =>
        let questions_by_difficulty := dict_get difficulty by_difficulty [] in
        if nonempty questions_by_difficulty
        then Some (rotate questions_by_difficulty question_number)
        else None
    | None => None
    end in
  let found :=
    match exact with
    | Some r => Some r
    | None => partial_match tech_lower difficulty question_number tech_questions
    end in
  match found with
  | Some (Ok q) => Ok (Some q)
  | Some (Raise e) => Raise e
  | None =>
      match assoc "intermediate" (generic_questions technology) with
      | None => Raise (KeyError "intermediate")
      | Some dflt =>
          let questions := dict_get difficulty (generic_questions technology) dflt in
          match rotate questions question_number with
          | Ok q => Ok (Some q)
          | Raise e => Raise e
          end
      end
  end.

Definition cache_key (technology : string) (question_number : Z) : string :=
  lower technology +:+ "_" +:+ str_of_int question_number.

Definition generate_question (technology : string) (question_number : Z)
    : M AIQuestionGenerator (option string) :=
  self <- get ;;
  match question_cache self !! cache_key technology question_number with
  | Some q => ret (Some q)
  | None =>
      let prompt := _create_question_prompt technology question_number in
      question <- lift (_generate_with_simple_ai prompt technology question_number) ;;
      match question with
      | Some q =>
          if truthy q then
            modify (fun g => {| question_cache :=
                     <[cache_key technology question_number := q]> (question_cache g) |}) ;;;
            ret (Some q)
          else ret None
      | None => ret None
      end
  end.



End Gen.

(** ** [chatbot.py] *)

Module Bot.

(** The values stored in [candidate_data]: a string, or the list of strings
    stored under [tech_stack]. *)
Inductive value : Type :=
| VStr (s : string)
| VList (l : list string).

(** Truth value, [len(v)], and the items [v[i]] ranges over: the elements of a
    list, the one-character strings of a string. *)
Definition value_truthy (v : value) : bool :=
  match v with
  | VStr s => truthy s
  | VList l => Gen.nonempty l
  end.

Definition items (v : value) : list string :=
  match v with
  | VStr s => chars s
  | VList l => l
  end.

Record TalentScoutChatbot : Type := {
  question_generator : Gen.AIQuestionGenerator;
  conversation_state : string;
  candidate_data : gmap string value;
  technical_questions : list string;
  current_tech_index : nat
}.

(** The attributes [__init__] sets once and no method assigns again. *)
Definition questions_per_tech : nat := 3.

Definition states : list string :=
  ["greeting"; "name"; "email"; "phone"; "experience";
   "position"; "location"; "tech_stack"; "technical_questions"; "completed"].

(** [required_fields]: the bodies of the three patterns, each written
    between [^] and [$] in the source.  The classes of the email pattern
    are classes of ASCII characters and the pattern is matched on bytes;
    the other two have [\s] and [\d] and are matched on characters.
    - name:  [[a-zA-Z\s]{2,50}]
    - email: [[a-zA-Z0-9._%+-]+@[a-zA-Z0-9.-]+\.[a-zA-Z]{2,}]
    - phone: [[\+]?[\d\s\-\(\)\.]{8,20}] *)
Definition name_class (ch : string) : bool := one_byte isalpha ch || isspace ch.
Definition email_local_class (c : ascii) : bool :=
  isalpha c || in_range "0" "9" c || Re.one_of "._%+-" c.
Definition email_domain_class (c : ascii) : bool :=
  isalpha c || in_range "0" "9" c || Re.one_of ".-" c.
Definition phone_class (ch : string) : bool :=
  isdigit ch || isspace ch || one_byte (Re.one_of "-().") ch.

Definition name_pattern : Re.regex string := Re.Range 2 50 (Re.Cls name_class).
Definition email_pattern : Re.regex ascii :=
  Re.Cat (Re.Plus (Re.Cls email_local_class))
    (Re.Cat (Re.Cls (Re.chr "@"))
       (Re.Cat (Re.Plus (Re.Cls email_domain_class))
          (Re.Cat (Re.Cls (Re.chr ".")) (Re.AtLeast 2 (Re.Cls isalpha))))).
Definition phone_pattern : Re.regex string :=
  Re.Cat (Re.Opt (Re.Cls (one_byte (Re.chr "+")))) (Re.Range 8 20 (Re.Cls phone_class)).

(** [__init__] *)
Definition init : TalentScoutChatbot := {|
  question_generator := Gen.init;
  conversation_state := "greeting";
  candidate_data := ∅;
  technical_questions := [];
  current_tech_index := 0
|}.

(** Assignments to the attributes. *)
Definition set_question_generator (g : Gen.AIQuestionGenerator) (self : TalentScoutChatbot)
    : TalentScoutChatbot :=
  {| question_generator := g;
     conversation_state := conversation_state self;
     candidate_data := candidate_data self;
     technical_questions := technical_questions self;
     current_tech_index := current_tech_index self |}.

Definition set_conversation_state (st : string) (self : TalentScoutChatbot)
    : TalentScoutChatbot :=
  {| question_generator := question_generator self;
     conversation_state := st;
     candidate_data := candidate_data self;
     technical_questions := technical_questions self;
     current_tech_index := current_tech_index self |}.

Definition set_candidate_data (k : string) (v : value) (self : TalentScoutChatbot)
    : TalentScoutChatbot :=
  {| question_generator := question_generator self;
     conversation_state := conversation_state self;
     candidate_data := <[k := v]> (candidate_data self);
     technical_questions := technical_questions self;
     current_tech_index := current_tech_index self |}.

Definition append_technical_question (q : string) (self : TalentScoutChatbot)
    : TalentScoutChatbot :=
  {| question_generator := question_generator self;
     conversation_state := conversation_state self;
     candidate_data := candidate_data self;
     technical_questions := technical_questions self ++ [q];
     current_tech_index := current_tech_index self |}.

Definition set_current_tech_index (i : nat) (self : TalentScoutChatbot)
    : TalentScoutChatbot :=
  {| question_generator := question_generator self;
     conversation_state := conversation_state self;
     candidate_data := candidate_data self;
     technical_questions := technical_questions self;
     current_tech_index := i |}.

(** A call of a method of [self.question_generator]. *)
Definition on_generator {A} (m : M Gen.AIQuestionGenerator A) : M TalentScoutChatbot A :=
  fun self =>
    match m (question_generator self) with
    | (r, g) => (r, set_question_generator g self)
    end.

(** [self.candidate_data["tech_stack"]], as the items it is indexed, counted
    and joined by. *)
Definition tech_stack_of (self : TalentScoutChatbot) : result (list string) :=
  match candidate_data self !! "tech_stack" with
  | Some v => Ok (items v)
  | None => Raise (KeyError "tech_stack")
  end.

Definition start_conversation : M TalentScoutChatbot string :=
  modify (set_conversation_state "name") ;;;
  ret "Hi! I'm here to help with your application. **What's your full name?**".

Definition _handle_name (user_input : string) : M TalentScoutChatbot string :=
  if Re.match_text name_pattern user_input then
    modify (set_candidate_data "name" (VStr user_input)) ;;;
    modify (set_conversation_state "email") ;;;
    ret ("Nice to meet you, " +:+ user_input +:+ "! 👋" +:+ nl +:+ nl
         +:+ "**What's your email address?**")
  else
    ret ("Please provide a valid full name (2-50 characters, letters and spaces only). "
         +:+ "**What's your full name?**").

Definition _handle_email (user_input : string) : M TalentScoutChatbot string :=
  if Re.match_anchored email_pattern user_input then
    modify (set_candidate_data "email" (VStr user_input)) ;;;
    modify (set_conversation_state "phone") ;;;
    ret "Great! **What's your phone number?**"
  else
    ret ("Please provide a valid email address (e.g., john.doe@example.com). "
         +:+ "**What's your email address?**").

Definition _handle_phone (user_input : string) : M TalentScoutChatbot string :=
  if Re.match_text phone_pattern user_input then
    modify (set_candidate_data "phone" (VStr user_input)) ;;;
    modify (set_conversation_state "experience") ;;;
    ret "Perfect! **How many years of professional experience do you have?**"
  else
    ret ("Please provide a valid phone number (8-15 digits, may include +, spaces, dashes, or parentheses). "
         +:+ "**What's your phone number?**").

Definition experience_reprompt : string :=
  "Please provide a valid number of years of experience (0-50 years). "
  +:+ "You can say something like '3 years' or just '3'. "
  +:+ "**How many years of professional experience do you have?**".

Definition _handle_experience (user_input : string) : M TalentScoutChatbot string :=
  match Re.search_digits user_input with
  | Some years_match =>
      years <- lift (int years_match) ;;
      if ((0 <=? years) && (years <=? 50))%Z then
        modify (set_candidate_data "experience" (VStr (str_of_int years +:+ " years"))) ;;;
        modify (set_conversation_state "position") ;;;
        ret "Excellent! **What position(s) are you interested in or applying for?**"
      else ret experience_reprompt
  | None => ret experience_reprompt
  end.

Definition _handle_position (user_input : string) : M TalentScoutChatbot string :=
  if 2 <=? len user_input then
    modify (set_candidate_data "position" (VStr user_input)) ;;;
    modify (set_conversation_state "location") ;;;
    ret "Great choice! **What's your current location (city, country)?**"
  else
    ret ("Please provide the position you're interested in (at least 2 characters). "
         +:+ "**What position(s) are you interested in or applying for?**").

Definition _handle_location (user_input : string) : M TalentScoutChatbot string :=
  if 2 <=? len user_input then
    modify (set_candidate_data "location" (VStr user_input)) ;;;
    modify (set_conversation_state "tech_stack") ;;;
    ret ("Perfect! Now let's talk about your technical skills. 💻" +:+ nl +:+ nl
         +:+ "**Please list your tech stack** - including programming languages, frameworks, "
         +:+ "databases, tools, and any other technologies you're proficient in. "
         +:+ "You can separate them with commas." +:+ nl +:+ nl
         +:+ "*Example: Python, JavaScript, React, Django, PostgreSQL, Docker*")
  else
    ret ("Please provide your current location (at least 2 characters). "
         +:+ "**What's your current location (city, country)?**").

Definition _complete_technical_assessment : M TalentScoutChatbot string :=
  modify (set_conversation_state "completed") ;;;
  self <- get ;;
  tech_stack <- lift (tech_stack_of self) ;;
  ret (nl +:+ "🎉 **Technical Assessment Complete!**" +:+ nl +:+ nl
       +:+ "Thank you for answering the technical questions! I've assessed your knowledge across "
       +:+ str_of_int (Z.of_nat (length tech_stack)) +:+ " technologies: "
       +:+ join ", " tech_stack +:+ "." +:+ nl +:+ nl
       +:+ "**Next Steps:**" +:+ nl
       +:+ "• Our technical team will review your responses" +:+ nl
       +:+ "• You'll receive an email within 2-3 business days with feedback" +:+ nl
       +:+ "• If you advance, we'll schedule a technical interview" +:+ nl
       +:+ "• For any questions, contact us at hr@talentscout.com" +:+ nl +:+ nl
       +:+ "Is there anything else you'd like to know about the position or our company? "
       +:+ "Otherwise, you can type 'exit' to end our conversation.").

(** Truth value of the [Optional[str]] that [generate_question] returns. *)
Definition question_truthy (question : option string) : bool :=
  match question with
  | Some q => truthy q
  | None => false
  end.

(** [_generate_next_technical_questions] calls itself after skipping a
    technology; [fuel] bounds the depth of these calls, and a call that
    finds it used up raises. *)
Fixpoint _generate_next_technical_questions_rec (fuel : nat) : M TalentScoutChatbot string :=
  match fuel with
  | O => raise RecursionError
  | S fuel' =>
      self <- get ;;
      tech_stack <- lift (tech_stack_of self) ;;
      current_tech <- lift (getitem tech_stack (current_tech_index self)) ;;
      let questions_for_current_tech :=
        length (technical_questions self) mod questions_per_tech in
      let intro_message :=
        if questions_for_current_tech =? 0 then
          nl +:+ "🔧 **Technical Assessment: " +:+ current_tech +:+ "**" +:+ nl +:+ nl
          +:+ "I'll ask you " +:+ str_of_int (Z.of_nat questions_per_tech)
          +:+ " questions about " +:+ current_tech +:+ ". "
          +:+ "Please answer to the best of your ability." +:+ nl +:+ nl
        else "" in
      question <- on_generator
        (Gen.generate_question current_tech (Z.of_nat questions_for_current_tech + 1)) ;;
      if question_truthy question then
        let q := default "" question in
        modify (append_technical_question q) ;;;
        let question_num := questions_for_current_tech + 1 in
        ret (intro_message +:+ "**Question " +:+ str_of_int (Z.of_nat question_num)
             +:+ " (" +:+ current_tech +:+ "):** " +:+ q)
      else
        modify (fun self => set_current_tech_index (current_tech_index self + 1) self) ;;;
        self <- get ;;
        tech_stack <- lift (tech_stack_of self) ;;
        if length tech_stack <=? current_tech_index self then
          modify (set_conversation_state "completed") ;;;
          _complete_technical_assessment
        else _generate_next_technical_questions_rec fuel'
  end.

(** Each nested call has advanced [current_tech_index] by one and the calls
    stop at the end of the tech stack, so its length plus one bounds them. *)
Definition _generate_next_technical_questions : M TalentScoutChatbot string :=
  fun self =>
    let depth :=
      match tech_stack_of self with
      | Ok tech_stack => S (length tech_stack)
      | Raise _ => 1
      end in
    _generate_next_technical_questions_rec depth self.

Definition _handle_tech_stack (user_input : string) : M TalentScoutChatbot string :=
  let tech_stack :=
    filter (fun tech => truthy tech = true) (map strip (split "," user_input)) in
  if 1 <=? length tech_stack then
    modify (set_candidate_data "tech_stack" (VList tech_stack)) ;;;
    modify (set_conversation_state "technical_questions") ;;;
    modify (set_current_tech_index 0) ;;;
    _generate_next_technical_questions
  else
    ret ("Please provide at least one technology from your tech stack. "
         +:+ "You can separate multiple technologies with commas. "
         +:+ "**Please list your tech stack:**").

Definition _handle_technical_questions (user_input : string) : M TalentScoutChatbot string :=
  self <- get ;;
  tech_stack <- lift (tech_stack_of self) ;;
  current_tech <- lift (getitem tech_stack (current_tech_index self)) ;;
  if length (technical_questions self) mod questions_per_tech =? 0 then
    modify (fun self => set_current_tech_index (current_tech_index self + 1) self) ;;;
    self <- get ;;
    tech_stack <- lift (tech_stack_of self) ;;
    if length tech_stack <=? current_tech_index self then
      modify (set_conversation_state "completed") ;;;
      _complete_technical_assessment
    else _generate_next_technical_questions
  else _generate_next_technical_questions.

Definition completed_message : string :=
  "Our initial screening is complete! If you have any questions about the position "
  +:+ "or TalentScout, I'm happy to help. Otherwise, you can type 'exit' to end our conversation.".

Definition not_understood_message : string :=
  "I'm not sure I understand. Could you please provide the information I requested? "
  +:+ "If you need help, you can type 'exit' to end our conversation.".

Definition _handle_fallback (user_input : string) : M TalentScoutChatbot string :=
  self <- get ;;
  if decide (conversation_state self = "completed")
  then ret completed_message
  else ret not_understood_message.

Definition no_input_message : string :=
  "I didn't receive any input. Could you please try again?".

Definition process_input (user_input : string) : M TalentScoutChatbot string :=
  let user_input := strip user_input in
  if negb (truthy user_input) then ret no_input_message
  else
    self <- get ;;
    let st := conversation_state self in
    if decide (st = "name") then _handle_name user_input
    else if decide (st = "email") then _handle_email user_input
    else if decide (st = "phone") then _handle_phone user_input
    else if decide (st = "experience") then _handle_experience user_input
    else if decide (st = "position") then _handle_position user_input
    else if decide (st = "location") then _handle_location user_input
    else if decide (st = "tech_stack") then _handle_tech_stack user_input
    else if decide (st = "technical_questions") then _handle_technical_questions user_input
    else _handle_fallback user_input.

(** Truth value of a dict: it has an item. *)
Definition dict_truthy {V} (d : gmap string V) : bool :=
  negb (bool_decide (d = ∅)).

Definition end_conversation : M TalentScoutChatbot string :=
  modify (set_conversation_state "ended") ;;;
  self <- get ;;
  let message := nl +:+ "👋 **Thank you for your time!**" +:+ nl +:+ nl in
  let message :=
    if dict_truthy (candidate_data self)
    then message +:+ "I've recorded all the information you provided. "
    else message in
  ret (message
       +:+ "Our team will review your details and get back to you soon." +:+ nl +:+ nl
       +:+ "**Next Steps:**" +:+ nl
       +:+ "• Check your email for confirmation and next steps" +:+ nl
       +:+ "• Our team will contact you within 2-3 business days" +:+ nl
       +:+ "• Keep an eye out for updates about your application status" +:+ nl +:+ nl
       +:+ "**Contact Information:**" +:+ nl
       +:+ "📧 hr@talentscout.com" +:+ nl
       +:+ "📱 +1 (555) 123-4567" +:+ nl
       +:+ "🌐 www.talentscout.com" +:+ nl +:+ nl
       +:+ "Good luck with your application! 🍀").

(** [l.index(x)], after [x in l] has been tested. *)
Fixpoint index_of (x : string) (l : list string) : option nat :=
  match l with
  | [] => None
  | y :: l' => if decide (x = y) then Some 0 else S <$> index_of x l'
  end.

(** [a / b * 100] on binary64 floats and the truncation [int(_)]. *)
Definition float_of_nat (n : nat) : float :=
  PrimFloat.of_uint63 (Uint63.of_Z (Z.of_nat n)).

Definition int_of_float (f : float) : result Z :=
  match Prim2SF f with
  | S754_zero _ => Ok 0%Z
  | S754_finite s m e =>
      let magnitude :=
        if (0 <=? e)%Z then (Z.pos m * 2 ^ e)%Z else (Z.pos m / 2 ^ (- e))%Z in
      Ok (if s then (- magnitude)%Z else magnitude)
  | S754_infinity _ => Raise OverflowError
  | S754_nan => Raise ValueError
  end.

Definition get_progress (self : TalentScoutChatbot) : result Z :=
  match index_of (conversation_state self) states with
  | Some current_index =>
      int_of_float
        (PrimFloat.mul
           (PrimFloat.div (float_of_nat current_index) (float_of_nat (length states)))
           (float_of_nat 100))
  | None => Ok 0%Z
  end.

(** [_get_fallback_questions]: the table [fallback_db] in source order, the
    loop over its keys, and the generic questions. *)
Definition fallback_db : list (string * list string) :=
  [ ("python",
       ["What are the differences between lists and tuples in Python?";
        "Explain the concept of decorators in Python with an example.";
        "How does Python's garbage collection work?"]);
    ("javascript",
       ["Explain the difference between var, let, and const in JavaScript.";
        "What is event bubbling and how can you prevent it?";
        "How do closures work in JavaScript?"]);
    ("react",
       ["What is the difference between state and props in React?";
        "Explain the React component lifecycle methods.";
        "What are React hooks and why are they useful?"]);
    ("java",
       ["What is the difference between abstract classes and interfaces in Java?";
        "Explain the concept of polymorphism in Java.";
        "How does garbage collection work in Java?"]);
    ("sql",
       ["What is the difference between INNER JOIN and LEFT JOIN?";
        "Explain what database normalization is and why it's important.";
        "How would you optimize a slow-running SQL query?"])
  ].

Fixpoint fallback_match (tech_lower : string) (table : list (string * list string))
    : option (list string) :=
  match table with
  | [] => None
  | (key, questions) :: rest =>
      if contains key tech_lower || contains tech_lower key then Some questions
      else fallback_match tech_lower rest
  end.

Definition _get_fallback_questions (technology : string) : list string :=
  let tech_lower := lower technology in
  match fallback_match tech_lower fallback_db with
  | Some questions => questions
  | None =>
      ["What do you consider best practices when working with " +:+ technology +:+ "?";
       "Can you describe a challenging project where you used " +:+ technology +:+ "?";
       "How do you stay updated with the latest developments in " +:+ technology +:+ "?"]
  end.

End Bot.

(** ** [database_handler.py] *)

Module Db.

Import Bot.

(** A row of the [candidates] table. *)
Record Candidate : Type := {
  candidate_id : string;
  name : option value;
  email : option value;
  phone : option value;
  experience : option value;
  position : option value;
  location : option value;
  tech_stack : value;
  technical_questions : value;
  created_at : Z;
  updated_at : Z
}.

(** The session of a [DatabaseHandler]: the rows the database holds and the
    rows as the open transaction sees them. *)
Record Session : Type := {
  stored : list Candidate;
  staged : list Candidate
}.

Inductive db_op : Type := OpQuery | OpCommit | OpDelete.

Definition data_retention_days : Z := 90.

(** [try: body except Exception: handler] *)
Definition try_except {S A} (body : M S A) (handler : M S A) : M S A :=
  fun s =>
    match body s with
    | (Ok a, s') => (Ok a, s')
    | (Raise _, s') => handler s'
    end.

Section Handler.

(** What the program takes from its environment: the built-in [hash] of a
    string and the [str] of a list, the clock, and whether the database
    refuses an operation on the rows at hand. *)
Variable hash : string -> Z.
Variable str_of_list : list string -> string.
Variable utcnow : Z.
Variable db_raises : db_op -> list Candidate -> bool.

Definition str_of_value (v : value) : string :=
  match v with
  | VStr s => s
  | VList l => str_of_list l
  end.

(** [re.match(email_pattern, v)]: a [TypeError] on a value that is no string. *)
Definition re_match_email (v : value) : result bool :=
  match v with
  | VStr s => Ok (Re.match_anchored email_pattern s)
  | VList _ => Raise TypeError
  end.

Fixpoint required_present (fields : list string) (data : gmap string value) : bool :=
  match fields with
  | [] => true
  | field :: rest =>
      match data !! field with
      | Some v => if value_truthy v then required_present rest data else false
      | None => false
      end
  end.

Definition _validate_candidate_data (data : gmap string value) : result bool :=
  let required_fields := ["name"; "email"] in
  if negb (required_present required_fields data) then Ok false
  else
    match data !! "email" with
    | None => Raise (KeyError "email")
    | Some v =>
        match re_match_email v with
        | Ok matched => if negb matched then Ok false else Ok true
        | Raise e => Raise e
        end
    end.

Fixpoint remove_spaces (s : string) : string :=
  match s with
  | "" => ""
  | String c s' => if Ascii.eqb c " " then remove_spaces s' else String c (remove_spaces s')
  end.

Fixpoint take_chars (n : nat) (s : string) : string :=
  match n, s with
  | S n', String c s' => String c (take_chars n' s')
  | _, _ => ""
  end.

Definition _generate_candidate_id (candidate_data : gmap string value) : string :=
  let email := default (VStr "") (candidate_data !! "email") in
  let name := default (VStr "") (candidate_data !! "name") in
  let combined := remove_spaces (lower (str_of_value email +:+ str_of_value name)) in
  take_chars 8 (str_of_int (Z.abs (hash combined))).

(** Operations of the session. *)
Definition guard (op : db_op) : M Session unit :=
  fun s => if db_raises op (staged s) then (Raise DatabaseError, s) else (Ok tt, s).

Definition query_first (cid : string) : M Session (option Candidate) :=
  guard OpQuery ;;;
  s <- get ;;
  ret (head (filter (fun c => candidate_id c = cid) (staged s))).

Definition stage (rows : list Candidate) : M Session unit :=
  modify (fun s => {| stored := stored s; staged := rows |}).

Definition commit : M Session unit :=
  guard OpCommit ;;;
  modify (fun s => {| stored := staged s; staged := staged s |}).

Definition rollback : M Session unit :=
  modify (fun s => {| stored := stored s; staged := stored s |}).

Definition _cleanup_old_data : M Session unit :=
  try_except
    (let retention_limit := (utcnow - data_retention_days * 86400)%Z in
     guard OpDelete ;;;
     s <- get ;;
     let kept := filter (fun c => ¬ (created_at c < retention_limit)%Z) (staged s) in
     let deleted_count := (length (staged s) - length kept)%nat in
     stage kept ;;;
     if 0 <? deleted_count then commit else ret tt)
    rollback.

(** Assignment to the attributes of the row [query(...).first()] returned. *)
Fixpoint update_first (cid : string) (f : Candidate -> Candidate) (rows : list Candidate)
    : list Candidate :=
  match rows with
  | [] => []
  | c :: rest =>
      if decide (candidate_id c = cid) then f c :: rest
      else c :: update_first cid f rest
  end.

Definition row_of (cid : string) (candidate_data : gmap string value) (created : Z)
    : Candidate :=
  {| candidate_id := cid;
     name := candidate_data !! "name";
     email := candidate_data !! "email";
     phone := candidate_data !! "phone";
     experience := candidate_data !! "experience";
     position := candidate_data !! "position";
     location := candidate_data !! "location";
     tech_stack := default (VList []) (candidate_data !! "tech_stack");
     technical_questions := default (VList []) (candidate_data !! "technical_questions");
     created_at := created;
     updated_at := utcnow |}.

Definition save_candidate_data (candidate_data : gmap string value) : M Session bool :=
  try_except
    (valid <- lift (_validate_candidate_data candidate_data) ;;
     if negb valid then ret false
     else
       let cid := _generate_candidate_id candidate_data in
       existing <- query_first cid ;;
       s <- get ;;
       match existing with
       | Some old =>
           stage (update_first cid
                    (fun c => row_of cid candidate_data (created_at c)) (staged s))
       | None => stage (staged s ++ [row_of cid candidate_data utcnow])
       end ;;;
       commit ;;;
       _cleanup_old_data ;;;
       ret true)
    (rollback ;;; ret false).

(** The dict [get_candidate_summary] returns; [created_at] stands for its
    ISO rendering. *)
Record Summary : Type := {
  summary_candidate_id : string;
  summary_name : option value;
  summary_email : option value;
  summary_position : option value;
  summary_experience : option value;
  summary_tech_stack : value;
  summary_technical_questions : value;
  summary_created_at : Z
}.

(** [v or []] *)
Definition or_empty (v : value) : value :=
  if value_truthy v then v else VList [].

Definition get_candidate_summary (cid : string) : M Session (option Summary) :=
  try_except
    (candidate <- query_first cid ;;
     match candidate with
     | Some c =>
         ret (Some {| summary_candidate_id := candidate_id c;
                      summary_name := name c;
                      summary_email := email c;
                      summary_position := position c;
                      summary_experience := experience c;
                      summary_tech_stack := or_empty (tech_stack c);
                      summary_technical_questions := or_empty (technical_questions c);
                      summary_created_at := created_at c |})
     | None => ret None
     end)
    (ret None).

Definition delete_candidate_data (cid : string) : M Session bool :=
  try_except
    (guard OpDelete ;;;
     s <- get ;;
     let kept := filter (fun c => candidate_id c <> cid) (staged s) in
     let deleted_count := (length (staged s) - length kept)%nat in
     stage kept ;;;
     if 0 <? deleted_count then commit ;;; ret true else ret false)
    (rollback ;;; ret false).

End Handler.

End Db.

(** ** [app.py]: the turns of the host *)

Module App.

Import Bot.

(** The entries of the Streamlit session state. *)
Record AppState : Type := {
  chatbot : TalentScoutChatbot;
  data_handler : Db.Session;
  conversation_started : bool;
  conversation_ended : bool;
  messages : list (string * string)
}.

Definition ending_keywords : list string :=
  ["exit"; "quit"; "bye"; "goodbye"; "end"; "stop"].

(** [any(keyword in user_input.lower() for keyword in ending_keywords)] *)
Definition is_ending (user_input : string) : bool :=
  existsb (fun keyword => contains keyword (lower user_input)) ending_keywords.

Definition set_chatbot (c : TalentScoutChatbot) (st : AppState) : AppState :=
  {| chatbot := c; data_handler := data_handler st;
     conversation_started := conversation_started st;
     conversation_ended := conversation_ended st; messages := messages st |}.

Definition set_data_handler (s : Db.Session) (st : AppState) : AppState :=
  {| chatbot := chatbot st; data_handler := s;
     conversation_started := conversation_started st;
     conversation_ended := conversation_ended st; messages := messages st |}.

Definition set_conversation_started (b : bool) (st : AppState) : AppState :=
  {| chatbot := chatbot st; data_handler := data_handler st;
     conversation_started := b;
     conversation_ended := conversation_ended st; messages := messages st |}.

Definition set_conversation_ended (b : bool) (st : AppState) : AppState :=
  {| chatbot := chatbot st; data_handler := data_handler st;
     conversation_started := conversation_started st;
     conversation_ended := b; messages := messages st |}.

Definition append_message (role content : string) (st : AppState) : AppState :=
  {| chatbot := chatbot st; data_handler := data_handler st;
     conversation_started := conversation_started st;
     conversation_ended := conversation_ended st;
     messages := messages st ++ [(role, content)] |}.

(** A call of a method of the chatbot, and one of the data handler. *)
Definition on_chatbot {A} (m : M TalentScoutChatbot A) : M AppState A :=
  fun st =>
    match m (chatbot st) with
    | (r, c) => (r, set_chatbot c st)
    end.

Definition on_data_handler {A} (m : M Db.Session A) : M AppState A :=
  fun st =>
    match m (data_handler st) with
    | (r, s) => (r, set_data_handler s st)
    end.

Section Host.

Variable hash : string -> Z.
Variable str_of_list : list string -> string.
Variable utcnow : Z.
Variable db_raises : Db.db_op -> list Db.Candidate -> bool.

(** The session state of a new browser session. *)
Definition new_session (db : Db.Session) : AppState :=
  {| chatbot := init; data_handler := db;
     conversation_started := false; conversation_ended := false; messages := [] |}.

(** The start of the conversation on the first run of the script. *)
Definition auto_start : M AppState unit :=
  st <- get ;;
  if negb (conversation_started st) then
    modify (set_conversation_started true) ;;;
    initial_message <- on_chatbot start_conversation ;;
    modify (append_message "assistant" initial_message)
  else ret tt.

(** The run of the script on a text the user entered in the chat input. *)
Definition on_user_input (user_input : string) : M AppState unit :=
  st <- get ;;
  if conversation_started st && negb (conversation_ended st) then
    if truthy user_input then
      modify (append_message "user" user_input) ;;;
      if is_ending user_input then
        farewell_message <- on_chatbot end_conversation ;;
        modify (append_message "assistant" farewell_message) ;;;
        modify (set_conversation_ended true) ;;;
        st <- get ;;
        if dict_truthy (candidate_data (chatbot st)) then
          let candidate_data :=
            <["technical_questions" := VList (technical_questions (chatbot st))]>
              (candidate_data (chatbot st)) in
          on_data_handler
            (Db.save_candidate_data hash str_of_list utcnow db_raises candidate_data) ;;;
          ret tt
        else ret tt
      else
        response <- on_chatbot (process_input user_input) ;;
        modify (append_message "assistant" response)
    else ret tt
  else ret tt.

End Host.

End App.

(** * Sessions *)

Module Session.

Import Bot.

Global Instance value_eq_dec : EqDecision value.
Proof. solve_decision. Defined.

(** The session after [start_conversation] on a new chatbot. *)
Definition started : TalentScoutChatbot := snd (start_conversation init).

(** The session after a sequence of [process_input] calls. *)
Fixpoint feed (inputs : list string) (self : TalentScoutChatbot) : TalentScoutChatbot :=
  match inputs with
  | [] => self
  | inp :: rest => feed rest (snd (process_input inp self))
  end.

(** The response to the last of a sequence of [process_input] calls. *)
Fixpoint last_response (inputs : list string) (self : TalentScoutChatbot)
    : option (result string) :=
  match inputs with
  | [] => None
  | [inp] => Some (fst (process_input inp self))
  | inp :: rest => last_response rest (snd (process_input inp self))
  end.

(** The sessions a chatbot started once can be in between two calls. *)
Inductive Reachable : TalentScoutChatbot -> Prop :=
| reach_start : Reachable started
| reach_input inp self : Reachable self -> Reachable (snd (process_input inp self)).

(** The calls of a sequence that change what the record holds under [f]. *)
Definition assigns (f : string) (self self' : TalentScoutChatbot) : bool :=
  bool_decide (candidate_data self !! f <> candidate_data self' !! f).

Fixpoint assignments (f : string) (inputs : list string) (self : TalentScoutChatbot) : nat :=
  match inputs with
  | [] => 0
  | inp :: rest =>
      let self' := snd (process_input inp self) in
      (if assigns f self self' then 1 else 0) + assignments f rest self'
  end.

(** The fields of the record, in the order of their states, and those not
    yet asked for in a state. *)
Definition fields : list string :=
  ["name"; "email"; "phone"; "experience"; "position"; "location"; "tech_stack"].

Definition pending_fields (st : string) : list string :=
  match index_of st fields with
  | Some i => drop i fields
  | None => []
  end.

Definition fresh_fields (self : TalentScoutChatbot) : Prop :=
  forall f, f ∈ pending_fields (conversation_state self) -> candidate_data self !! f = None.

(** The calls of the host on a session. *)
Inductive call : Type :=
| Start
| Process (user_input : string)
| End.

Definition perform (c : call) (self : TalentScoutChatbot) : TalentScoutChatbot :=
  match c with
  | Start => snd (start_conversation self)
  | Process user_input => snd (process_input user_input self)
  | End => snd (end_conversation self)
  end.

(** [get_progress] as an integer, [0] standing for a call that raises. *)
Definition progress (self : TalentScoutChatbot) : Z :=
  match get_progress self with
  | Ok p => p
  | Raise _ => 0%Z
  end.

End Session.

(** The states [process_input] has a handler of their own for. *)
Definition handled_states : list string :=
  ["name"; "email"; "phone"; "experience"; "position"; "location";
   "tech_stack"; "technical_questions"].

(** Progress never falls, whatever the host calls. *)
Definition progress_never_falls : Prop :=
  forall (calls : list Session.call) (c : Session.call),
    let self := fold_left (fun s c => Session.perform c s) calls Bot.init in
    (Session.progress self <= Session.progress (Session.perform c self))%Z.

(** Properties of the characters and of the bytes of a string. *)
Definition all_chars (p : string -> bool) (s : string) : Prop :=
  Forall (fun ch => p ch = true) (chars s).

Definition all_bytes (p : ascii -> bool) (s : string) : Prop :=
  Forall (fun c => p c = true) (list_ascii_of_string s).

(** The characters [chars] gives: one ASCII byte, or another byte with
    continuation bytes after it; and a character that starts with a
    continuation byte does not follow one of the second kind. *)
Definition character (u : string) : Prop :=
  match u with
  | "" => False
  | String c t => if is_ascii c then t = "" else all_bytes is_cont t
  end.

Definition closed (u : string) : bool :=
  match u with
  | String c _ => is_ascii c
  | "" => true
  end.

Fixpoint characters (l : list string) : Prop :=
  match l with
  | [] => True
  | u :: l' =>
      character u
      /\ match l' with
         | v :: _ => closed u = true \/ starts_cont v = false
         | [] => True
         end
      /\ characters l'
  end.

(** Runs of digits in a list of characters, and the number a run reads as. *)
Definition no_digit (l : list string) : Prop := Forall (fun ch => isdigit ch = false) l.

Definition digits (l : list string) : Prop := Forall (fun ch => isdigit ch = true) l.

Definition starts_without_digit (l : list string) : Prop :=
  match l with
  | [] => True
  | ch :: _ => isdigit ch = false
  end.

Definition number (d : list string) : Z := int_of_digits_from 0 d.

(** A text of ASCII characters. *)
Definition ascii_text (s : string) : Prop := all_bytes is_ascii s.

(** [n] times a character. *)
Definition times (n : nat) (ch : string) : string := text (replicate n ch).

(** Characters of more than one byte, in UTF-8: the no-break space U+00A0,
    the ideographic space U+3000 and the Arabic-Indic digit three U+0663. *)
Definition no_break_space : string := String "194" (String "160" "").
Definition ideographic_space : string := String "227" (String "128" (String "128" "")).
Definition arabic_indic_three : string := String "217" (String "163" "").
(** An accepted phone number has 8 to 20 characters, each a digit or one of
    [+], space, [-], [(], [)] and [.]. *)
Definition accepted_phone_within_8_20 : Prop :=
  forall (self self' : Bot.TalentScoutChatbot) (user_input : string) (r : result string),
    Bot.conversation_state self = "phone" ->
    Bot.process_input user_input self = (r, self') ->
    Bot.conversation_state self' = "experience" ->
    exists phone,
      Bot.candidate_data self' !! "phone" = Some (Bot.VStr phone)
      /\ 8 <= len phone <= 20
      /\ all_chars (fun ch => isdigit ch || one_byte (Re.one_of "+ -().") ch) phone.

(** The answers to the seven profile questions of the end-to-end scenario. *)
Definition profile_inputs : list string :=
  ["Jane Doe"; "jane@x.com"; "+1 555 000 1111"; "3 years"; "Backend Engineer";
   "Berlin, Germany"; "Python, SQL"].

(** The session after one more answer in state [technical_questions]; the
    handler does not read the answer. *)
Definition answered (self : Bot.TalentScoutChatbot) : Bot.TalentScoutChatbot :=
  snd (Bot._handle_technical_questions "" self).

(** * Vocabulary of the properties *)

Section Vocabulary.

Import Bot.

(** Every value the cache holds is a non-empty question. *)
Definition cache_ok (g : Gen.AIQuestionGenerator) : Prop :=
  forall k q, Gen.question_cache g !! k = Some q -> q <> "".

(** A bank entry: three questions per tier, none empty. *)
Definition tier_ok (questions : list string) : Prop :=
  length questions = 3 /\ Forall (fun q => q <> "") questions.

Definition entry_ok (by_difficulty : list (string * list string)) : Prop :=
  Forall (fun item => tier_ok (snd item)) by_difficulty.

(** What [_generate_next_technical_questions] leaves alone, on every state
    and at every depth. *)
Definition question_frame (self self' : TalentScoutChatbot) : Prop :=
  candidate_data self' = candidate_data self
  /\ technical_questions self `prefix_of` technical_questions self'
  /\ (conversation_state self' = conversation_state self
      \/ conversation_state self' = "completed")
  /\ (cache_ok (question_generator self) -> cache_ok (question_generator self')).

(** The field a collection state asks for and the state that follows it. *)
Definition field_step (st : string) : option (string * string) :=
  if decide (st = "name") then Some ("name", "email")
  else if decide (st = "email") then Some ("email", "phone")
  else if decide (st = "phone") then Some ("phone", "experience")
  else if decide (st = "experience") then Some ("experience", "position")
  else if decide (st = "position") then Some ("position", "location")
  else if decide (st = "location") then Some ("location", "tech_stack")
  else if decide (st = "tech_stack") then Some ("tech_stack", "technical_questions")
  else None.

(** One call of [process_input], on any state: the asked questions grow at
    the end, and either the record is left alone, or the field of the
    current state is assigned and the state advances. *)
Definition step_spec (self self' : TalentScoutChatbot) : Prop :=
  technical_questions self `prefix_of` technical_questions self'
  /\ (cache_ok (question_generator self) -> cache_ok (question_generator self'))
  /\ ((candidate_data self' = candidate_data self
       /\ (conversation_state self' = conversation_state self
           \/ (conversation_state self = "technical_questions"
               /\ conversation_state self' = "completed")))
      \/ (exists f nxt v,
            field_step (conversation_state self) = Some (f, nxt)
            /\ candidate_data self' = <[f := v]> (candidate_data self)
            /\ (conversation_state self' = nxt
                \/ (f = "tech_stack" /\ conversation_state self' = "completed")))).

(** In state [technical_questions] the index points into the tech stack. *)
Definition quiz_ready (self : TalentScoutChatbot) : Prop :=
  conversation_state self = "technical_questions" ->
  exists tech_stack,
    tech_stack_of self = Ok tech_stack /\ current_tech_index self < length tech_stack.

(** The progress of a state, as the specification gives it. *)
Definition progress_formula (st : string) : Z :=
  match index_of st states with
  | Some i => (100 * Z.of_nat i / Z.of_nat (length states))%Z
  | None => 0%Z
  end.

(** The words of the email pattern: a local part, [@], a domain, a dot and
    a top-level domain of at least two letters. *)
Definition email_shape (w : list ascii) : Prop :=
  exists local domain tld,
    w = local ++ "@"%char :: domain ++ "."%char :: tld
    /\ local <> [] /\ Forall (fun c => email_local_class c = true) local
    /\ domain <> [] /\ Forall (fun c => email_domain_class c = true) domain
    /\ 2 <= length tld /\ Forall (fun c => isalpha c = true) tld.

End Vocabulary.

(** ** Vocabulary of the further properties *)

Section MoreVocabulary.

Import Bot.

(** Where the quiz stands: no question before it, [3 * index + k] questions
    with [k] of them on the current technology during it, three per
    technology after it. *)
Definition quiz_progress (self : TalentScoutChatbot) : Prop :=
  (conversation_state self ∈ Session.fields /\ technical_questions self = [])
  \/ (conversation_state self = "technical_questions"
      /\ exists tech_stack k,
           candidate_data self !! "tech_stack" = Some (VList tech_stack)
           /\ current_tech_index self < length tech_stack
           /\ 1 <= k <= 3
           /\ length (technical_questions self) = 3 * current_tech_index self + k)
  \/ (conversation_state self = "completed"
      /\ exists tech_stack,
           candidate_data self !! "tech_stack" = Some (VList tech_stack)
           /\ length (technical_questions self) = 3 * length tech_stack).

(** A technology as [_handle_tech_stack] stores it: not empty, without a
    comma, without whitespace at either end. *)
Definition trimmed_token (tech : string) : Prop :=
  tech <> ""
  /\ all_bytes (fun c => negb (Ascii.eqb c ",")) tech
  /\ (exists ch l, chars tech = ch :: l /\ isspace ch = false)
  /\ (exists l ch, chars tech = l ++ [ch] /\ isspace ch = false).

Definition blank_or_comma (ch : string) : bool := isspace ch || String.eqb ch ",".

(** The test of the partial matching: [key in tech_lower or tech_lower in key]. *)
Definition overlaps (key tech_lower : string) : bool :=
  contains key tech_lower || contains tech_lower key.

(** The question of a bank entry for a question number: that of the tier of
    the number (1 basic, 2 intermediate, 3 advanced, any other number
    intermediate) at position [(question_number - 1) mod 3]. *)
Definition served_from (entry : list (string * list string)) (question_number : Z)
    (q : string) : Prop :=
  exists questions,
    Gen.assoc (Gen.dict_get question_number Gen.difficulty_levels "intermediate") entry
    = Some questions
    /\ length questions = 3
    /\ questions !! Z.to_nat ((question_number - 1) `mod` 3) = Some q.

(** An entry with its three tiers, of three questions each. *)
Definition three_tiers (entry : list (string * list string)) : Prop :=
  forall difficulty,
    difficulty = "basic" \/ difficulty = "intermediate" \/ difficulty = "advanced" ->
    exists questions, Gen.assoc difficulty entry = Some questions /\ length questions = 3.

(** The fields a session has collected when it is in a state: those asked
    before it, all of them during and after the quiz. *)
Definition collected_fields (st : string) : list string :=
  match index_of st Session.fields with
  | Some i => take i Session.fields
  | None =>
      if bool_decide (st ∈ ["technical_questions"; "completed"]) then Session.fields
      else []
  end.

(** What the handler of a field stores for a trimmed input it accepts. *)
Definition assigned (f user_input : string) (v : value) : Prop :=
  (f = "name" /\ v = VStr user_input
   /\ Re.match_text name_pattern user_input = true)
  \/ (f = "email" /\ v = VStr user_input
      /\ Re.match_anchored email_pattern user_input = true)
  \/ (f = "phone" /\ v = VStr user_input
      /\ Re.match_text phone_pattern user_input = true)
  \/ (f = "experience"
      /\ exists years_match years,
           Re.search_digits user_input = Some years_match
           /\ int years_match = Ok years
           /\ (0 <= years <= 50)%Z
           /\ v = VStr (str_of_int years +:+ " years"))
  \/ ((f = "position" \/ f = "location") /\ v = VStr user_input
      /\ 2 <= len user_input)
  \/ (f = "tech_stack"
      /\ v = VList (filter (fun tech => truthy tech = true)
                      (map strip (split "," user_input)))
      /\ filter (fun tech => truthy tech = true) (map strip (split "," user_input)) <> []).

(** The values a field of the record can hold. *)
Definition field_ok (f : string) (v : value) : Prop :=
  (f = "name"
   /\ exists s, v = VStr s /\ 2 <= len s <= 50 /\ all_chars name_class s)
  \/ (f = "email" /\ exists s, v = VStr s /\ email_shape (list_ascii_of_string s))
  \/ (f = "phone"
      /\ exists s body,
           v = VStr s /\ (s = body \/ s = String "+" body)
           /\ 8 <= len body <= 20 /\ all_chars phone_class body)
  \/ (f = "experience"
      /\ exists years, (0 <= years <= 50)%Z /\ v = VStr (str_of_int years +:+ " years"))
  \/ ((f = "position" \/ f = "location")
      /\ exists s, v = VStr s /\ 2 <= len s)
  \/ (f = "tech_stack"
      /\ exists techs, v = VList techs /\ techs <> [] /\ Forall trimmed_token techs).

Definition record_ok (self : TalentScoutChatbot) : Prop :=
  dom (candidate_data self) = list_to_set (collected_fields (conversation_state self))
  /\ forall f v, candidate_data self !! f = Some v -> field_ok f v.

End MoreVocabulary.


(** ** Vocabulary of the store *)

Section StoreVocabulary.

Import Bot.

Variable utcnow : Z.

(** The rows the cleanup keeps: those not created before the retention limit. *)
Definition retained (rows : list Db.Candidate) : list Db.Candidate :=
  filter (fun c => ~ (Db.created_at c < utcnow - Db.data_retention_days * 86400)%Z) rows.

(** The rows after the insert or update of [save_candidate_data]. *)
Definition upsert (cid : string) (candidate_data : gmap string value)
    (rows : list Db.Candidate) : list Db.Candidate :=
  match head (filter (fun c => Db.candidate_id c = cid) rows) with
  | Some _ =>
      Db.update_first cid (fun c => Db.row_of utcnow cid candidate_data (Db.created_at c)) rows
  | None => rows ++ [Db.row_of utcnow cid candidate_data utcnow]
  end.

(** The creation time of the row of [cid] after an insert or update. *)
Definition created_of (cid : string) (rows : list Db.Candidate) : Z :=
  match head (filter (fun c => Db.candidate_id c = cid) rows) with
  | Some c => Db.created_at c
  | None => utcnow
  end.

(** The summary of the row a record is saved as. *)
Definition summary_of (cid : string) (candidate_data : gmap string value) (created : Z)
    : Db.Summary :=
  {| Db.summary_candidate_id := cid;
     Db.summary_name := candidate_data !! "name";
     Db.summary_email := candidate_data !! "email";
     Db.summary_position := candidate_data !! "position";
     Db.summary_experience := candidate_data !! "experience";
     Db.summary_tech_stack :=
       Db.or_empty (default (VList []) (candidate_data !! "tech_stack"));
     Db.summary_technical_questions :=
       Db.or_empty (default (VList []) (candidate_data !! "technical_questions"));
     Db.summary_created_at := created |}.

(** No transaction is open and no two rows share a candidate id. *)
Definition store_ok (s : Db.Session) : Prop :=
  Db.staged s = Db.stored s /\ NoDup (Db.candidate_id <$> Db.stored s).

End StoreVocabulary.

(** ** Vocabulary of the host *)

Section HostVocabulary.

Import Bot.

Variable hash : string -> Z.
Variable str_of_list : list string -> string.
Variable utcnow : Z.
Variable db_raises : Db.db_op -> list Db.Candidate -> bool.

(** The session state after the first run of the script on a new browser
    session. *)
Definition opened (db : Db.Session) : App.AppState :=
  snd (App.auto_start (App.new_session db)).

(** The session state after the runs of the script on a sequence of chat
    inputs. *)
Definition turns (inputs : list string) (st : App.AppState) : App.AppState :=
  fold_left
    (fun st user_input =>
       snd (App.on_user_input hash str_of_list utcnow db_raises user_input st))
    inputs st.

(** A value of the record in which no ending keyword occurs. *)
Definition keyword_free (v : value) : Prop :=
  match v with
  | VStr s => App.is_ending s = false
  | VList l => Forall (fun tech => App.is_ending tech = false) l
  end.

(** The record the host hands to the store. *)
Definition handed_over (self : TalentScoutChatbot) : gmap string value :=
  <["technical_questions" := VList (technical_questions self)]> (candidate_data self).

End HostVocabulary.
(** * Properties *)

Import Re.

Section Regex.

Context {A : Type}.
Implicit Types (r a b : regex A) (w u v : list A) (c : A) (p : A -> bool).

(** ** The derivative matcher decides [lang] *)

Lemma nullable_lang r : nullable r = true <-> lang r [].
Proof.
  induction r as [| |p|a IHa b IHb|a IHa b IHb|a IHa]; simpl.
  - split; [discriminate | tauto].
  - tauto.
  - split; [discriminate | intros (c & Hc & _); discriminate].
  - rewrite andb_true_iff, IHa, IHb. split.
    + intros [Ha Hb]. exists [], []. auto.
    + intros (u & v & Huv & Ha & Hb).
      symmetry in Huv. apply app_eq_nil in Huv as [-> ->]. auto.
  - rewrite orb_true_iff, IHa, IHb. tauto.
  - split; [intros _ | reflexivity]. exists []. auto.
Qed.

Lemma cat_lang a b w : lang (cat a b) w <-> lang (Cat a b) w.
Proof.
  destruct a; simpl; try tauto.
  - split; [tauto | intros (u & v & _ & [] & _)].
  - split.
    + intros H. exists [], w. auto.
    + intros (u & v & -> & -> & H). exact H.
Qed.

Lemma alt_lang a b w : lang (alt a b) w <-> lang (Alt a b) w.
Proof.
  destruct a, b; simpl; tauto.
Qed.

Lemma star_cons_lang a c w :
  lang (Star a) (c :: w) <->
  exists u v, w = u ++ v /\ lang a (c :: u) /\ lang (Star a) v.
Proof.
  split.
  - intros (ws & Hw & Hall). revert Hw.
    induction Hall as [|x ws Hx Hall IH]; simpl; [discriminate|].
    destruct x as [|c' x]; simpl; [exact IH|].
    intros [= <- ->]. exists x, (concat ws). repeat split; auto.
    exists ws. auto.
  - intros (u & v & -> & Hu & ws & -> & Hall).
    exists ((c :: u) :: ws). split; [reflexivity | constructor; auto].
Qed.

Lemma deriv_lang r : forall c w, lang (deriv c r) w <-> lang r (c :: w).
Proof.
  induction r as [| |p|a IHa b IHb|a IHa b IHb|a IHa]; intros c w;
    cbn [deriv].
  - simpl. tauto.
  - simpl. split; [tauto | discriminate].
  - destruct (p c) eqn:Hp; simpl.
    + split.
      * intros ->. exists c. auto.
      * intros (c' & [= <- <-] & _). reflexivity.
    + split; [tauto|]. intros (c' & [= <- _] & Hp'). congruence.
  - rewrite alt_lang. cbn [lang]. rewrite cat_lang. cbn [lang]. split.
    + intros [(u & v & -> & Hu & Hv) | H].
      * exists (c :: u), v. rewrite <- IHa. auto.
      * destruct (nullable a) eqn:Hn; [|destruct H].
        exists [], (c :: w). rewrite <- nullable_lang, <- IHb. auto.
    + intros (u & v & Huv & Hu & Hv). destruct u as [|c' u].
      * right. simpl in Huv. subst v.
        apply nullable_lang in Hu. rewrite Hu. apply IHb, Hv.
      * injection Huv as <- ->. left. exists u, v. rewrite IHa. auto.
  - rewrite alt_lang. cbn [lang]. rewrite IHa, IHb. tauto.
  - rewrite cat_lang, star_cons_lang. cbn [lang]. split.
    + intros (u & v & -> & Hu & Hv). exists u, v. rewrite <- IHa. auto.
    + intros (u & v & -> & Hu & Hv). exists u, v. rewrite IHa. auto.
Qed.

Lemma matches_lang w : forall r, matches r w = true <-> lang r w.
Proof.
  induction w as [|c w IH]; intros r; simpl.
  - apply nullable_lang.
  - rewrite IH. apply deriv_lang.
Qed.

(** ** Counted repetition of a character class *)

Lemma times_cls_lang p n w :
  lang (Times n (Cls p)) w <-> length w = n /\ Forall (fun c => p c = true) w.
Proof.
  revert w. induction n as [|n IH]; intros w; simpl.
  - split.
    + intros ->. auto.
    + intros [H _]. destruct w; [reflexivity | discriminate].
  - split.
    + intros (u & v & -> & (c & -> & Hc) & Hv). apply IH in Hv as [Hl Hv].
      simpl. split; [congruence | constructor; auto].
    + intros [Hl Hall]. destruct w as [|c w]; [discriminate|].
      inversion Hall; subst. exists [c], w. repeat split; eauto.
      apply IH. split; [simpl in Hl; lia | auto].
Qed.

Lemma upto_cls_lang p n w :
  lang (UpTo n (Cls p)) w <-> length w <= n /\ Forall (fun c => p c = true) w.
Proof.
  revert w. induction n as [|n IH]; intros w; simpl.
  - split.
    + intros ->. simpl. auto.
    + intros [H _]. destruct w; [reflexivity | simpl in H; lia].
  - split.
    + intros [-> | (u & v & -> & (c & -> & Hc) & Hv)].
      * simpl. split; [lia | constructor].
      * apply IH in Hv as [Hl Hv]. simpl. split; [lia | constructor; auto].
    + intros [Hl Hall]. destruct w as [|c w]; [left; reflexivity | right].
      inversion Hall; subst. exists [c], w. repeat split; eauto.
      apply IH. split; [simpl in Hl; lia | auto].
Qed.

Lemma star_cls_lang p w :
  lang (Star (Cls p)) w <-> Forall (fun c => p c = true) w.
Proof.
  split.
  - intros (ws & -> & Hall). induction Hall as [|x ws (c & -> & Hc) _ IH]; simpl.
    + constructor.
    + constructor; auto.
  - intros Hall. exists (map (fun c => [c]) w). split.
    + induction w as [|c w IH]; simpl; [reflexivity|].
      inversion Hall; subst. f_equal. auto.
    + induction Hall; simpl; constructor; eauto.
Qed.

Lemma range_cls_lang p lo hi w :
  lo <= hi ->
  lang (Range lo hi (Cls p)) w <->
  lo <= length w <= hi /\ Forall (fun c => p c = true) w.
Proof.
  intros Hle. unfold Range. split.
  - intros (u & v & -> & Hu & Hv).
    apply times_cls_lang in Hu as [Hlu Hu].
    apply upto_cls_lang in Hv as [Hlv Hv].
    rewrite length_app. split; [lia | apply Forall_app; auto].
  - intros [Hl Hall]. exists (take lo w), (drop lo w).
    rewrite take_drop. split; [reflexivity|].
    rewrite times_cls_lang, upto_cls_lang, length_take, length_drop.
    repeat split; try lia.
    + apply Forall_take, Hall.
    + apply Forall_drop, Hall.
Qed.

Lemma atleast_cls_lang p lo w :
  lang (AtLeast lo (Cls p)) w <->
  lo <= length w /\ Forall (fun c => p c = true) w.
Proof.
  unfold AtLeast. split.
  - intros (u & v & -> & Hu & Hv).
    apply times_cls_lang in Hu as [Hlu Hu].
    apply star_cls_lang in Hv.
    rewrite length_app. split; [lia | apply Forall_app; auto].
  - intros [Hl Hall]. exists (take lo w), (drop lo w).
    rewrite take_drop. split; [reflexivity|].
    rewrite times_cls_lang, star_cls_lang, length_take.
    repeat split; try lia.
    + apply Forall_take, Hall.
    + apply Forall_drop, Hall.
Qed.

End Regex.
(** ** The question bank *)

Section QuestionBank.

Import Gen.

Lemma truthy_true (s : string) : truthy s = true <-> s <> "".
Proof.
  unfold truthy. destruct (String.eqb_spec s ""); simpl; split; congruence.
Qed.

Lemma cache_ok_init : cache_ok init.
Proof. intros k q H. cbn in H. rewrite lookup_empty in H. discriminate. Qed.

Lemma tech_questions_ok : Forall (fun item => entry_ok (snd item)) tech_questions.
Proof.
  unfold tech_questions, entry_ok, tier_ok.
  repeat first [ apply Forall_nil | apply Forall_cons | split | reflexivity | discriminate ].
Qed.

Lemma generic_questions_ok technology : entry_ok (generic_questions technology).
Proof.
  unfold generic_questions, entry_ok, tier_ok.
  repeat first [ apply Forall_nil | apply Forall_cons | split | reflexivity | discriminate ].
Qed.

Lemma assoc_elem {K V : Type} `{EqDecision K} (k : K) (d : list (K * V)) v :
  assoc k d = Some v -> (k, v) ∈ d.
Proof.
  induction d as [|[k' v'] d IH]; simpl; [discriminate|].
  case_decide; [intros [= ->]; subst; left | right; auto].
Qed.

Lemma dict_get_tier difficulty by_difficulty :
  entry_ok by_difficulty ->
  nonempty (dict_get difficulty by_difficulty []) = true ->
  tier_ok (dict_get difficulty by_difficulty []).
Proof.
  unfold dict_get. intros Hok. destruct (assoc _ _) as [qs|] eqn:Ha; [|discriminate].
  intros _. apply assoc_elem in Ha.
  unfold entry_ok in Hok. rewrite Forall_forall in Hok. exact (Hok _ Ha).
Qed.

Lemma rotate_elem questions question_number :
  questions <> [] ->
  exists q, rotate questions question_number = Ok q /\ q ∈ questions.
Proof.
  intros Hne. unfold rotate, pymod.
  assert (0 < length questions) as Hlen by (destruct questions; [done | simpl; lia]).
  destruct (Z.eqb_spec (Z.of_nat (length questions)) 0); [lia|].
  unfold getitem.
  pose proof (Z.mod_pos_bound (question_number - 1) (Z.of_nat (length questions))
                ltac:(lia)) as Hb.
  destruct (questions !! _) as [q|] eqn:Hq.
  - exists q. split; [reflexivity|]. eapply list_elem_of_lookup_2, Hq.
  - apply lookup_ge_None in Hq. lia.
Qed.

Lemma rotate_tier questions question_number :
  tier_ok questions ->
  exists q, rotate questions question_number = Ok q /\ q <> "".
Proof.
  intros [Hlen Hall].
  destruct (rotate_elem questions question_number) as (q & Hq & Hin).
  { destruct questions; [discriminate | done]. }
  exists q. split; [exact Hq|]. rewrite Forall_forall in Hall. auto.
Qed.


Lemma partial_match_ok tech_lower difficulty question_number table :
  Forall (fun item => entry_ok (snd item)) table ->
  partial_match tech_lower difficulty question_number table = None
  \/ exists q, partial_match tech_lower difficulty question_number table = Some (Ok q)
               /\ q <> "".
Proof.
  induction 1 as [|[key by_difficulty] table Hk _ IH]; simpl; [left; reflexivity|].
  destruct (_ || _); [|exact IH].
  destruct (nonempty _) eqn:Hne; [|exact IH].
  right. apply dict_get_tier in Hne; [|exact Hk].
  destruct (rotate_tier _ question_number Hne) as (q & -> & Hq). eauto.
Qed.

Lemma generic_fallback_ok technology difficulty question_number :
  exists q,
    match assoc "intermediate" (generic_questions technology) with
    | None => Raise (KeyError "intermediate")
    | Some dflt =>
        match rotate (dict_get difficulty (generic_questions technology) dflt)
                question_number with
        | Ok q => Ok (Some q)
        | Raise e => Raise e
        end
    end = Ok (Some q) /\ q <> "".
Proof.
  pose proof (generic_questions_ok technology) as Hok.
  unfold entry_ok in Hok. rewrite Forall_forall in Hok.
  destruct (assoc "intermediate" (generic_questions technology)) as [dflt|] eqn:Hd;
    [|discriminate].
  assert (tier_ok (dict_get difficulty (generic_questions technology) dflt)) as Ht.
  { unfold dict_get. destruct (assoc difficulty _) as [qs|] eqn:Ha.
    - apply assoc_elem in Ha. exact (Hok _ Ha).
    - apply assoc_elem in Hd. exact (Hok _ Hd). }
  destruct (rotate_tier _ question_number Ht) as (q & -> & Hq). eauto.
Qed.

(** [_generate_with_simple_ai] always returns a non-empty question. *)
Lemma generate_with_simple_ai_ok prompt technology question_number :
  exists q, _generate_with_simple_ai prompt technology question_number = Ok (Some q)
            /\ q <> "".
Proof.
  unfold _generate_with_simple_ai.
  set (difficulty := dict_get question_number difficulty_levels "intermediate").
  set (tech_lower := lower technology).
  pose proof (generic_fallback_ok technology difficulty question_number) as Hfallback.
  pose proof (partial_match_ok tech_lower difficulty question_number tech_questions
                tech_questions_ok) as Hpartial.
  destruct (assoc tech_lower tech_questions) as [by_difficulty|] eqn:Hexact.
  - apply assoc_elem in Hexact.
    pose proof tech_questions_ok as Hok. rewrite Forall_forall in Hok.
    specialize (Hok _ Hexact). cbn [snd] in Hok.
    destruct (nonempty (dict_get difficulty by_difficulty [])) eqn:Hne.
    + apply dict_get_tier in Hne; [|exact Hok].
      destruct (rotate_tier _ question_number Hne) as (q & -> & Hq). eauto.
    + destruct Hpartial as [-> | (q & -> & Hq)]; eauto.
  - destruct Hpartial as [-> | (q & -> & Hq)]; eauto.
Qed.

(** [generate_question] on a cache of non-empty questions: it returns a
    non-empty question and the cache stays one of non-empty questions. *)
Lemma generate_question_ok technology question_number g :
  cache_ok g ->
  exists q g', generate_question technology question_number g = (Ok (Some q), g')
               /\ q <> "" /\ cache_ok g'.
Proof.
  intros Hc. unfold generate_question, bind, get, ret, lift, modify.
  destruct (question_cache g !! cache_key technology question_number) as [q|] eqn:Hk.
  - exists q, g. split; [reflexivity|]. split; [eapply Hc, Hk | exact Hc].
  - destruct (generate_with_simple_ai_ok
                (_create_question_prompt technology question_number)
                technology question_number) as (q & -> & Hq).
    pose proof (proj2 (truthy_true q) Hq) as ->.
    eexists q, _. split; [reflexivity|]. split; [exact Hq|].
    intros k q' Hl. cbn in Hl. apply lookup_insert_Some in Hl as [[_ <-] | [_ Hl]];
      [exact Hq | eapply Hc, Hl].
Qed.




End QuestionBank.
(** ** The conversation engine: what one call can change *)

Section Engine.

Import Bot.

Ltac run_monad :=
  cbv beta iota zeta delta
    [bind ret get modify lift raise on_generator fst snd tech_stack_of
     question_generator conversation_state candidate_data
     technical_questions current_tech_index
     set_question_generator set_conversation_state set_candidate_data
     append_technical_question set_current_tech_index].

Ltac run_monad_in H :=
  cbv beta iota zeta delta
    [bind ret get modify lift raise on_generator fst snd tech_stack_of
     question_generator conversation_state candidate_data
     technical_questions current_tech_index
     set_question_generator set_conversation_state set_candidate_data
     append_technical_question set_current_tech_index] in H.

Lemma complete_technical_assessment_frame self r self' :
  _complete_technical_assessment self = (r, self') ->
  self' = set_conversation_state "completed" self.
Proof.
  unfold _complete_technical_assessment. run_monad.
  destruct self as [g st d qs i]. destruct (d !! "tech_stack"); intros [= _ <-]; reflexivity.
Qed.

Lemma question_frame_refl self : question_frame self self.
Proof. repeat split; auto. Qed.

Lemma generate_next_rec_frame fuel : forall self r self',
  _generate_next_technical_questions_rec fuel self = (r, self') ->
  question_frame self self'.
Proof.
  induction fuel as [|fuel IH]; intros [g st d qs i] r self';
    cbn [_generate_next_technical_questions_rec].
  - run_monad. intros [= _ <-]. apply question_frame_refl.
  - run_monad.
    destruct (d !! "tech_stack") as [v|] eqn:Hts;
      [|intros [= _ <-]; apply question_frame_refl].
    destruct (getitem (items v) i) as [tech|e];
      [|intros [= _ <-]; apply question_frame_refl].
    pose proof (generate_question_ok tech
                  (Z.of_nat (length qs mod questions_per_tech) + 1) g) as Hgen.
    destruct (Gen.generate_question tech _ g) as [[question|e] g'].
    2: { intros [= _ <-]. unfold question_frame; cbn. repeat split; auto.
         intros Hc. destruct (Hgen Hc) as (? & ? & [=] & _). }
    assert (cache_ok g -> cache_ok g') as Hc'.
    { intros Hc. destruct (Hgen Hc) as (? & ? & [= _ <-] & _ & Hc'). exact Hc'. }
    destruct (question_truthy question).
    + intros [= _ <-]. unfold question_frame; cbn. repeat split; auto.
      apply prefix_app_r. reflexivity.
    + rewrite Hts. destruct (_ <=? _).
      * intros H. apply complete_technical_assessment_frame in H. subst self'.
        unfold question_frame; cbn. repeat split; auto.
      * intros H. apply IH in H. destruct H as (Hd & Hq & Hs & Hc).
        unfold question_frame. cbn in Hd, Hq, Hs, Hc. repeat split; auto.
Qed.

Lemma generate_next_frame self r self' :
  _generate_next_technical_questions self = (r, self') -> question_frame self self'.
Proof. apply generate_next_rec_frame. Qed.

(** On a cache of non-empty questions and an index inside the tech stack the
    call appends one question and changes nothing else: the branch that
    skips a technology is not taken. *)
Lemma generate_next_rec_asks fuel self tech_stack :
  cache_ok (question_generator self) ->
  tech_stack_of self = Ok tech_stack ->
  current_tech_index self < length tech_stack ->
  exists msg q g',
    _generate_next_technical_questions_rec (S fuel) self
    = (Ok msg, append_technical_question q (set_question_generator g' self))
    /\ q <> "" /\ cache_ok g'.
Proof.
  destruct self as [g st d qs i]. intros Hc Hts Hi. run_monad_in Hc; run_monad_in Hts; run_monad_in Hi.
  cbn [_generate_next_technical_questions_rec]. run_monad.
  destruct (d !! "tech_stack") as [v|]; [|discriminate]. injection Hts as <-.
  unfold getitem.
  destruct (lookup_lt_is_Some_2 (items v) _ Hi) as [tech ->].
  destruct (generate_question_ok tech
              (Z.of_nat (length qs mod questions_per_tech) + 1) _ Hc)
    as (q & g' & -> & Hq & Hc').
  cbn [question_truthy]. rewrite (proj2 (truthy_true q) Hq).
  eexists _, q, g'. split; [reflexivity | auto].
Qed.

Lemma generate_next_asks self tech_stack :
  cache_ok (question_generator self) ->
  tech_stack_of self = Ok tech_stack ->
  current_tech_index self < length tech_stack ->
  exists msg q g',
    _generate_next_technical_questions self
    = (Ok msg, append_technical_question q (set_question_generator g' self))
    /\ q <> "" /\ cache_ok g'.
Proof.
  intros Hc Hts Hi. unfold _generate_next_technical_questions. rewrite Hts.
  apply (generate_next_rec_asks _ self tech_stack); assumption.
Qed.


Lemma generate_question_no_raise technology question_number g e :
  fst (Gen.generate_question technology question_number g) <> Raise e.
Proof.
  unfold Gen.generate_question. run_monad.
  destruct (Gen.question_cache g !! _); [discriminate|].
  destruct (generate_with_simple_ai_ok
              (Gen._create_question_prompt technology question_number)
              technology question_number) as (q & -> & _).
  destruct (truthy q); discriminate.
Qed.

(** The depth given to the nested calls is never used up. *)
Lemma generate_next_rec_depth fuel : forall self tech_stack,
  tech_stack_of self = Ok tech_stack ->
  length tech_stack <= fuel + current_tech_index self ->
  fst (_generate_next_technical_questions_rec (S fuel) self) <> Raise RecursionError.
Proof.
  induction fuel as [|fuel IH]; intros [g st d qs i] ts Hts Hlen;
    [|remember (S fuel) as depth eqn:Hdepth];
    cbn [_generate_next_technical_questions_rec]; run_monad_in Hts; run_monad_in Hlen; run_monad;
    (destruct (d !! "tech_stack") as [v|] eqn:Hv; [|discriminate]); injection Hts as <-.
  - assert (getitem (items v) i = Raise IndexError) as ->.
    { unfold getitem. rewrite (proj2 (lookup_ge_None (items v) _)); [reflexivity | lia]. }
    discriminate.
  - destruct (getitem (items v) i) as [tech|e] eqn:Hg;
      [|unfold getitem in Hg; destruct (items v !! _); [discriminate|];
        injection Hg as <-; discriminate].
    pose proof (generate_question_no_raise tech
                  (Z.of_nat (length qs mod questions_per_tech) + 1) g RecursionError) as Hgen.
    destruct (Gen.generate_question tech _ g) as [[question|e] g'];
      [|cbn in *; congruence].
    destruct (question_truthy question); [discriminate|].
    rewrite Hv.
    destruct (Nat.leb_spec (length (items v)) (i + 1)).
    + unfold _complete_technical_assessment. run_monad. try rewrite Hv. discriminate.
    + subst depth. apply (IH _ (items v)); run_monad; [rewrite Hv; reflexivity | lia].
Qed.

Lemma generate_next_depth self :
  fst (_generate_next_technical_questions self) <> Raise RecursionError.
Proof.
  unfold _generate_next_technical_questions.
  destruct (tech_stack_of self) as [ts|e] eqn:Hts.
  - apply (generate_next_rec_depth _ self ts); [exact Hts | lia].
  - destruct self as [g st d qs i].
    cbn [_generate_next_technical_questions_rec]. run_monad. run_monad_in Hts.
    destruct (d !! "tech_stack"); [discriminate Hts | discriminate].
Qed.

Lemma step_spec_refl self : step_spec self self.
Proof. split; [reflexivity | split; [auto | left; auto]]. Qed.

Ltac field_handler f nxt :=
  match goal with
  | |- context [if ?c then _ else _] =>
      destruct c;
      [ intros [= _ <-]; split; [reflexivity|]; split; [auto|]; right;
        eexists f, nxt, _; cbn; repeat split; auto
      | intros [= _ <-]; apply step_spec_refl ]
  end.

Lemma process_input_step inp self r self' :
  process_input inp self = (r, self') -> step_spec self self'.
Proof.
  unfold process_input. destruct (negb (truthy (strip inp))).
  { run_monad. intros [= _ <-]. apply step_spec_refl. }
  destruct self as [g st d qs i]. unfold bind at 1, get at 1.
  cbv beta iota zeta delta [conversation_state].
  repeat case_decide; subst.
  - unfold _handle_name. run_monad. field_handler "name" "email".
  - unfold _handle_email. run_monad. field_handler "email" "phone".
  - unfold _handle_phone. run_monad. field_handler "phone" "experience".
  - unfold _handle_experience. run_monad.
    destruct (Re.search_digits _) as [years_match|]; [|intros [= _ <-]; apply step_spec_refl].
    destruct (int years_match) as [years|e]; [|intros [= _ <-]; apply step_spec_refl].
    field_handler "experience" "position".
  - unfold _handle_position. run_monad. field_handler "position" "location".
  - unfold _handle_location. run_monad. field_handler "location" "tech_stack".
  - unfold _handle_tech_stack. run_monad.
    destruct (1 <=? _); [|intros [= _ <-]; apply step_spec_refl].
    intros Hrun. apply generate_next_frame in Hrun as (Hd & Hq & Hs & Hc).
    cbn in Hd, Hq, Hs, Hc.
    split; [exact Hq|]. split; [exact Hc|]. right.
    eexists "tech_stack", "technical_questions", _.
    cbn. repeat split; [exact Hd|]. destruct Hs; auto.
  - unfold _handle_technical_questions. run_monad.
    destruct (d !! "tech_stack") as [v|] eqn:Hv; [|intros [= _ <-]; apply step_spec_refl].
    destruct (getitem _ _); [|intros [= _ <-]; apply step_spec_refl].
    destruct (_ =? 0).
    + rewrite Hv. destruct (_ <=? _).
      * intros Hrun. apply complete_technical_assessment_frame in Hrun. subst self'.
        split; [reflexivity|]. split; [auto|]. left. cbn. auto.
      * intros Hrun. apply generate_next_frame in Hrun as (Hd & Hq & Hs & Hc).
        cbn in Hd, Hq, Hs, Hc.
        split; [exact Hq|]. split; [exact Hc|]. left. cbn. split; [exact Hd|].
        destruct Hs; auto.
    + intros Hrun. apply generate_next_frame in Hrun as (Hd & Hq & Hs & Hc).
      cbn in Hd, Hq, Hs, Hc.
      split; [exact Hq|]. split; [exact Hc|]. left. cbn. split; [exact Hd|].
      destruct Hs; auto.
  - unfold _handle_fallback. run_monad. case_decide; intros [= _ <-]; apply step_spec_refl.
Qed.

(** [int] raises on a run of more than 4300 digits, and only then. *)
Lemma int_raises s e : int s = Raise e -> e = ValueError /\ int_max_str_digits < len s.
Proof.
  unfold int. destruct (int_max_str_digits <? len s) eqn:Hlen; [|discriminate].
  intros [= <-]. split; [reflexivity | apply Nat.ltb_lt, Hlen].
Qed.

(** On a session whose cache holds non-empty questions and whose index
    points into the tech stack during the quiz, [process_input] returns a
    response, or raises [ValueError] in state [experience] on a run of more
    than 4300 digits and leaves the session as it is; the session it leaves
    is such a session again. *)
Ltac plain_handler Hc :=
  run_monad;
  repeat match goal with
         | |- context [if ?c then _ else _] => destruct c
         end;
  (eexists _, _; split; [reflexivity|]; split; [exact Hc|];
   split; [intros Hst; cbn in Hst; congruence | left; eauto]).

Lemma process_input_returns inp self :
  cache_ok (question_generator self) -> quiz_ready self ->
  exists r self',
    process_input inp self = (r, self')
    /\ cache_ok (question_generator self') /\ quiz_ready self'
    /\ ((exists msg, r = Ok msg)
        \/ (r = Raise ValueError /\ self' = self
            /\ conversation_state self = "experience"
            /\ exists years_match,
                 Re.search_digits (strip inp) = Some years_match
                 /\ int_max_str_digits < len years_match)).
Proof.
  intros Hc Hq. unfold process_input. destruct (negb (truthy (strip inp))).
  { eexists _, _. split; [reflexivity|]. split; [exact Hc|]. split; [exact Hq|].
    left. eauto. }
  destruct self as [g st d qs i]. unfold bind at 1, get at 1.
  cbv beta iota zeta delta [conversation_state]. cbn [question_generator] in Hc.
  repeat case_decide; subst.
  - unfold _handle_name. plain_handler Hc.
  - unfold _handle_email. plain_handler Hc.
  - unfold _handle_phone. plain_handler Hc.
  - unfold _handle_experience.
    destruct (Re.search_digits (strip inp)) as [years_match|] eqn:Hrun;
      [|plain_handler Hc].
    destruct (int years_match) as [years|e] eqn:Hint; [plain_handler Hc|].
    apply int_raises in Hint as [-> Hlong]. run_monad.
    eexists _, _. split; [reflexivity|]. split; [exact Hc|]. split; [exact Hq|].
    right. repeat split; eauto.
  - unfold _handle_position. plain_handler Hc.
  - unfold _handle_location. plain_handler Hc.
  - unfold _handle_tech_stack. run_monad.
    destruct (Nat.leb_spec 1 (length (filter (fun tech => truthy tech = true)
                                        (map strip (split "," (strip inp))))))
      as [Hlen|Hlen];
      [|eexists _, _; split; [reflexivity|]; split; [exact Hc|];
        split; [intros Hst; cbn in Hst; congruence | left; eauto]].
    match goal with
    | |- context [_generate_next_technical_questions ?s] =>
        destruct (generate_next_asks s
                    (filter (fun tech => truthy tech = true)
                       (map strip (split "," (strip inp)))))
          as (msg & q & g' & -> & _ & Hc')
    end.
    + exact Hc.
    + unfold tech_stack_of. cbn [candidate_data]. rewrite lookup_insert_eq. reflexivity.
    + cbn. lia.
    + eexists _, _. split; [reflexivity|]. split; [exact Hc'|]. split; [|left; eauto].
      intros _. eexists. split; [|cbn; exact Hlen].
      unfold tech_stack_of. cbn. rewrite lookup_insert_eq. reflexivity.
  - destruct (Hq eq_refl) as (ts & Hts & Hi). run_monad_in Hts. run_monad_in Hi.
    unfold _handle_technical_questions. run_monad.
    destruct (d !! "tech_stack") as [v|] eqn:Hv; [|discriminate]. injection Hts as <-.
    unfold getitem at 1. destruct (lookup_lt_is_Some_2 (items v) _ Hi) as [tech ->].
    destruct (_ =? 0).
    + rewrite Hv. destruct (Nat.leb_spec (length (items v)) (i + 1)) as [Hend|Hmore].
      * unfold _complete_technical_assessment. run_monad. rewrite Hv.
        eexists _, _. split; [reflexivity|]. split; [exact Hc|]. split; [|left; eauto].
        intros Hst. cbn in Hst. congruence.
      * match goal with
        | |- context [_generate_next_technical_questions ?s] =>
            destruct (generate_next_asks s (items v)) as (msg & q & g' & -> & _ & Hc')
        end.
        -- exact Hc.
        -- unfold tech_stack_of. cbn [candidate_data]. rewrite Hv. reflexivity.
        -- cbn. lia.
        -- eexists _, _. split; [reflexivity|]. split; [exact Hc'|]. split; [|left; eauto].
           intros _. exists (items v). split; [|cbn; lia].
           unfold tech_stack_of. cbn. rewrite Hv. reflexivity.
    + match goal with
      | |- context [_generate_next_technical_questions ?s] =>
          destruct (generate_next_asks s (items v)) as (msg & q & g' & -> & _ & Hc')
      end.
      * exact Hc.
      * unfold tech_stack_of. cbn [candidate_data]. rewrite Hv. reflexivity.
      * cbn. lia.
      * eexists _, _. split; [reflexivity|]. split; [exact Hc'|]. split; [|left; eauto].
        intros _. exists (items v). split; [|cbn; lia].
        unfold tech_stack_of. cbn. rewrite Hv. reflexivity.
  - unfold _handle_fallback. run_monad.
    case_decide; eexists _, _; (split; [reflexivity|]); (split; [exact Hc|]);
      (split; [intros Hst; cbn in Hst; congruence | left; eauto]).
Qed.

End Engine.
(** ** Sessions: fields are written once *)

Section Sessions.

Import Bot Session.

Lemma feed_app xs ys self : feed (xs ++ ys) self = feed ys (feed xs self).
Proof. revert self. induction xs as [|x xs IH]; intros self; simpl; auto. Qed.

Lemma reachable_feed inputs self : Reachable self -> Reachable (feed inputs self).
Proof.
  revert self. induction inputs as [|inp rest IH]; intros self Hr; simpl; [exact Hr|].
  apply IH. constructor. exact Hr.
Qed.

Lemma step_of_call inp self : step_spec self (snd (process_input inp self)).
Proof.
  destruct (process_input inp self) as [r self'] eqn:Hrun.
  exact (process_input_step _ _ _ _ Hrun).
Qed.

Ltac absent_from_list H :=
  exfalso; revert H; apply (proj1 (bool_decide_eq_false _)); vm_compute; reflexivity.

Lemma fresh_fields_started : fresh_fields started.
Proof. intros f _. reflexivity. Qed.

Lemma fresh_fields_step self self' :
  step_spec self self' -> fresh_fields self -> fresh_fields self'.
Proof.
  unfold fresh_fields.
  intros (_ & _ & [[Hd [Hs | [_ Hs]]] | (f & nxt & v & Hstep & Hd & [Hs | [_ Hs]])]) Hfresh f' Hin;
    rewrite Hs in Hin; rewrite Hd.
  - apply Hfresh, Hin.
  - cbv in Hin. inversion Hin.
  - unfold field_step in Hstep.
    repeat case_decide; try discriminate Hstep; injection Hstep as <- <-;
      match goal with Heq : conversation_state self = _ |- _ => rewrite Heq in Hfresh end;
      cbv [pending_fields index_of fields decide] in Hin, Hfresh;
      cbn in Hin, Hfresh;
      (rewrite lookup_insert_ne;
       [apply Hfresh, list_elem_of_further, Hin | intros <-; absent_from_list Hin]).
  - cbv in Hin. inversion Hin.
Qed.

Lemma reachable_cache_ok self : Reachable self -> cache_ok (question_generator self).
Proof.
  induction 1 as [|inp self _ IH]; [apply cache_ok_init|].
  apply (step_of_call inp self), IH.
Qed.

(** A session started once keeps its index inside the tech stack. *)
Lemma reachable_quiz_ready self : Reachable self -> quiz_ready self.
Proof.
  induction 1 as [|inp self Hr IH]; [intros Hst; discriminate Hst|].
  destruct (process_input_returns inp self (reachable_cache_ok self Hr) IH)
    as (r & self' & -> & _ & Hq & _).
  exact Hq.
Qed.

Lemma reachable_returns inp self :
  Reachable self ->
  (exists msg, fst (process_input inp self) = Ok msg)
  \/ (fst (process_input inp self) = Raise ValueError
      /\ snd (process_input inp self) = self
      /\ conversation_state self = "experience"
      /\ exists years_match,
           Re.search_digits (strip inp) = Some years_match
           /\ int_max_str_digits < len years_match).
Proof.
  intros Hr.
  destruct (process_input_returns inp self (reachable_cache_ok self Hr)
              (reachable_quiz_ready self Hr))
    as (r & self' & -> & _ & _ & [[msg ->] | (-> & -> & Hrest)]).
  - left. exists msg. reflexivity.
  - right. auto.
Qed.

Lemma reachable_fresh self : Reachable self -> fresh_fields self.
Proof.
  induction 1 as [|inp self _ IH]; [apply fresh_fields_started|].
  eapply fresh_fields_step; [apply step_of_call | exact IH].
Qed.

(** A call keeps every field the record holds. *)
Lemma step_keeps_fields self self' :
  step_spec self self' -> fresh_fields self ->
  candidate_data self ⊆ candidate_data self'.
Proof.
  unfold fresh_fields.
  intros (_ & _ & [[Hd _] | (f & nxt & v & Hstep & Hd & _)]) Hfresh; rewrite Hd; [reflexivity|].
  apply insert_subseteq, Hfresh.
  unfold field_step in Hstep.
  repeat case_decide; try discriminate Hstep; injection Hstep as <- <-;
    match goal with Heq : conversation_state self = _ |- _ => rewrite Heq end;
    cbv [pending_fields index_of fields decide]; cbn; apply list_elem_of_here.
Qed.

Lemma feed_keeps inputs : forall self,
  fresh_fields self ->
  candidate_data self ⊆ candidate_data (feed inputs self)
  /\ technical_questions self `prefix_of` technical_questions (feed inputs self).
Proof.
  induction inputs as [|inp rest IH]; intros self Hfresh; simpl; [split; reflexivity|].
  pose proof (step_of_call inp self) as Hstep.
  destruct (IH (snd (process_input inp self))) as [Hd Hq].
  { eapply fresh_fields_step; eauto. }
  split.
  - etrans; [eapply step_keeps_fields; eauto | exact Hd].
  - etrans; [apply Hstep | exact Hq].
Qed.

Lemma assignments_after_assigned f inputs : forall self,
  fresh_fields self -> is_Some (candidate_data self !! f) ->
  assignments f inputs self = 0.
Proof.
  induction inputs as [|inp rest IH]; intros self Hfresh [v Hv]; simpl; [reflexivity|].
  pose proof (step_of_call inp self) as Hstep.
  pose proof (step_keeps_fields _ _ Hstep Hfresh) as Hsub.
  pose proof (lookup_weaken _ _ _ _ Hv Hsub) as Hv'.
  rewrite IH; [|eapply fresh_fields_step; eauto | eauto].
  unfold assigns. rewrite bool_decide_eq_false_2; [reflexivity|]. rewrite Hv, Hv'. auto.
Qed.

Lemma assignments_at_most_once f inputs : forall self,
  fresh_fields self -> assignments f inputs self <= 1.
Proof.
  induction inputs as [|inp rest IH]; intros self Hfresh; simpl; [lia|].
  pose proof (step_of_call inp self) as Hstep.
  pose proof (fresh_fields_step _ _ Hstep Hfresh) as Hfresh'.
  unfold assigns. case_bool_decide as Hne; [|specialize (IH _ Hfresh'); lia].
  rewrite assignments_after_assigned; [lia | exact Hfresh' |].
  destruct (candidate_data (snd (process_input inp self)) !! f) as [v'|] eqn:Hv'; [eauto|].
  exfalso. apply Hne.
  destruct (candidate_data self !! f) as [v|] eqn:Hv; [|reflexivity].
  pose proof (lookup_weaken _ _ _ _ Hv (step_keeps_fields _ _ Hstep Hfresh)). congruence.
Qed.

End Sessions.
(** ** Progress *)

Section Progress.

Import Bot Session.

Lemma get_progress_formula self :
  get_progress self = Ok (progress_formula (conversation_state self)).
Proof.
  unfold get_progress, progress_formula.
  destruct self as [g st d qs i]; cbn [conversation_state].
  unfold states. cbn [index_of].
  repeat (case_decide; [vm_compute; reflexivity |]). reflexivity.
Qed.

Lemma progress_formula_range st : (0 <= progress_formula st <= 90)%Z.
Proof.
  unfold progress_formula, states. cbn [index_of].
  repeat (case_decide; [vm_compute; split; discriminate |]). cbn. lia.
Qed.

Lemma progress_formula_step st f nxt :
  field_step st = Some (f, nxt) -> (progress_formula st <= progress_formula nxt)%Z.
Proof.
  unfold field_step. repeat case_decide; try discriminate; intros [= _ <-]; subst;
    vm_compute; discriminate.
Qed.

Lemma progress_step self self' :
  step_spec self self' ->
  (progress_formula (conversation_state self)
   <= progress_formula (conversation_state self'))%Z.
Proof.
  intros (_ & _ & [[_ [-> | [_ ->]]] | (f & nxt & v & Hstep & _ & [-> | [_ ->]])]).
  - lia.
  - apply (progress_formula_range (conversation_state self)).
  - eapply progress_formula_step, Hstep.
  - apply (progress_formula_range (conversation_state self)).
Qed.

Lemma progress_feed inputs : forall self,
  (progress_formula (conversation_state self)
   <= progress_formula (conversation_state (feed inputs self)))%Z.
Proof.
  induction inputs as [|inp rest IH]; intros self; simpl; [lia|].
  etrans; [apply (progress_step _ _ (step_of_call inp self)) | apply IH].
Qed.

End Progress.
(** ** Text: characters, stripping, digit runs, anchored matches *)

Section Text.

Lemma app_cons c s t : String c s +:+ t = String c (s +:+ t).
Proof. reflexivity. Qed.

Lemma app_nil t : "" +:+ t = t.
Proof. reflexivity. Qed.

Lemma app_assoc_s a b c : (a +:+ b) +:+ c = a +:+ (b +:+ c).
Proof. induction a as [|x a IH]; [reflexivity|]. rewrite !app_cons, IH. reflexivity. Qed.

Lemma app_empty_r s : s +:+ "" = s.
Proof. induction s as [|x s IH]; [reflexivity|]. rewrite app_cons, IH. reflexivity. Qed.

Lemma bytes_app a b :
  list_ascii_of_string (a +:+ b) = list_ascii_of_string a ++ list_ascii_of_string b.
Proof. induction a as [|x a IH]; [reflexivity|]. rewrite app_cons. cbn. rewrite IH. reflexivity. Qed.

Lemma all_bytes_app p a b : all_bytes p (a +:+ b) <-> all_bytes p a /\ all_bytes p b.
Proof. unfold all_bytes. rewrite bytes_app. apply Forall_app. Qed.

Lemma length_list_ascii_of_string s :
  length (list_ascii_of_string s) = String.length s.
Proof. induction s; cbn; auto. Qed.

(** *** The characters of a text *)

Lemma text_nil : text [] = "".
Proof. reflexivity. Qed.

Lemma text_cons u l : text (u :: l) = u +:+ text l.
Proof. reflexivity. Qed.

Lemma text_app l1 l2 : text (l1 ++ l2) = text l1 +:+ text l2.
Proof.
  induction l1 as [|u l1 IH]; [reflexivity|].
  cbn [app]. rewrite !text_cons, IH, app_assoc_s. reflexivity.
Qed.

Lemma cont_not_ascii c : is_cont c = true -> is_ascii c = false.
Proof.
  unfold is_cont, in_range, is_ascii. intros H.
  apply andb_true_iff in H as [H _]. apply N.leb_le in H.
  apply N.ltb_ge. exact H.
Qed.

Lemma chars_ascii c s : is_ascii c = true -> chars (String c s) = String c "" :: chars s.
Proof. intros H. cbn [chars]. rewrite H. reflexivity. Qed.

Lemma chars_head d r : exists t us, chars (String d r) = String d t :: us.
Proof.
  cbn [chars]. destruct (is_ascii d); [eauto|].
  destruct (chars r) as [|u us]; [eauto|]. destruct (starts_cont r); eauto.
Qed.

Lemma text_chars s : text (chars s) = s.
Proof.
  induction s as [|c s IH]; [reflexivity|]. cbn [chars].
  destruct (is_ascii c); [rewrite text_cons, IH; reflexivity|].
  destruct (chars s) as [|u us].
  - cbn in IH. subst s. reflexivity.
  - destruct (starts_cont s); rewrite !text_cons in *; rewrite ?app_cons, ?app_nil, IH;
      reflexivity.
Qed.

Lemma starts_cont_app u r : u <> "" -> starts_cont (u +:+ r) = starts_cont u.
Proof. destruct u; [congruence | reflexivity]. Qed.

Lemma character_nonempty u : character u -> u <> "".
Proof. destruct u; [contradiction | discriminate]. Qed.

Lemma chars_characters s : characters (chars s).
Proof.
  induction s as [|c s IH]; [exact I|]. cbn [chars].
  destruct (is_ascii c) eqn:Hc.
  { cbn [characters character closed]. rewrite Hc.
    split; [reflexivity|]. split; [|exact IH]. destruct (chars s); auto. }
  destruct (chars s) as [|u us] eqn:Hs.
  { cbn [characters character]. rewrite Hc. repeat split. constructor. }
  destruct s as [|d r]; [discriminate Hs|].
  destruct (chars_head d r) as (t & us' & Hhead). rewrite Hs in Hhead.
  injection Hhead as -> <-.
  cbn [characters] in IH. destruct IH as (Hu & Hadj & Hus).
  cbn [starts_cont]. destruct (is_cont d) eqn:Hd.
  - cbn [characters character]. rewrite Hc.
    pose proof (cont_not_ascii d Hd) as Hna.
    cbn [character] in Hu. rewrite Hna in Hu.
    split; [constructor; assumption|]. split; [|exact Hus].
    destruct us as [|v us]; [exact I|]. cbn [closed] in *.
    rewrite Hna in Hadj. destruct Hadj as [Hadj | Hadj]; [discriminate | auto].
  - cbn [characters character closed]. rewrite Hc.
    split; [constructor|]. split; [right; cbn; exact Hd|].
    split; [exact Hu|]. split; [exact Hadj | exact Hus].
Qed.

Lemma chars_character c : forall t r,
  is_ascii c = false -> all_bytes is_cont t -> starts_cont r = false ->
  chars (String c (t +:+ r)) = String c t :: chars r.
Proof.
  intros t. revert c. induction t as [|d t IH]; intros c r Hc Ht Hr.
  - rewrite app_nil. cbn [chars]. rewrite Hc, Hr.
    destruct (chars r) as [|u us] eqn:Hcr; [|reflexivity].
    destruct r as [|x r]; [reflexivity|].
    destruct (chars_head x r) as (t' & us' & Hx). congruence.
  - apply Forall_cons in Ht as [Hd Ht]. rewrite app_cons.
    pose proof (IH d r (cont_not_ascii d Hd) Ht Hr) as Hrec.
    cbn [chars] in Hrec |- *. rewrite Hc.
    cbn [chars] in Hrec. rewrite Hrec. cbn [starts_cont]. rewrite Hd. reflexivity.
Qed.

Lemma chars_cons u r :
  character u -> closed u = true \/ starts_cont r = false ->
  chars (u +:+ r) = u :: chars r.
Proof.
  destruct u as [|c t]; [contradiction|]. cbn [character closed].
  destruct (is_ascii c) eqn:Hc.
  - intros -> _. rewrite app_cons, app_nil. apply chars_ascii, Hc.
  - intros Ht [Hcl | Hr]; [discriminate|]. rewrite app_cons.
    apply chars_character; assumption.
Qed.

Lemma chars_text l : characters l -> chars (text l) = l.
Proof.
  induction l as [|u l IH]; [reflexivity|].
  cbn [characters]. intros (Hu & Hadj & Hl). rewrite text_cons.
  rewrite chars_cons, IH; [reflexivity | exact Hl | exact Hu |].
  destruct l as [|v l]; [right; reflexivity|].
  destruct Hadj as [Hadj | Hadj]; [left; exact Hadj | right].
  rewrite text_cons, starts_cont_app; [exact Hadj|].
  apply character_nonempty. cbn [characters] in Hl. apply Hl.
Qed.

Lemma characters_app l1 l2 : characters (l1 ++ l2) -> characters l1 /\ characters l2.
Proof.
  induction l1 as [|u l1 IH]; [cbn; auto|].
  cbn [app characters]. intros (Hu & Hadj & Hl). destruct (IH Hl) as [H1 H2].
  split; [|exact H2]. split; [exact Hu|]. split; [|exact H1].
  destruct l1 as [|v l1]; [exact I | exact Hadj].
Qed.

Lemma text_empty l : characters l -> text l = "" -> l = [].
Proof.
  destruct l as [|u l]; [reflexivity|]. cbn [characters]. intros (Hu & _) H.
  rewrite text_cons in H. destruct u; [contradiction | discriminate H].
Qed.

Lemma chars_empty s : chars s = [] <-> s = "".
Proof.
  split; [|intros ->; reflexivity].
  intros H. rewrite <- (text_chars s), H. reflexivity.
Qed.

(** The characters of a text of whole characters followed by another text. *)
Lemma chars_app_text l r :
  characters l ->
  (forall l' u, l = l' ++ [u] -> closed u = true \/ starts_cont r = false) ->
  chars (text l +:+ r) = l ++ chars r.
Proof.
  induction l as [|u l IH]; [reflexivity|].
  cbn [characters]. intros (Hu & Hadj & Hl) Hlast.
  rewrite text_cons, app_assoc_s. cbn [app].
  rewrite chars_cons, IH; [reflexivity | exact Hl | | exact Hu |].
  - intros l' v ->. apply (Hlast (u :: l') v). reflexivity.
  - destruct l as [|v l].
    + rewrite text_nil, app_nil. apply (Hlast [] u). reflexivity.
    + destruct Hadj as [Hadj | Hadj]; [left; exact Hadj | right].
      rewrite text_cons, app_assoc_s, starts_cont_app; [exact Hadj|].
      apply character_nonempty. cbn [characters] in Hl. apply Hl.
Qed.

(** An ASCII byte at the end of a text is its last character. *)
Lemma last_byte_character u w c :
  character u -> list_ascii_of_string u = w ++ [c] -> is_ascii c = true ->
  u = String c "".
Proof.
  destruct u as [|a t]; [contradiction|]. cbn [character].
  destruct (is_ascii a) eqn:Ha.
  - intros -> H _. destruct w as [|? [|? ?]]; cbn in H; congruence.
  - intros Ht H Hc. exfalso. cbn in H.
    destruct w as [|x w]; cbn in H.
    + injection H as <- _. congruence.
    + injection H as _ H. unfold all_bytes in Ht. rewrite H in Ht.
      apply Forall_app in Ht as [_ Ht]. apply Forall_cons in Ht as [Ht _].
      apply cont_not_ascii in Ht. congruence.
Qed.

Lemma last_byte_text l w c :
  characters l -> list_ascii_of_string (text l) = w ++ [c] -> is_ascii c = true ->
  exists l', l = l' ++ [String c ""].
Proof.
  intros Hl. induction l as [|u l IH] using rev_ind; [destruct w; discriminate|].
  clear IH. apply characters_app in Hl as [_ Hu]. cbn [characters] in Hu.
  destruct Hu as (Hu & _). rewrite text_app, text_cons, text_nil, app_empty_r, bytes_app.
  intros H Hc. exists l. f_equal. f_equal.
  pose proof (character_nonempty u Hu) as Hne.
  destruct (list_ascii_of_string u) as [|x bs] eqn:Hb using rev_ind.
  { destruct u; [congruence | discriminate Hb]. }
  rewrite app_assoc in H. apply app_inj_tail in H as [_ ->].
  eapply last_byte_character; eauto.
Qed.

(** *** Stripping *)

Lemma drop_spaces_split l :
  exists ws, l = ws ++ drop_spaces l /\ Forall (fun ch => isspace ch = true) ws.
Proof.
  induction l as [|ch l (ws & Hl & Hws)]; cbn [drop_spaces].
  - exists []. split; [reflexivity | constructor].
  - destruct (isspace ch) eqn:Hch.
    + exists (ch :: ws). cbn. rewrite <- Hl. split; [reflexivity | constructor; assumption].
    + exists []. split; [reflexivity | constructor].
Qed.

Lemma drop_spaces_head l ch l' : drop_spaces l = ch :: l' -> isspace ch = false.
Proof.
  induction l as [|x l IH]; cbn [drop_spaces]; [discriminate|].
  destruct (isspace x) eqn:Hx; [exact IH|]. intros [= <- _]. exact Hx.
Qed.

Lemma drop_spaces_blank l : drop_spaces l = [] <-> Forall (fun ch => isspace ch = true) l.
Proof.
  induction l as [|x l IH]; cbn [drop_spaces].
  - split; [constructor | reflexivity].
  - rewrite Forall_cons. destruct (isspace x) eqn:Hx.
    + rewrite IH. tauto.
    + split; [discriminate | intros [H _]; discriminate H].
Qed.

(** The characters [strip] keeps, with those it removes on either side. *)
Lemma stripped_parts l :
  exists a b,
    l = a ++ rev (drop_spaces (rev (drop_spaces l))) ++ b
    /\ Forall (fun ch => isspace ch = true) a
    /\ Forall (fun ch => isspace ch = true) b.
Proof.
  destruct (drop_spaces_split l) as (a & Ha & Hsa).
  destruct (drop_spaces_split (rev (drop_spaces l))) as (b & Hb & Hsb).
  exists a, (rev b). split; [|split; [exact Hsa | apply Forall_rev, Hsb]].
  rewrite Ha at 1. f_equal.
  rewrite <- (rev_involutive (drop_spaces l)) at 1. rewrite Hb at 1.
  apply rev_app_distr.
Qed.

Lemma chars_strip s :
  chars (strip s) = rev (drop_spaces (rev (drop_spaces (chars s)))).
Proof.
  unfold strip. apply chars_text.
  destruct (stripped_parts (chars s)) as (a & b & Hs & _).
  pose proof (chars_characters s) as Hc. rewrite Hs in Hc.
  apply characters_app in Hc as [_ Hc]. apply characters_app in Hc as [Hc _].
  exact Hc.
Qed.

Lemma strip_chars_split s :
  exists a b,
    chars s = a ++ chars (strip s) ++ b
    /\ Forall (fun ch => isspace ch = true) a
    /\ Forall (fun ch => isspace ch = true) b.
Proof. rewrite chars_strip. apply stripped_parts. Qed.

Lemma strip_split s :
  exists a b, s = a +:+ strip s +:+ b /\ all_chars isspace a /\ all_chars isspace b.
Proof.
  destruct (strip_chars_split s) as (a & b & Hs & Ha & Hb).
  pose proof (chars_characters s) as Hc. rewrite Hs in Hc.
  apply characters_app in Hc as [Hca Hc]. apply characters_app in Hc as [_ Hcb].
  exists (text a), (text b). split; [|split].
  - rewrite <- (text_chars s) at 1. rewrite Hs, !text_app, text_chars. reflexivity.
  - unfold all_chars. rewrite chars_text by exact Hca. exact Ha.
  - unfold all_chars. rewrite chars_text by exact Hcb. exact Hb.
Qed.

(** A text is trimmed to nothing exactly when it is all whitespace. *)
Lemma strip_blank s : strip s = "" <-> all_chars isspace s.
Proof.
  rewrite <- chars_empty, chars_strip. unfold all_chars. split.
  - intros H. apply (f_equal (@rev string)) in H. rewrite rev_involutive in H. cbn in H.
    apply drop_spaces_blank in H.
    destruct (drop_spaces_split (chars s)) as (a & Ha & Hsa).
    rewrite Ha. apply Forall_app. split; [exact Hsa|].
    apply Forall_rev in H. rewrite rev_involutive in H. exact H.
  - intros H. apply drop_spaces_blank in H. rewrite H. reflexivity.
Qed.

(** A trimmed text that is not empty starts and ends with a character that
    is no whitespace. *)
Lemma strip_last_char s l ch : chars (strip s) = l ++ [ch] -> isspace ch = false.
Proof.
  rewrite chars_strip. intros H.
  apply (f_equal (@rev string)) in H. rewrite rev_involutive, rev_app_distr in H.
  cbn in H. eapply drop_spaces_head. exact H.
Qed.

Lemma strip_first_char s ch l : chars (strip s) = ch :: l -> isspace ch = false.
Proof.
  rewrite chars_strip. intros H.
  destruct (drop_spaces (chars s)) as [|x l0] eqn:Hd; [discriminate H|].
  pose proof (drop_spaces_head _ _ _ Hd) as Hx.
  destruct (drop_spaces_split (rev (x :: l0))) as (b & Hb & _).
  apply (f_equal (@rev string)) in Hb. rewrite rev_involutive, rev_app_distr, H in Hb.
  cbn in Hb. injection Hb as -> _. exact Hx.
Qed.

Lemma strip_ends s :
  strip s <> "" ->
  (exists ch l, chars (strip s) = ch :: l /\ isspace ch = false)
  /\ (exists l ch, chars (strip s) = l ++ [ch] /\ isspace ch = false).
Proof.
  intros Hne. split.
  - destruct (chars (strip s)) as [|ch l] eqn:Hc.
    + apply chars_empty in Hc. contradiction.
    + exists ch, l. split; [reflexivity|]. eapply strip_first_char. exact Hc.
  - destruct (chars (strip s)) as [|ch l] eqn:Hc using rev_ind.
    + apply chars_empty in Hc. contradiction.
    + exists l, ch. split; [reflexivity|]. eapply strip_last_char. exact Hc.
Qed.

Lemma all_chars_strip p s : all_chars p s -> all_chars p (strip s).
Proof.
  unfold all_chars. intros H. destruct (strip_chars_split s) as (a & b & Hs & _).
  rewrite Hs in H. apply Forall_app in H as [_ H]. apply Forall_app in H as [H _].
  exact H.
Qed.

(** A trimmed text does not end in a newline. *)
Lemma strip_last_byte s w : list_ascii_of_string (strip s) <> w ++ ["010"%char].
Proof.
  intros H. rewrite <- (text_chars (strip s)) in H.
  apply last_byte_text in H as [l Hl]; [|apply chars_characters | reflexivity].
  apply strip_last_char in Hl. vm_compute in Hl. discriminate Hl.
Qed.

(** *** Anchored matches *)

Lemma anchored_lang {A} (newline : A -> bool) (body : Re.regex A) (w : list A) :
  Re.anchored newline body w = true <->
  Re.lang body w
  \/ exists w' c, w = w' ++ [c] /\ newline c = true /\ Re.lang body w'.
Proof.
  unfold Re.anchored. rewrite orb_true_iff, matches_lang.
  assert ((match rev w with
           | [] => false
           | c :: r => newline c && Re.matches body (rev r)
           end = true)
          <-> exists w' c, w = w' ++ [c] /\ newline c = true /\ Re.lang body w') as ->;
    [|tauto].
  destruct (rev w) as [|c r] eqn:Hrev.
  - split; [discriminate|]. intros (w' & c & Hw & _). rewrite Hw, rev_app_distr in Hrev.
    discriminate.
  - apply (f_equal (@rev A)) in Hrev. rewrite rev_involutive in Hrev. cbn in Hrev.
    rewrite andb_true_iff, matches_lang. split.
    + intros [Hc Hl]. eauto.
    + intros (w' & c' & Hw & Hc & Hl). rewrite Hrev in Hw.
      apply app_inj_tail in Hw as [-> ->]. auto.
Qed.

(** An anchored match is a word of the pattern, or one followed by a last
    newline. *)
Lemma match_anchored_lang body s :
  Re.match_anchored body s = true <->
  Re.lang body (list_ascii_of_string s)
  \/ exists w, list_ascii_of_string s = w ++ ["010"%char] /\ Re.lang body w.
Proof.
  unfold Re.match_anchored. rewrite anchored_lang. split.
  - intros [H | (w & c & Hw & Hc & Hl)]; [left; exact H | right].
    apply Ascii.eqb_eq in Hc. subst c. eauto.
  - intros [H | (w & Hw & Hl)]; [left; exact H | right].
    exists w, "010"%char. auto.
Qed.

Lemma match_anchored_stripped body s :
  Re.match_anchored body (strip s) = true ->
  Re.lang body (list_ascii_of_string (strip s)).
Proof.
  intros H. apply match_anchored_lang in H as [H | (w & Hw & _)]; [exact H|].
  apply strip_last_byte in Hw. contradiction.
Qed.

Lemma match_text_lang body s :
  Re.match_text body s = true <->
  Re.lang body (chars s)
  \/ exists l, chars s = l ++ [nl] /\ Re.lang body l.
Proof.
  unfold Re.match_text. rewrite anchored_lang. split.
  - intros [H | (w & c & Hw & Hc & Hl)]; [left; exact H | right].
    apply String.eqb_eq in Hc. subst c. eauto.
  - intros [H | (w & Hw & Hl)]; [left; exact H | right].
    exists w, nl. auto.
Qed.

(** On a trimmed text a match is a word of the pattern. *)
Lemma match_text_stripped body s :
  Re.match_text body (strip s) = true <-> Re.lang body (chars (strip s)).
Proof.
  rewrite match_text_lang. split; [|auto].
  intros [H | (l & Hl & _)]; [exact H|].
  apply strip_last_char in Hl. vm_compute in Hl. discriminate Hl.
Qed.

(** *** Digit runs *)

Lemma take_digits_run d post :
  digits d -> starts_without_digit post -> Re.take_digits (d ++ post) = d.
Proof.
  induction 1 as [|ch d Hch _ IH]; intros Hpost; cbn [app Re.take_digits].
  - destruct post as [|ch post]; [reflexivity|]. cbn in Hpost |- *. rewrite Hpost.
    reflexivity.
  - rewrite Hch. f_equal. apply IH, Hpost.
Qed.

Lemma search_digits_in_none l : no_digit l -> Re.search_digits_in l = None.
Proof.
  induction 1 as [|ch l Hch _ IH]; cbn [Re.search_digits_in]; [reflexivity|].
  rewrite Hch. exact IH.
Qed.

Lemma search_digits_in_run pre d post :
  no_digit pre -> d <> [] -> digits d -> starts_without_digit post ->
  Re.search_digits_in (pre ++ d ++ post) = Some d.
Proof.
  intros Hpre Hne Hd Hpost. induction Hpre as [|ch pre Hch _ IH]; cbn [app].
  - destruct d as [|ch d]; [congruence|].
    pose proof (take_digits_run _ _ Hd Hpost) as Hrun.
    apply Forall_cons in Hd as [Hch _]. cbn [app Re.search_digits_in] in *.
    rewrite Hch. f_equal. exact Hrun.
  - cbn [Re.search_digits_in]. rewrite Hch. exact IH.
Qed.

Lemma take_digits_split l :
  exists post, l = Re.take_digits l ++ post /\ digits (Re.take_digits l)
               /\ starts_without_digit post.
Proof.
  induction l as [|ch l (post & Hl & Hd & Hpost)]; cbn [Re.take_digits].
  - exists []. repeat split. constructor.
  - destruct (isdigit ch) eqn:Hch.
    + exists post. cbn [app]. rewrite <- Hl. repeat split; [constructor|]; assumption.
    + exists (ch :: l). repeat split; [constructor | exact Hch].
Qed.

(** What [search_digits_in] finds is the first run of digits. *)
Lemma search_digits_in_some l d :
  Re.search_digits_in l = Some d ->
  exists pre post,
    l = pre ++ d ++ post /\ no_digit pre /\ d <> [] /\ digits d
    /\ starts_without_digit post.
Proof.
  induction l as [|ch l IH]; cbn [Re.search_digits_in]; [discriminate|].
  destruct (isdigit ch) eqn:Hch.
  - intros [= <-]. destruct (take_digits_split (ch :: l)) as (post & Hl & Hd & Hpost).
    exists [], post. cbn [app]. repeat split; try assumption; [constructor|].
    cbn [Re.take_digits]. rewrite Hch. discriminate.
  - intros H. destruct (IH H) as (pre & post & -> & Hpre & Hne & Hd & Hpost).
    exists (ch :: pre), post. repeat split; try assumption. constructor; assumption.
Qed.

Lemma decimal_in_range blocks cp v :
  decimal_in blocks cp = Some v -> (v <= 9)%N.
Proof.
  induction blocks as [|zero blocks IH]; cbn [decimal_in]; [discriminate|].
  unfold between. destruct ((zero <=? cp)%N && (cp <=? zero + 9)%N) eqn:Hb; [|exact IH].
  intros [= <-]. apply andb_true_iff in Hb as [H1 H2].
  apply N.leb_le in H1, H2. lia.
Qed.

Lemma digit_value_range ch : (0 <= digit_value ch <= 9)%Z.
Proof.
  unfold digit_value, decimal. destruct (codepoint ch) as [cp|]; [|lia].
  destruct (decimal_in decimal_blocks cp) as [v|] eqn:Hv; [|lia].
  apply decimal_in_range in Hv. lia.
Qed.

Lemma int_of_digits_from_nonneg d : forall acc,
  (0 <= acc)%Z -> (0 <= int_of_digits_from acc d)%Z.
Proof.
  induction d as [|ch d IH]; cbn [int_of_digits_from]; intros acc Hacc; [exact Hacc|].
  apply IH. pose proof (digit_value_range ch). lia.
Qed.

Lemma number_nonneg d : (0 <= number d)%Z.
Proof. apply int_of_digits_from_nonneg. lia. Qed.

(** [int] on the text of a run of characters. *)
Lemma int_text d :
  characters d ->
  int (text d)
  = if int_max_str_digits <? length d then Raise ValueError else Ok (number d).
Proof.
  intros Hd. unfold int, len, number. rewrite chars_text by exact Hd. reflexivity.
Qed.

Lemma int_nonneg s n : int s = Ok n -> (0 <= n)%Z.
Proof.
  unfold int. destruct (_ <? _); [discriminate|]. intros [= <-].
  apply int_of_digits_from_nonneg. lia.
Qed.

(** Deciding the predicates on a given text. *)
Lemma Forall_check {A} (p : A -> bool) (l : list A) :
  forallb p l = true -> Forall (fun x => p x = true) l.
Proof.
  induction l as [|x l IH]; cbn [forallb]; intros H; constructor;
    apply andb_true_iff in H as [Hx Hl]; [exact Hx | exact (IH Hl)].
Qed.

Lemma no_digit_check l : forallb (fun ch => negb (isdigit ch)) l = true -> no_digit l.
Proof.
  intros H. apply Forall_check in H. unfold no_digit.
  eapply Forall_impl; [exact H|]. intros ch Hch. apply negb_true_iff, Hch.
Qed.

Lemma digits_check l : forallb isdigit l = true -> digits l.
Proof. apply Forall_check. Qed.

Lemma all_chars_check p s : forallb p (chars s) = true -> all_chars p s.
Proof. apply Forall_check. Qed.

Lemma all_chars_refute p s : forallb p (chars s) = false -> ~ all_chars p s.
Proof.
  unfold all_chars. intros H Hall.
  assert (forallb p (chars s) = true) as Ht; [|congruence].
  clear H. induction Hall as [|ch l Hch _ IH]; [reflexivity|].
  cbn [forallb]. rewrite Hch, IH. reflexivity.
Qed.

Lemma all_bytes_check p s : forallb p (list_ascii_of_string s) = true -> all_bytes p s.
Proof. apply Forall_check. Qed.

End Text.
(** ** The handlers of the phone and experience states *)

Section Handlers.

Import Bot Session.

Lemma process_input_blank user_input self :
  truthy (strip user_input) = false ->
  process_input user_input self = (Ok no_input_message, self).
Proof. intros H. unfold process_input. rewrite H. reflexivity. Qed.

Lemma process_input_phone user_input self :
  conversation_state self = "phone" -> truthy (strip user_input) = true ->
  process_input user_input self = _handle_phone (strip user_input) self.
Proof.
  intros Hst H. unfold process_input. rewrite H. cbn [negb].
  unfold bind at 1, get at 1. rewrite Hst. reflexivity.
Qed.

Lemma process_input_experience user_input self :
  conversation_state self = "experience" -> truthy (strip user_input) = true ->
  process_input user_input self = _handle_experience (strip user_input) self.
Proof.
  intros Hst H. unfold process_input. rewrite H. cbn [negb].
  unfold bind at 1, get at 1. rewrite Hst. reflexivity.
Qed.

Lemma process_input_technical user_input self :
  conversation_state self = "technical_questions" -> truthy (strip user_input) = true ->
  process_input user_input self = _handle_technical_questions "" self.
Proof.
  intros Hst H. unfold process_input. rewrite H. cbn [negb].
  unfold bind at 1, get at 1. rewrite Hst. reflexivity.
Qed.

Lemma one_byte_one_of cs ch :
  one_byte (Re.one_of cs) ch = true <->
  exists c, ch = String c "" /\ c ∈ list_ascii_of_string cs.
Proof.
  unfold one_byte, Re.one_of. destruct ch as [|c [|? ?]].
  - split; [discriminate | intros (c & H & _); discriminate H].
  - rewrite existsb_exists. split.
    + intros (x & Hin & Hx). apply Ascii.eqb_eq in Hx. subst x.
      exists c. split; [reflexivity | apply list_elem_of_In, Hin].
    + intros (x & [= <-] & Hin). exists c.
      split; [apply list_elem_of_In, Hin | apply Ascii.eqb_refl].
  - split; [discriminate | intros (c' & H & _); discriminate H].
Qed.

Lemma phone_class_chars ch :
  phone_class ch = true <->
  isdigit ch = true \/ isspace ch = true \/ ch ∈ ["-"; "("; ")"; "."].
Proof.
  unfold phone_class. rewrite !orb_true_iff, one_byte_one_of.
  cbn [list_ascii_of_string]. rewrite !elem_of_cons, elem_of_nil.
  split.
  - intros [[H | H] | (c & -> & Hc)]; [auto | auto |].
    right; right. rewrite !elem_of_cons, elem_of_nil in Hc.
    destruct Hc as [-> | [-> | [-> | [-> | []]]]]; auto.
  - intros [H | [H | H]]; [auto | auto |]. right.
    destruct H as [-> | [-> | [-> | [-> | []]]]]; eexists; (split; [reflexivity|]);
      rewrite !elem_of_cons; auto 6.
Qed.

Lemma name_class_chars ch :
  name_class ch = true <->
  (exists c, ch = String c "" /\ isalpha c = true) \/ isspace ch = true.
Proof.
  unfold name_class. rewrite orb_true_iff. unfold one_byte.
  destruct ch as [|c [|? ?]].
  - split; (intros [H | H]; [|right; exact H]);
      [discriminate H | destruct H as (c & H & _); discriminate H].
  - split; (intros [H | H]; [left | right; exact H]).
    + exists c. auto.
    + destruct H as (c' & [= <-] & H). exact H.
  - split; (intros [H | H]; [|right; exact H]);
      [discriminate H | destruct H as (c' & H & _); discriminate H].
Qed.

Lemma one_byte_chr c ch : one_byte (Re.chr c) ch = true <-> ch = String c "".
Proof.
  unfold one_byte, Re.chr. destruct ch as [|x [|? ?]]; try (split; discriminate).
  rewrite Ascii.eqb_eq. split; [intros ->; reflexivity | intros [= ->]; reflexivity].
Qed.

(** The words of the phone pattern: an optional [+], then 8 to 20
    characters of its class. *)
Lemma phone_pattern_lang w :
  Re.lang phone_pattern w <->
  exists body, (w = body \/ w = "+" :: body)
               /\ 8 <= length body <= 20
               /\ Forall (fun ch => phone_class ch = true) body.
Proof.
  unfold phone_pattern. split.
  - intros (u & v & -> & Hu & Hv).
    apply (range_cls_lang phone_class 8 20 v ltac:(lia)) in Hv.
    exists v. split; [|exact Hv].
    destruct Hu as [-> | (c & -> & Hc)]; [left; reflexivity|].
    apply one_byte_chr in Hc. subst c. right. reflexivity.
  - intros (body & Hw & Hbody).
    apply (range_cls_lang phone_class 8 20 body ltac:(lia)) in Hbody.
    destruct Hw as [-> | ->].
    + exists [], body. repeat split; [left; reflexivity | exact Hbody].
    + exists ["+"], body. repeat split; [|exact Hbody].
      right. exists "+". split; reflexivity.
Qed.

Lemma accepted_phone user_input :
  Re.match_text phone_pattern (strip user_input) = true ->
  (exists body, (strip user_input = body \/ strip user_input = String "+" body)
                /\ 8 <= len body <= 20
                /\ all_chars phone_class body)
  /\ 8 <= len (strip user_input) <= 21.
Proof.
  intros H. apply match_text_stripped, phone_pattern_lang in H
    as (body & Hw & Hlen & Hall).
  pose proof (chars_characters (strip user_input)) as Hc.
  assert (characters body) as Hbody.
  { destruct Hw as [Hw | Hw]; rewrite Hw in Hc; [exact Hc|].
    apply (characters_app ["+"] body) in Hc. apply Hc. }
  split.
  - exists (text body). unfold len, all_chars. rewrite chars_text by exact Hbody.
    split; [|split; [exact Hlen | exact Hall]].
    rewrite <- (text_chars (strip user_input)).
    destruct Hw as [-> | ->]; [left | right]; reflexivity.
  - unfold len. destruct Hw as [-> | ->]; cbn [length]; lia.
Qed.

(** In state [phone] the state advances only over an accepted number. *)
Lemma phone_advance self user_input r self' :
  conversation_state self = "phone" ->
  process_input user_input self = (r, self') ->
  conversation_state self' = "experience" ->
  Re.match_text phone_pattern (strip user_input) = true
  /\ self' = set_conversation_state "experience"
               (set_candidate_data "phone" (VStr (strip user_input)) self).
Proof.
  intros Hst Hrun Hst'.
  destruct (truthy (strip user_input)) eqn:Ht.
  - rewrite process_input_phone in Hrun by assumption.
    unfold _handle_phone, bind, modify, ret in Hrun.
    destruct (Re.match_text _ _).
    + injection Hrun as _ <-. auto.
    + injection Hrun as _ <-. congruence.
  - rewrite process_input_blank in Hrun by assumption.
    injection Hrun as _ <-. congruence.
Qed.

(** In state [experience]: no digit, no change. *)
Lemma experience_without_digits self user_input :
  conversation_state self = "experience" ->
  no_digit (chars (strip user_input)) ->
  exists msg, process_input user_input self = (Ok msg, self).
Proof.
  intros Hst Hno. destruct (truthy (strip user_input)) eqn:Ht.
  - rewrite process_input_experience by assumption.
    unfold _handle_experience, Re.search_digits.
    rewrite (search_digits_in_none _ Hno). eexists. reflexivity.
  - rewrite process_input_blank by assumption. eexists. reflexivity.
Qed.

(** In state [experience]: the first run of digits decides. *)
Lemma experience_with_digits self user_input pre d post :
  conversation_state self = "experience" ->
  chars (strip user_input) = pre ++ d ++ post ->
  no_digit pre -> d <> [] -> digits d -> starts_without_digit post ->
  process_input user_input self
  = _handle_experience (strip user_input) self
  /\ Re.search_digits (strip user_input) = Some (text d)
  /\ int (text d)
     = if int_max_str_digits <? length d then Raise ValueError else Ok (number d).
Proof.
  intros Hst Hsplit Hpre Hne Hd Hpost.
  assert (truthy (strip user_input) = true) as Ht.
  { apply truthy_true. intros Hempty. rewrite Hempty in Hsplit. cbn in Hsplit.
    destruct pre; [|discriminate]. destruct d; [congruence | discriminate]. }
  split; [apply process_input_experience; assumption|]. split.
  - unfold Re.search_digits. rewrite Hsplit, (search_digits_in_run pre d post) by assumption.
    reflexivity.
  - apply int_text. pose proof (chars_characters (strip user_input)) as Hc.
    rewrite Hsplit in Hc. apply characters_app in Hc as [_ Hc].
    apply characters_app in Hc as [Hc _]. exact Hc.
Qed.

Lemma experience_outcome self user_input pre d post :
  conversation_state self = "experience" ->
  chars (strip user_input) = pre ++ d ++ post ->
  no_digit pre -> d <> [] -> digits d -> starts_without_digit post ->
  (0 <= number d)%Z
  /\ (length d <= int_max_str_digits -> (number d <= 50)%Z ->
      exists msg,
        process_input user_input self
        = (Ok msg, set_conversation_state "position"
                     (set_candidate_data "experience"
                        (VStr (str_of_int (number d) +:+ " years")) self)))
  /\ (length d <= int_max_str_digits -> (50 < number d)%Z ->
      exists msg, process_input user_input self = (Ok msg, self))
  /\ (int_max_str_digits < length d ->
      process_input user_input self = (Raise ValueError, self)).
Proof.
  intros Hst Hsplit Hpre Hne Hd Hpost.
  destruct (experience_with_digits self _ _ _ _ Hst Hsplit Hpre Hne Hd Hpost)
    as (-> & Hrun & Hint).
  pose proof (number_nonneg d) as Hnn.
  unfold _handle_experience. rewrite Hrun, Hint.
  destruct (int_max_str_digits <? length d) eqn:Hlim.
  - apply Nat.ltb_lt in Hlim. split; [exact Hnn|].
    split; [intros; lia|]. split; [intros; lia|]. intros _. reflexivity.
  - apply Nat.ltb_ge in Hlim. split; [exact Hnn|].
    split; [|split; [|intros; lia]]; intros _ Hr; unfold bind at 1, lift at 1;
      cbv beta iota.
    + rewrite (proj2 (Z.leb_le 0 (number d)) Hnn). rewrite (proj2 (Z.leb_le (number d) 50) Hr).
      eexists. reflexivity.
    + rewrite (proj2 (Z.leb_gt (number d) 50) Hr), andb_false_r. eexists. reflexivity.
Qed.

(** Non-blank answers in state [technical_questions] act as [answered]. *)
Lemma feed_answers answers : forall self,
  Forall (fun a => strip a <> "") answers ->
  (forall k, k < length answers ->
     conversation_state (Nat.iter k answered self) = "technical_questions") ->
  feed answers self = Nat.iter (length answers) answered self.
Proof.
  induction answers as [|a rest IH]; intros self Hall Hst; [reflexivity|].
  inversion Hall as [|? ? Ha Hrest]; subst. cbn [feed length].
  rewrite process_input_technical;
    [|apply (Hst 0); cbn; lia | apply truthy_true, Ha].
  fold (answered self). rewrite IH; [|exact Hrest|].
  - symmetry. apply Nat.iter_succ_r.
  - intros k Hk. rewrite <- Nat.iter_succ_r. apply Hst. cbn. lia.
Qed.

Lemma last_response_snoc front a : forall self,
  last_response (front ++ [a]) self = Some (fst (process_input a (feed front self))).
Proof.
  induction front as [|x front IH]; intros self; [reflexivity|].
  cbn [app feed]. rewrite <- IH. cbn [last_response].
  destruct (front ++ [a]) eqn:Hf; [destruct front; discriminate | reflexivity].
Qed.

End Handlers.
(** ** The validation of a candidate record *)

Section Validation.

Import Bot.

Lemma plus_cls_lang {A} (p : A -> bool) (w : list A) :
  Re.lang (Re.Plus (Re.Cls p)) w <-> w <> [] /\ Forall (fun c => p c = true) w.
Proof.
  unfold Re.Plus. split.
  - intros (u & v & -> & (c & -> & Hc) & Hv). apply star_cls_lang in Hv.
    split; [discriminate | constructor; assumption].
  - intros [Hne Hall]. destruct w as [|c w]; [congruence|].
    inversion Hall; subst. exists [c], w.
    split; [reflexivity|]. split; [exists c; auto|].
    apply star_cls_lang. assumption.
Qed.

Lemma email_pattern_lang w : Re.lang email_pattern w <-> email_shape w.
Proof.
  unfold email_pattern, email_shape. split.
  - intros (local & rest1 & -> & Hlocal & at_sign & rest2 & -> & (c1 & -> & Hat)
            & domain & rest3 & -> & Hdomain & dot & tld & -> & (c2 & -> & Hdot) & Htld).
    apply plus_cls_lang in Hlocal as [? ?], Hdomain as [? ?].
    apply atleast_cls_lang in Htld as [? ?].
    apply Ascii.eqb_eq in Hat, Hdot. subst c1 c2.
    exists local, domain, tld. repeat split; assumption.
  - intros (local & domain & tld & -> & ? & ? & ? & ? & ? & ?).
    exists local, ("@"%char :: domain ++ "."%char :: tld).
    split; [reflexivity|]. split; [apply plus_cls_lang; auto|].
    exists ["@"%char], (domain ++ "."%char :: tld).
    split; [reflexivity|]. split; [exists "@"%char; auto|].
    exists domain, ("."%char :: tld).
    split; [reflexivity|]. split; [apply plus_cls_lang; auto|].
    exists ["."%char], tld.
    split; [reflexivity|]. split; [exists "."%char; auto|].
    apply atleast_cls_lang. auto.
Qed.

(** What [re.match] accepts for the email pattern: a word of that shape,
    or one followed by a last newline. *)
Lemma email_match_shape e :
  Re.match_anchored email_pattern e = true <->
  email_shape (list_ascii_of_string e)
  \/ exists w, list_ascii_of_string e = w ++ ["010"%char] /\ email_shape w.
Proof.
  rewrite match_anchored_lang, email_pattern_lang.
  split; (intros [H | (w & Hw & H)]; [left; exact H | right; exists w; split; [exact Hw|]]);
    apply email_pattern_lang; exact H.
Qed.

Lemma email_match_nonempty e : Re.match_anchored email_pattern e = true -> e <> "".
Proof. intros H ->. vm_compute in H. discriminate. Qed.

Lemma validate_candidate_data_spec (data : gmap string value) :
  Db._validate_candidate_data data = Ok true <->
  (exists n, data !! "name" = Some n /\ value_truthy n = true)
  /\ (exists e, data !! "email" = Some (VStr e) /\ e <> ""
                /\ Re.match_anchored email_pattern e = true).
Proof.
  unfold Db._validate_candidate_data. cbn [Db.required_present].
  destruct (data !! "name") as [n|].
  2: { cbn. split; [discriminate | intros [(? & [=] & _) _]]. }
  destruct (value_truthy n) eqn:Hn.
  2: { cbn. split; [discriminate | intros [(? & [= <-] & Hn') _]; congruence]. }
  destruct (data !! "email") as [v|].
  2: { cbn. split; [discriminate | intros [_ (? & [=] & _)]]. }
  destruct (value_truthy v) eqn:Hv.
  2: { cbn. split; [discriminate|]. intros [_ (e & [= ->] & He & _)].
       cbn in Hv. apply truthy_true in He. congruence. }
  cbn [negb]. destruct v as [e|l]; cbn [Db.re_match_email].
  - destruct (Re.match_anchored email_pattern e) eqn:Hm; cbn [negb].
    + split; [intros _ | reflexivity]. split; [eauto|].
      exists e. split; [reflexivity|]. split; [|exact Hm].
      apply truthy_true. exact Hv.
    + split; [discriminate | intros [_ (e' & [= <-] & _ & Hm')]; congruence].
  - split; [discriminate | intros [_ (e & [=] & _)]].
Qed.

Section Store.

Variable hash : string -> Z.
Variable str_of_list : list string -> string.
Variable utcnow : Z.
Variable db_raises : Db.db_op -> list Db.Candidate -> bool.

Local Abbreviation save := (Db.save_candidate_data hash str_of_list utcnow db_raises).

(** A record that fails the validation is refused and nothing is stored. *)
Lemma save_refuses_invalid data session :
  Db._validate_candidate_data data <> Ok true ->
  exists session',
    save data session = (Ok false, session')
    /\ Db.stored session' = Db.stored session
    /\ (session' = session \/ Db.staged session' = Db.stored session).
Proof.
  intros Hv. unfold Db.save_candidate_data, Db.try_except, bind, lift.
  destruct (Db._validate_candidate_data data) as [[|]|e]; [congruence | |].
  - exists session. cbn. auto.
  - eexists. cbn. split; [reflexivity|]. cbn. auto.
Qed.

(** [save_candidate_data] returns [True] only for a validated record, and
    never raises. *)
Lemma save_true_validated data session session' :
  save data session = (Ok true, session') ->
  Db._validate_candidate_data data = Ok true.
Proof.
  unfold Db.save_candidate_data, Db.try_except, bind, lift.
  destruct (Db._validate_candidate_data data) as [[|]|e]; [reflexivity | |];
    cbn; discriminate.
Qed.

Lemma save_never_raises data session e :
  fst (save data session) <> Raise e.
Proof.
  unfold Db.save_candidate_data, Db.try_except.
  destruct (bind _ _ session) as [[b|e'] s']; cbn; discriminate.
Qed.

(** A validated record is saved whenever the database raises nothing. *)
Lemma save_accepts_valid data session :
  (forall op rows, db_raises op rows = false) ->
  Db._validate_candidate_data data = Ok true ->
  exists session', save data session = (Ok true, session').
Proof.
  intros Hdb Hv.
  unfold Db.save_candidate_data. unfold Db.try_except at 1. unfold bind at 1, lift.
  rewrite Hv. cbn [negb].
  repeat first
    [ rewrite Hdb
    | progress cbv beta iota zeta delta
        [Db.try_except Db.query_first Db.commit Db.stage Db._cleanup_old_data
         Db.guard Db.rollback bind lift get modify ret Db.staged Db.stored]
    | match goal with
      | |- context [match head ?l with _ => _ end] => destruct (head l)
      | |- context [if 0 <? ?n then _ else _] => destruct (0 <? n)
      end ];
    eexists; reflexivity.
Qed.

End Store.

End Validation.
(** * The claims of the specification *)

Section Claims.

Import Bot Session.






(** C6: over every sequence of [process_input] calls on a session started
    once, each field of the record is assigned by at most one call, a field
    the record holds keeps its value in every later session state, and the
    asked questions of a session state are a prefix of those of every later
    one.  A call returns a response, or, in state [experience] on a first
    run of more than 4300 digits, raises the [ValueError] of [int] and
    leaves the session as it is. *)
Theorem fields_assigned_once_questions_appended (inputs later : list string) (f : string) :
  let self := feed inputs started in
  let self' := feed later self in
  assignments f (inputs ++ later) started <= 1
  /\ (forall v, candidate_data self !! f = Some v -> candidate_data self' !! f = Some v)
  /\ technical_questions self `prefix_of` technical_questions self'
  /\ (forall inp,
        (exists msg, fst (process_input inp self) = Ok msg)
        \/ (fst (process_input inp self) = Raise ValueError
            /\ snd (process_input inp self) = self
            /\ conversation_state self = "experience"
            /\ exists years_match,
                 Re.search_digits (strip inp) = Some years_match
                 /\ int_max_str_digits < len years_match)).
Proof.
  cbv zeta.
  assert (Reachable (feed inputs started)) as Hreach
    by apply reachable_feed, reach_start.
  destruct (feed_keeps later _ (reachable_fresh _ Hreach)) as [Hd Hq].
  split; [|split; [|split]].
  - apply assignments_at_most_once, fresh_fields_started.
  - intros v Hv. eapply lookup_weaken; eauto.
  - exact Hq.
  - intros inp. apply reachable_returns, Hreach.
Qed.

Lemma fields_assigned_once_questions_appended_witness :
  candidate_data (feed ["Grace Hopper"; "grace@navy.mil"] (feed ["Jane Doe"] started))
    !! "name" = Some (VStr "Jane Doe").
Proof.
  exact (proj1 (proj2
    (fields_assigned_once_questions_appended
       ["Jane Doe"] ["Grace Hopper"; "grace@navy.mil"] "name"))
    (VStr "Jane Doe") eq_refl).
Defined.

(** C7, as stated, fails: progress is 10 after [start_conversation] and 0
    after the [end_conversation] that follows it. *)
Lemma progress_falls_at_end_conversation : ~ progress_never_falls.
Proof.
  intros H. specialize (H [Start] End). vm_compute in H. apply H. reflexivity.
Qed.

(** C7, amended: [get_progress] returns [floor(100 * index / 10)] for a
    state of the ten-state list and 0 for any other state, [ended] among
    them, always within [0, 100]; it never falls across [process_input]
    calls; [start_conversation] sets it to 10 and [end_conversation] to 0. *)
Theorem progress_formula_and_monotony (self : TalentScoutChatbot) (inputs : list string) :
  get_progress self = Ok (progress_formula (conversation_state self))
  /\ (0 <= progress_formula (conversation_state self) <= 100)%Z
  /\ (progress self <= progress (feed inputs self))%Z
  /\ get_progress (snd (start_conversation self)) = Ok 10%Z
  /\ get_progress (snd (end_conversation self)) = Ok 0%Z.
Proof.
  split; [apply get_progress_formula|]. split.
  { pose proof (progress_formula_range (conversation_state self)). lia. }
  split; [|split].
  - unfold progress. rewrite !get_progress_formula. apply progress_feed.
  - rewrite get_progress_formula. reflexivity.
  - rewrite get_progress_formula. reflexivity.
Qed.

(** C8, as stated, fails: the reply to an input after [end_conversation] is
    not the message of a completed screening. *)
Lemma reply_after_end_is_not_the_completed_message :
  fst (process_input "hello" (snd (end_conversation started))) <> Ok completed_message.
Proof. vm_compute. discriminate. Qed.

(** C8, amended: [end_conversation] sets the state to [ended], changes
    nothing else and returns a non-empty farewell; in [ended], as in every
    state without a handler of its own, [process_input] leaves the whole
    session as it is and replies with the no-input message to blank input,
    with the completed-screening message in state [completed], and with the
    not-understood message otherwise. *)
Theorem end_conversation_and_fallback
    (self : TalentScoutChatbot) (user_input st : string) :
  st ∉ handled_states ->
  (exists farewell,
      end_conversation self = (Ok farewell, set_conversation_state "ended" self)
      /\ farewell <> "")
  /\ (let ended := set_conversation_state "ended" self in
      process_input user_input ended
      = (Ok (if truthy (strip user_input) then not_understood_message
             else no_input_message), ended))
  /\ (let idle := set_conversation_state st self in
      process_input user_input idle
      = (Ok (if truthy (strip user_input)
             then if decide (st = "completed") then completed_message
                  else not_understood_message
             else no_input_message), idle)).
Proof.
  intros Hst.
  assert (forall st', st' ∉ handled_states ->
            process_input user_input (set_conversation_state st' self)
            = (Ok (if truthy (strip user_input)
                   then if decide (st' = "completed") then completed_message
                        else not_understood_message
                   else no_input_message), set_conversation_state st' self)) as Hfall.
  { intros st' Hst'. unfold process_input.
    destruct (truthy (strip user_input)); cbn [negb]; [|reflexivity].
    unfold bind at 1, get at 1. cbn [conversation_state set_conversation_state].
    repeat (case_decide;
            [exfalso; apply Hst'; subst st';
             apply (proj1 (bool_decide_spec _)); vm_compute; exact I |]).
    unfold _handle_fallback, bind, get, ret.
    cbn [conversation_state set_conversation_state].
    destruct (decide (st' = "completed")); reflexivity. }
  split; [|split].
  - unfold end_conversation, bind, modify, get, ret. eexists. split; [reflexivity|].
    destruct (dict_truthy _); discriminate.
  - cbv zeta. rewrite (Hfall "ended").
    + destruct (truthy _); reflexivity.
    + apply (proj1 (bool_decide_eq_false _)). vm_compute. reflexivity.
  - apply Hfall, Hst.
Qed.

Lemma end_conversation_and_fallback_witness :
  process_input "anything else?" (set_conversation_state "completed" started)
  = (Ok completed_message, set_conversation_state "completed" started).
Proof.
  exact (proj2 (proj2 (end_conversation_and_fallback started "anything else?" "completed"
                         ltac:(apply (proj1 (bool_decide_eq_false _)); vm_compute;
                               reflexivity)))).
Defined.

(** C10: [get_progress] never returns more than 90: it is 90 in state
    [completed], the last of the ten states, and 100 is never returned. *)
Theorem progress_at_most_90 (self : TalentScoutChatbot) :
  (exists p, get_progress self = Ok p /\ (p <= 90)%Z /\ p <> 100%Z)
  /\ get_progress (set_conversation_state "completed" self) = Ok 90%Z
  /\ index_of "completed" states = Some 9
  /\ length states = 10.
Proof.
  split; [|split; [|split; reflexivity]].
  - exists (progress_formula (conversation_state self)).
    pose proof (progress_formula_range (conversation_state self)).
    split; [apply get_progress_formula | lia].
  - rewrite get_progress_formula. reflexivity.
Qed.

End Claims.
Section ClaimsOfHandlers.

Import Bot Session.

(** C3: the end-to-end scenario.  After the seven profile inputs the state
    is [technical_questions], one question has been asked and the response
    carries the banner for Python; six further non-blank inputs, whatever
    they are, keep the state at [technical_questions] until the sixth, which
    moves it to [completed] with a summary naming Python and SQL. *)
Theorem end_to_end_python_sql (answers : list string) :
  length answers = 6 ->
  Forall (fun a => strip a <> "") answers ->
  let asked := feed profile_inputs started in
  conversation_state asked = "technical_questions"
  /\ length (technical_questions asked) = 1
  /\ (exists msg, last_response profile_inputs started = Some (Ok msg)
                  /\ contains "Technical Assessment: Python" msg = true)
  /\ (forall k, k < 6 ->
        conversation_state (feed (take k answers) asked) = "technical_questions")
  /\ conversation_state (feed answers asked) = "completed"
  /\ (exists summary, last_response answers asked = Some (Ok summary)
                      /\ contains "Python" summary = true
                      /\ contains "SQL" summary = true).
Proof.
  intros Hlen Hall asked.
  assert (forall k, k < 6 ->
            conversation_state (Nat.iter k answered asked) = "technical_questions") as Hst.
  { intros k Hk. do 6 (destruct k as [|k]; [vm_compute; reflexivity|]). lia. }
  split; [vm_compute; reflexivity|].
  split; [vm_compute; reflexivity|].
  split; [eexists; split; vm_compute; reflexivity|].
  split; [|split].
  - intros k Hk. rewrite feed_answers.
    + apply Hst. rewrite length_take. lia.
    + apply Forall_take, Hall.
    + intros j Hj. apply Hst. rewrite length_take in Hj. lia.
  - rewrite feed_answers; [|exact Hall | rewrite Hlen; exact Hst].
    rewrite Hlen. vm_compute. reflexivity.
  - rewrite <- (take_drop 5 answers) in Hall |- *.
    apply Forall_app in Hall as [Hfront Hlast].
    assert (length (drop 5 answers) = 1) as Hone by (rewrite length_drop; lia).
    destruct (drop 5 answers) as [|a [|? ?]]; try discriminate Hone.
    inversion Hlast as [|? ? Ha _]; subst.
    rewrite last_response_snoc, feed_answers;
      [|exact Hfront | intros k Hk; apply Hst; rewrite length_take in Hk; lia].
    rewrite process_input_technical;
      [|rewrite length_take, Hlen; vm_compute; reflexivity | apply truthy_true, Ha].
    rewrite length_take, Hlen.
    eexists. split; [vm_compute; reflexivity|]. split; vm_compute; reflexivity.
Qed.

Lemma end_to_end_python_sql_witness :
  conversation_state
    (feed ["lists are mutable"; "with a wrapper"; "profile first";
           "unmatched rows"; "no redundancy"; "row locks"]
       (feed profile_inputs started)) = "completed".
Proof.
  exact (proj1 (proj2 (proj2 (proj2 (proj2
    (end_to_end_python_sql
       ["lists are mutable"; "with a wrapper"; "profile first";
        "unmatched rows"; "no redundancy"; "row locks"]
       eq_refl
       ltac:(repeat constructor; vm_compute; discriminate))))))).
Defined.

(** C4, as stated, fails: a [+] followed by twenty digits is accepted in
    state [phone] and stored, and it has 21 characters. *)
Lemma phone_of_21_characters_is_accepted : ~ accepted_phone_within_8_20.
Proof.
  intros H.
  destruct (H (feed ["Jane Doe"; "jane@x.com"] started)
              (snd (process_input "+12345678901234567890"
                      (feed ["Jane Doe"; "jane@x.com"] started)))
              "+12345678901234567890"
              (fst (process_input "+12345678901234567890"
                      (feed ["Jane Doe"; "jane@x.com"] started))))
    as (phone & Hphone & Hlen & _).
  - vm_compute. reflexivity.
  - apply surjective_pairing.
  - vm_compute. reflexivity.
  - vm_compute in Hphone. injection Hphone as <-. vm_compute in Hlen. lia.
Qed.

(** C4, amended: a phone number accepted in state [phone] is the trimmed
    input; it is an optional leading [+] followed by 8 to 20 characters,
    each a decimal digit, a whitespace character, or one of [-], [(], [)]
    and [.]; so it has 8 to 21 characters. *)
Theorem accepted_phone_shape
    (self self' : TalentScoutChatbot) (user_input : string) (r : result string) :
  conversation_state self = "phone" ->
  process_input user_input self = (r, self') ->
  conversation_state self' = "experience" ->
  candidate_data self' !! "phone" = Some (VStr (strip user_input))
  /\ (exists body,
         (strip user_input = body \/ strip user_input = String "+" body)
         /\ 8 <= len body <= 20
         /\ all_chars phone_class body)
  /\ 8 <= len (strip user_input) <= 21
  /\ (forall ch, phone_class ch = true <->
                 isdigit ch = true \/ isspace ch = true \/ ch ∈ ["-"; "("; ")"; "."]).
Proof.
  intros Hst Hrun Hst'.
  destruct (phone_advance _ _ _ _ Hst Hrun Hst') as [Hmatch ->].
  destruct (accepted_phone _ Hmatch) as [Hbody Hlen].
  split; [apply lookup_insert_eq|]. split; [exact Hbody|]. split; [exact Hlen|].
  apply phone_class_chars.
Qed.

Lemma accepted_phone_shape_witness :
  candidate_data
    (snd (process_input ("+1" +:+ no_break_space +:+ "555 000 1111")
            (feed ["Jane Doe"; "jane@x.com"] started))) !! "phone"
  = Some (VStr (strip ("+1" +:+ no_break_space +:+ "555 000 1111")))
  /\ 8 <= len (strip ("+1" +:+ no_break_space +:+ "555 000 1111")) <= 21.
Proof.
  exact (let H :=
           accepted_phone_shape
             (feed ["Jane Doe"; "jane@x.com"] started)
             (snd (process_input ("+1" +:+ no_break_space +:+ "555 000 1111")
                     (feed ["Jane Doe"; "jane@x.com"] started)))
             ("+1" +:+ no_break_space +:+ "555 000 1111")
             (fst (process_input ("+1" +:+ no_break_space +:+ "555 000 1111")
                     (feed ["Jane Doe"; "jane@x.com"] started)))
             ltac:(vm_compute; reflexivity)
             ltac:(apply surjective_pairing)
             ltac:(vm_compute; reflexivity) in
         conj (proj1 H) (proj1 (proj2 (proj2 H)))).
Defined.

(** C5: in state [experience] the first run of decimal digits of the
    trimmed input decides.  Without a digit the session stays as it is.
    With a first run of at most 4300 digits that reads as the number [n]:
    for [n] up to 50 the field [experience] becomes ["<n> years"] and the
    state [position]; for [n] above 50 the session stays as it is.  On a
    first run of more than 4300 digits [int] raises [ValueError], which
    [process_input] lets through, whatever number the run reads as: so on
    4301 zeros, which read as 0, nothing is stored.  The three inputs of the
    specification are instances of the first cases. *)
Theorem experience_from_first_digit_run
    (self : TalentScoutChatbot) (user_input : string) (pre d post : list string) :
  conversation_state self = "experience" ->
  (no_digit (chars (strip user_input)) ->
   exists msg, process_input user_input self = (Ok msg, self))
  /\ (chars (strip user_input) = pre ++ d ++ post ->
      no_digit pre -> d <> [] -> digits d -> starts_without_digit post ->
      (0 <= number d)%Z
      /\ (length d <= 4300 -> (number d <= 50)%Z ->
          exists msg self',
            process_input user_input self = (Ok msg, self')
            /\ candidate_data self' !! "experience"
               = Some (VStr (str_of_int (number d) +:+ " years"))
            /\ conversation_state self' = "position"
            /\ self' = set_conversation_state "position"
                         (set_candidate_data "experience"
                            (VStr (str_of_int (number d) +:+ " years")) self))
      /\ (length d <= 4300 -> (50 < number d)%Z ->
          exists msg, process_input user_input self = (Ok msg, self))
      /\ (4300 < length d -> process_input user_input self = (Raise ValueError, self)))
  /\ (exists msg self',
         process_input "I have 7 years in backend" self = (Ok msg, self')
         /\ candidate_data self' !! "experience" = Some (VStr "7 years")
         /\ conversation_state self' = "position")
  /\ (exists msg, process_input "no experience" self = (Ok msg, self))
  /\ (exists msg, process_input "70" self = (Ok msg, self))
  /\ process_input (times 4301 "0") self = (Raise ValueError, self).
Proof.
  intros Hst. split; [apply experience_without_digits, Hst|].
  split.
  { intros Hsplit Hpre Hne Hd Hpost.
    destruct (experience_outcome self _ _ _ _ Hst Hsplit Hpre Hne Hd Hpost)
      as (Hnn & Hok & Hhigh & Hlong).
    split; [exact Hnn|]. split; [|split; [exact Hhigh | exact Hlong]].
    intros Hlen Hr. destruct (Hok Hlen Hr) as [msg Hrun].
    eexists msg, _. split; [exact Hrun|].
    split; [apply lookup_insert_eq|]. split; reflexivity. }
  split; [|split; [|split]].
  - destruct (experience_outcome self "I have 7 years in backend"
                (chars "I have ") ["7"] (chars " years in backend") Hst)
      as (_ & Hok & _);
      [vm_compute; reflexivity | apply no_digit_check; vm_compute; reflexivity
      | discriminate | apply digits_check; vm_compute; reflexivity
      | vm_compute; reflexivity |].
    destruct Hok as [msg Hrun]; [cbn; unfold int_max_str_digits; lia | vm_compute; discriminate|].
    eexists msg, _. split; [exact Hrun|]. split; [apply lookup_insert_eq | reflexivity].
  - apply experience_without_digits; [exact Hst|].
    apply no_digit_check. vm_compute. reflexivity.
  - destruct (experience_outcome self "70" [] ["7"; "0"] [] Hst)
      as (_ & _ & Hhigh & _);
      [vm_compute; reflexivity | constructor | discriminate
      | apply digits_check; vm_compute; reflexivity | exact I |].
    apply Hhigh; [cbn; unfold int_max_str_digits; lia | vm_compute; reflexivity].
  - destruct (experience_outcome self (times 4301 "0") [] (replicate 4301 "0") [] Hst)
      as (_ & _ & _ & Hlong).
    + vm_compute. reflexivity.
    + constructor.
    + discriminate.
    + apply Forall_replicate. vm_compute. reflexivity.
    + exact I.
    + apply Hlong. rewrite length_replicate. unfold int_max_str_digits. lia.
Qed.

Lemma experience_from_first_digit_run_witness :
  exists msg self',
    process_input ("about " +:+ arabic_indic_three +:+ " years")
      (set_conversation_state "experience" started)
    = (Ok msg, self')
    /\ candidate_data self' !! "experience" = Some (VStr "3 years")
    /\ conversation_state self' = "position"
    /\ self' = set_conversation_state "position"
                 (set_candidate_data "experience" (VStr "3 years")
                    (set_conversation_state "experience" started)).
Proof.
  exact (proj1 (proj2 (proj1 (proj2
    (experience_from_first_digit_run
       (set_conversation_state "experience" started)
       ("about " +:+ arabic_indic_three +:+ " years")
       (chars "about ") [arabic_indic_three] (chars " years") eq_refl))
    ltac:(vm_compute; reflexivity)
    ltac:(apply no_digit_check; vm_compute; reflexivity)
    ltac:(discriminate)
    ltac:(apply digits_check; vm_compute; reflexivity)
    ltac:(vm_compute; reflexivity)))
    ltac:(cbn; lia)
    ltac:(vm_compute; discriminate)).
Defined.

End ClaimsOfHandlers.
Section ClaimsOfTheStore.

Import Bot.

(** C9: [save_candidate_data] lets a record pass its validation if and only
    if the record holds a non-empty name and a non-empty email that
    [re.match] accepts for the email pattern; a record that fails is
    answered [False] and nothing is stored; [True] is returned only for a
    record that passed, and is returned for it whenever the database raises
    nothing.  The emails the pattern accepts are a local part, [@], a
    domain, a dot and at least two letters, with, as [$] allows, at most a
    newline after them. *)
Theorem save_validates_name_and_email
    (hash : string -> Z) (str_of_list : list string -> string) (utcnow : Z)
    (db_raises : Db.db_op -> list Db.Candidate -> bool)
    (data : gmap string value) (session : Db.Session) :
  (Db._validate_candidate_data data = Ok true <->
   (exists n, data !! "name" = Some n /\ value_truthy n = true)
   /\ (exists e, data !! "email" = Some (VStr e) /\ e <> ""
                 /\ Re.match_anchored email_pattern e = true))
  /\ (Db._validate_candidate_data data <> Ok true ->
      exists session',
        Db.save_candidate_data hash str_of_list utcnow db_raises data session
        = (Ok false, session')
        /\ Db.stored session' = Db.stored session)
  /\ (forall session',
        Db.save_candidate_data hash str_of_list utcnow db_raises data session
        = (Ok true, session') ->
        Db._validate_candidate_data data = Ok true)
  /\ ((forall op rows, db_raises op rows = false) ->
      Db._validate_candidate_data data = Ok true ->
      exists session',
        Db.save_candidate_data hash str_of_list utcnow db_raises data session
        = (Ok true, session'))
  /\ (forall e,
        Re.match_anchored email_pattern e = true <->
        email_shape (list_ascii_of_string e)
        \/ exists w, list_ascii_of_string e = w ++ ["010"%char] /\ email_shape w).
Proof.
  split; [apply validate_candidate_data_spec|].
  split.
  { intros Hv.
    destruct (save_refuses_invalid hash str_of_list utcnow db_raises data session Hv)
      as (session' & Hsave & Hstored & _).
    eauto. }
  split; [intros session'; apply save_true_validated|].
  split; [apply save_accepts_valid|].
  apply email_match_shape.
Qed.

Lemma save_validates_name_and_email_witness :
  (exists session',
      Db.save_candidate_data (fun _ => 0%Z) (fun _ => "") 0 (fun _ _ => false)
        {[ "name" := VStr "Jane Doe"; "email" := VStr "jane@x.com" ]}
        {| Db.stored := []; Db.staged := [] |}
      = (Ok true, session'))
  /\ (exists session',
         Db.save_candidate_data (fun _ => 0%Z) (fun _ => "") 0 (fun _ _ => false)
           {[ "name" := VStr "Jane Doe"; "email" := VStr "jane at x.com" ]}
           {| Db.stored := []; Db.staged := [] |}
         = (Ok false, session')
         /\ Db.stored session' = []).
Proof.
  split.
  - apply (save_validates_name_and_email (fun _ => 0%Z) (fun _ => "") 0 (fun _ _ => false)).
    + intros op rows. reflexivity.
    + vm_compute. reflexivity.
  - apply (save_validates_name_and_email (fun _ => 0%Z) (fun _ => "") 0 (fun _ _ => false)).
    vm_compute. discriminate.
Defined.

End ClaimsOfTheStore.
(** * Further properties of the code *)

(** ** Text: substrings, stripping, splitting *)

Section MoreText.

Lemma prefix_app k : forall s, String.prefix k s = true <-> exists post, s = k +:+ post.
Proof.
  induction k as [|x k IH]; intros s.
  - destruct s; cbn; split; eauto.
  - destruct s as [|y s]; cbn.
    + split; [discriminate | intros (post & H); discriminate H].
    + destruct (ascii_dec x y) as [->|Hne].
      * rewrite IH. split; intros (post & H); exists post.
        -- rewrite app_cons, H. reflexivity.
        -- rewrite app_cons in H. congruence.
      * split; [discriminate|]. intros (post & H). rewrite app_cons in H. congruence.
Qed.

Lemma contains_app k : forall s,
  contains k s = true <-> exists pre post, s = pre +:+ k +:+ post.
Proof.
  induction s as [|y s IH].
  - cbn [contains]. rewrite prefix_app. split.
    + intros (post & H). exists "", post. exact H.
    + intros (pre & post & H). destruct pre; [|discriminate H].
      exists post. exact H.
  - cbn [contains]. rewrite orb_true_iff, prefix_app, IH. split.
    + intros [(post & H) | (pre & post & H)].
      * exists "", post. exact H.
      * exists (String y pre), post. rewrite app_cons, H. reflexivity.
    + intros (pre & post & H). destruct pre as [|x pre].
      * left. exists post. exact H.
      * right. rewrite app_cons in H. injection H as _ H. eauto.
Qed.

Lemma contains_in_context k a s b :
  contains k s = true -> contains k (a +:+ s +:+ b) = true.
Proof.
  rewrite !contains_app. intros (pre & post & ->).
  exists (a +:+ pre), (post +:+ b). rewrite !app_assoc_s. reflexivity.
Qed.

Lemma contains_refl s : contains s s = true.
Proof. apply contains_app. exists "", "". rewrite app_empty_r. reflexivity. Qed.

Lemma lower_app a b : lower (a +:+ b) = lower a +:+ lower b.
Proof. induction a as [|x a IH]; [reflexivity|]. rewrite !app_cons. cbn. rewrite IH. reflexivity. Qed.

(** A keyword inside the trimmed, lower-cased text is inside the
    lower-cased text. *)
Lemma contains_lower_strip k s :
  contains k (lower (strip s)) = true -> contains k (lower s) = true.
Proof.
  intros H. destruct (strip_split s) as (a & b & Hs & _).
  rewrite Hs at 1. rewrite !lower_app. apply contains_in_context, H.
Qed.

(** The pieces [split] cuts a text into do not contain the separator. *)
Lemma split_pieces sep s :
  Forall (all_bytes (fun c => negb (Ascii.eqb c sep))) (split sep s).
Proof.
  induction s as [|c s IH]; cbn.
  - repeat constructor.
  - destruct (Ascii.eqb c sep) eqn:Hc.
    + constructor; [constructor | exact IH].
    + destruct (split sep s) as [|w ws]; [repeat constructor; rewrite Hc; reflexivity|].
      inversion IH as [|? ? Hw Hws]; subst. constructor; [|exact Hws].
      constructor; [rewrite Hc; reflexivity | exact Hw].
Qed.

End MoreText.
(** ** The collection states *)

Section MoreHandlers.

Import Bot Session.

Lemma process_input_name user_input self :
  conversation_state self = "name" -> truthy (strip user_input) = true ->
  process_input user_input self = _handle_name (strip user_input) self.
Proof.
  intros Hst H. unfold process_input. rewrite H. cbn [negb].
  unfold bind at 1, get at 1. rewrite Hst. reflexivity.
Qed.

Lemma process_input_email user_input self :
  conversation_state self = "email" -> truthy (strip user_input) = true ->
  process_input user_input self = _handle_email (strip user_input) self.
Proof.
  intros Hst H. unfold process_input. rewrite H. cbn [negb].
  unfold bind at 1, get at 1. rewrite Hst. reflexivity.
Qed.

Lemma process_input_tech_stack user_input self :
  conversation_state self = "tech_stack" -> truthy (strip user_input) = true ->
  process_input user_input self = _handle_tech_stack (strip user_input) self.
Proof.
  intros Hst H. unfold process_input. rewrite H. cbn [negb].
  unfold bind at 1, get at 1. rewrite Hst. reflexivity.
Qed.

(** On a trimmed text an anchored match is a word of the pattern. *)
Lemma match_anchored_strip_iff body s :
  Re.match_anchored body (strip s) = true <->
  Re.lang body (list_ascii_of_string (strip s)).
Proof.
  split; [apply match_anchored_stripped|].
  intros H. apply match_anchored_lang. left. exact H.
Qed.

Lemma truthy_false (s : string) : truthy s = false <-> s = "".
Proof.
  unfold truthy. destruct (String.eqb_spec s ""); simpl; split; congruence.
Qed.

Lemma name_match_iff s :
  Re.match_text name_pattern (strip s) = true <->
  2 <= len (strip s) <= 50 /\ all_chars name_class (strip s).
Proof.
  rewrite match_text_stripped. unfold name_pattern.
  rewrite (range_cls_lang name_class 2 50 _ ltac:(lia)). reflexivity.
Qed.

Lemma email_match_iff s :
  Re.match_anchored email_pattern (strip s) = true <->
  email_shape (list_ascii_of_string (strip s)).
Proof. rewrite match_anchored_strip_iff. apply email_pattern_lang. Qed.

End MoreHandlers.

Section MoreQuiz.

Import Bot Session.

Ltac run_monad :=
  cbv beta iota zeta delta
    [bind ret get modify lift raise on_generator fst snd tech_stack_of
     question_generator conversation_state candidate_data
     technical_questions current_tech_index
     set_question_generator set_conversation_state set_candidate_data
     append_technical_question set_current_tech_index].

Ltac run_monad_in H :=
  cbv beta iota zeta delta
    [bind ret get modify lift raise on_generator fst snd tech_stack_of
     question_generator conversation_state candidate_data
     technical_questions current_tech_index
     set_question_generator set_conversation_state set_candidate_data
     append_technical_question set_current_tech_index] in H.

(** The characters of a text around a character of one byte. *)
Lemma chars_app_ascii a c b :
  is_ascii c = true -> chars (a +:+ String c b) = chars a ++ String c "" :: chars b.
Proof.
  intros Hc. rewrite <- (text_chars a) at 1.
  rewrite chars_app_text; [rewrite chars_ascii by exact Hc; reflexivity
                          | apply chars_characters |].
  intros ? ? _. right. cbn [starts_cont].
  destruct (is_cont c) eqn:H; [|reflexivity].
  apply cont_not_ascii in H. congruence.
Qed.

Lemma all_chars_app_ascii p a c b :
  is_ascii c = true ->
  all_chars p (a +:+ String c b) <->
  all_chars p a /\ p (String c "") = true /\ all_chars p b.
Proof.
  intros Hc. unfold all_chars. rewrite chars_app_ascii by exact Hc.
  rewrite Forall_app, Forall_cons. reflexivity.
Qed.

(** What [split] returns: the text up to the first separator, and the
    pieces of what follows it. *)
Lemma split_spec sep s :
  exists w ws,
    split sep s = w :: ws
    /\ ((ws = [] /\ s = w) \/ (exists s', s = w +:+ String sep s' /\ split sep s' = ws)).
Proof.
  induction s as [|c s (w & ws & Hsplit & IH)]; cbn [split].
  - exists "", []. split; [reflexivity|]. left. auto.
  - destruct (Ascii.eqb_spec c sep) as [->|Hne].
    + exists "", (split sep s). split; [reflexivity|]. right. exists s. auto.
    + rewrite Hsplit. exists (String c w), ws. split; [reflexivity|].
      destruct IH as [[-> ->] | (s' & -> & Hs')]; [left; auto|].
      right. exists s'. split; [reflexivity | exact Hs'].
Qed.

Lemma split_all_chars p sep s :
  is_ascii sep = true -> p (String sep "") = true ->
  Forall (all_chars p) (split sep s) <-> all_chars p s.
Proof.
  intros Hascii Hsep. remember (split sep s) as l eqn:Hl. symmetry in Hl.
  revert s Hl. induction l as [|w ws IH]; intros s Hl.
  - destruct (split_spec sep s) as (? & ? & H & _). congruence.
  - destruct (split_spec sep s) as (w' & ws' & H & Hcase).
    rewrite Hl in H. injection H as <- <-.
    destruct Hcase as [[-> ->] | (s' & -> & Hs')].
    + rewrite Forall_cons, Forall_nil. tauto.
    + rewrite Forall_cons, (IH _ Hs'), all_chars_app_ascii by exact Hascii. tauto.
Qed.

(** A text without the byte of a comma has no character that is a comma. *)
Lemma comma_free_chars s ch :
  all_bytes (fun c => negb (Ascii.eqb c ",")) s -> ch ∈ chars s -> ch <> ",".
Proof.
  intros Hs Hin ->. apply list_elem_of_split in Hin as (a & b & Hab).
  rewrite <- (text_chars s), Hab, text_app, text_cons in Hs.
  apply all_bytes_app in Hs as [_ Hs]. apply all_bytes_app in Hs as [Hs _].
  inversion Hs as [|? ? Hc _]. discriminate Hc.
Qed.

Lemma all_bytes_strip p s : all_bytes p s -> all_bytes p (strip s).
Proof.
  intros H. destruct (strip_split s) as (a & b & Hs & _).
  rewrite Hs in H. apply all_bytes_app in H as [_ H]. apply all_bytes_app in H as [H _].
  exact H.
Qed.

(** The technologies kept from an input, and when there is none. *)
Lemma tech_tokens_trimmed s :
  Forall trimmed_token
    (filter (fun tech => truthy tech = true) (map strip (split "," s))).
Proof.
  apply Forall_forall. intros tech Hin.
  apply list_elem_of_filter in Hin as [Ht Hin].
  apply list_elem_of_fmap in Hin as (piece & -> & Hpiece).
  apply truthy_true in Ht.
  pose proof (split_pieces "," s) as Hall. rewrite Forall_forall in Hall.
  specialize (Hall _ Hpiece).
  destruct (strip_ends piece Ht) as [Hfirst Hlast].
  repeat split; [exact Ht | apply all_bytes_strip, Hall | exact Hfirst | exact Hlast].
Qed.

Lemma tech_tokens_none s :
  filter (fun tech => truthy tech = true) (map strip (split "," s)) = []
  <-> all_chars blank_or_comma s.
Proof.
  rewrite <- (split_all_chars blank_or_comma "," s eq_refl eq_refl).
  pose proof (split_pieces "," s) as Hpieces.
  induction (split "," s) as [|piece pieces IH]; cbn [map].
  - rewrite filter_nil, Forall_nil. tauto.
  - inversion Hpieces as [|? ? Hpiece Hrest]; subst.
    rewrite Forall_cons, <- (IH Hrest), filter_cons.
    assert (all_chars blank_or_comma piece <-> strip piece = "") as Hblank.
    { rewrite strip_blank. unfold all_chars. rewrite !Forall_forall.
      split; intros H ch Hch; specialize (H ch Hch).
      - pose proof (comma_free_chars _ _ Hpiece Hch) as Hne.
        unfold blank_or_comma in H. apply orb_true_iff in H as [H | H]; [exact H|].
        apply String.eqb_eq in H. contradiction.
      - unfold blank_or_comma. rewrite H. reflexivity. }
    rewrite Hblank. destruct (decide (truthy (strip piece) = true)) as [Ht|Ht].
    + split; [discriminate|]. intros [Hs _]. apply truthy_true in Ht. contradiction.
    + split; [intros H; split; [|exact H] | intros [_ H]; exact H].
      apply truthy_false. destruct (truthy (strip piece)); congruence.
Qed.

Lemma all_chars_blank_or_comma_strip s :
  all_chars blank_or_comma (strip s) <-> all_chars blank_or_comma s.
Proof.
  split; [|apply all_chars_strip].
  intros H. destruct (strip_chars_split s) as (a & b & Hs & Ha & Hb).
  assert (forall w, Forall (fun ch => isspace ch = true) w ->
                    Forall (fun ch => blank_or_comma ch = true) w) as Hw.
  { intros w Hspace. eapply Forall_impl; [exact Hspace|].
    intros c Hc. cbn in Hc. unfold blank_or_comma. rewrite Hc. reflexivity. }
  unfold all_chars. rewrite Hs. apply Forall_app. split; [auto|].
  apply Forall_app. auto.
Qed.

(** One call keeps [quiz_progress]. *)
Ltac plain_progress Hfield :=
  run_monad;
  repeat match goal with
         | |- context [if ?c then _ else _] => destruct c
         | |- context [match Re.search_digits ?x with _ => _ end] =>
             destruct (Re.search_digits x)
         | |- context [match int ?x with _ => _ end] => destruct (int x)
         end;
  left; cbn; (split; [|exact Hfield]);
  apply (proj1 (bool_decide_spec _)); vm_compute; exact I.

Lemma process_input_quiz_progress inp self :
  cache_ok (question_generator self) -> quiz_progress self ->
  quiz_progress (snd (process_input inp self)).
Proof.
  intros Hc Hq. unfold process_input. destruct (negb (truthy (strip inp))).
  { exact Hq. }
  destruct self as [g st d qs i]. unfold bind at 1, get at 1.
  cbv beta iota zeta delta [conversation_state]. cbn [question_generator] in Hc.
  assert (forall f, st = f -> f ∈ fields -> qs = []) as Hfield.
  { intros f -> Hf. destruct Hq as [[_ H] | [[Hst _] | [Hst _]]]; [exact H | |];
      cbn in Hst; subst; exfalso; revert Hf;
      apply (proj1 (bool_decide_eq_false _)); vm_compute; reflexivity. }
  repeat case_decide; subst.
  - pose proof (Hfield "name" eq_refl ltac:(apply (proj1 (bool_decide_spec _)); vm_compute; exact I)) as Hqs.
    unfold _handle_name. plain_progress Hqs.
  - pose proof (Hfield "email" eq_refl ltac:(apply (proj1 (bool_decide_spec _)); vm_compute; exact I)) as Hqs.
    unfold _handle_email. plain_progress Hqs.
  - pose proof (Hfield "phone" eq_refl ltac:(apply (proj1 (bool_decide_spec _)); vm_compute; exact I)) as Hqs.
    unfold _handle_phone. plain_progress Hqs.
  - pose proof (Hfield "experience" eq_refl ltac:(apply (proj1 (bool_decide_spec _)); vm_compute; exact I)) as Hqs.
    unfold _handle_experience. plain_progress Hqs.
  - pose proof (Hfield "position" eq_refl ltac:(apply (proj1 (bool_decide_spec _)); vm_compute; exact I)) as Hqs.
    unfold _handle_position. plain_progress Hqs.
  - pose proof (Hfield "location" eq_refl ltac:(apply (proj1 (bool_decide_spec _)); vm_compute; exact I)) as Hqs.
    unfold _handle_location. plain_progress Hqs.
  - pose proof (Hfield "tech_stack" eq_refl ltac:(apply (proj1 (bool_decide_spec _)); vm_compute; exact I)) as Hqs.
    subst qs. unfold _handle_tech_stack. run_monad.
    destruct (Nat.leb_spec 1 (length (filter (fun tech => truthy tech = true)
                                        (map strip (split "," (strip inp))))))
      as [Hlen|Hlen].
    2: { left. cbn. split; [|reflexivity].
         apply (proj1 (bool_decide_spec _)). vm_compute. exact I. }
    match goal with
    | |- context [_generate_next_technical_questions ?s] =>
        destruct (generate_next_asks s
                    (filter (fun tech => truthy tech = true)
                       (map strip (split "," (strip inp)))))
          as (msg & q & g' & -> & _ & Hc')
    end.
    + exact Hc.
    + unfold tech_stack_of. cbn [candidate_data]. rewrite lookup_insert_eq. reflexivity.
    + cbn. lia.
    + right. left. cbn. split; [reflexivity|].
      eexists _, 1. rewrite lookup_insert_eq. repeat split; [exact Hlen | lia | lia].
  - destruct Hq as [[Hst _] | [[_ (ts & k & Hts & Hi & Hk & Hlen)] | [Hst _]]];
      [cbn in Hst; exfalso; revert Hst;
       apply (proj1 (bool_decide_eq_false _)); vm_compute; reflexivity
      | | cbn in Hst; discriminate Hst].
    run_monad_in Hts. run_monad_in Hi. run_monad_in Hlen.
    unfold _handle_technical_questions. run_monad. rewrite Hts. cbn [items].
    unfold getitem at 1. destruct (lookup_lt_is_Some_2 ts _ Hi) as [tech ->].
    rewrite Hlen. unfold questions_per_tech.
    assert ((3 * i + k) mod 3 = k mod 3) as ->
      by (rewrite Nat.add_comm, Nat.mul_comm; apply Nat.Div0.mod_add).
    destruct (Nat.eqb_spec (k mod 3) 0) as [Hmod|Hmod]; run_monad.
    + assert (k = 3) as ->
        by (clear -Hk Hmod; destruct k as [|[|[|[|k]]]]; cbn in Hmod; lia).
      rewrite Hts. cbn [items].
      destruct (Nat.leb_spec (length ts) (i + 1)) as [Hend|Hmore]; run_monad.
      * unfold _complete_technical_assessment. run_monad. rewrite Hts.
        right. right. cbn. split; [reflexivity|]. exists ts. split; [exact Hts | lia].
      * match goal with
        | |- context [_generate_next_technical_questions ?s] =>
            destruct (generate_next_asks s ts) as (msg & q & g' & -> & _ & Hc')
        end.
        -- exact Hc.
        -- unfold tech_stack_of. cbn [candidate_data]. rewrite Hts. reflexivity.
        -- cbn. lia.
        -- right. left. cbn. split; [reflexivity|]. exists ts, 1.
           rewrite length_app. cbn [length].
           repeat split; [exact Hts | lia | lia | lia | lia].
    + match goal with
      | |- context [_generate_next_technical_questions ?s] =>
          destruct (generate_next_asks s ts) as (msg & q & g' & -> & _ & Hc')
      end.
      * exact Hc.
      * unfold tech_stack_of. cbn [candidate_data]. rewrite Hts. reflexivity.
      * cbn. lia.
      * right. left. cbn. split; [reflexivity|]. exists ts, (k + 1).
        rewrite length_app. cbn [length].
        repeat split; [exact Hts | lia | lia | | lia].
        clear -Hk Hmod. destruct k as [|[|[|[|k]]]]; cbn in Hmod; lia.
  - unfold _handle_fallback. run_monad. case_decide; exact Hq.
Qed.

(** In state [tech_stack]: with a technology kept, the record gets the list
    and the first question is asked; with none, nothing changes. *)
Lemma tech_stack_accept self user_input :
  conversation_state self = "tech_stack" ->
  cache_ok (question_generator self) ->
  filter (fun tech => truthy tech = true) (map strip (split "," (strip user_input))) <> [] ->
  exists msg q g',
    process_input user_input self
    = (Ok msg,
       append_technical_question q
         (set_question_generator g'
            (set_current_tech_index 0
               (set_conversation_state "technical_questions"
                  (set_candidate_data "tech_stack"
                     (VList (filter (fun tech => truthy tech = true)
                               (map strip (split "," (strip user_input))))) self)))))
    /\ q <> "".
Proof.
  intros Hst Hc Hne.
  assert (truthy (strip user_input) = true) as Ht.
  { apply truthy_true. intros Heq. apply Hne. rewrite Heq. vm_compute. reflexivity. }
  rewrite process_input_tech_stack by assumption.
  unfold _handle_tech_stack.
  destruct (Nat.leb_spec 1 (length (filter (fun tech => truthy tech = true)
                                      (map strip (split "," (strip user_input))))))
    as [Hlen|Hlen].
  2: { destruct (filter _ _); [congruence | cbn in Hlen; lia]. }
  run_monad.
  match goal with
  | |- context [_generate_next_technical_questions ?s] =>
      destruct (generate_next_asks s
                  (filter (fun tech => truthy tech = true)
                     (map strip (split "," (strip user_input)))))
        as (msg & q & g' & -> & Hq & _)
  end.
  - destruct self; exact Hc.
  - unfold tech_stack_of. cbn [candidate_data]. rewrite lookup_insert_eq. reflexivity.
  - cbn. lia.
  - destruct self. eexists _, q, g'. split; [reflexivity | exact Hq].
Qed.

Lemma tech_stack_reject self user_input :
  conversation_state self = "tech_stack" ->
  filter (fun tech => truthy tech = true) (map strip (split "," (strip user_input))) = [] ->
  exists msg, process_input user_input self = (Ok msg, self).
Proof.
  intros Hst Hnone. destruct (truthy (strip user_input)) eqn:Ht.
  - rewrite process_input_tech_stack by assumption.
    unfold _handle_tech_stack. rewrite Hnone. cbn. eexists. reflexivity.
  - rewrite process_input_blank by assumption. eexists. reflexivity.
Qed.

Lemma reachable_quiz_progress self : Reachable self -> quiz_progress self.
Proof.
  induction 1 as [|inp self Hr IH].
  - left. split; [|reflexivity]. apply (proj1 (bool_decide_spec _)). vm_compute. exact I.
  - apply process_input_quiz_progress; [apply reachable_cache_ok, Hr | exact IH].
Qed.

End MoreQuiz.
(** * The question generator *)

Section MoreGenerator.

Import Gen.

Lemma tier_cases question_number :
  dict_get question_number difficulty_levels "intermediate" = "basic"
  \/ dict_get question_number difficulty_levels "intermediate" = "intermediate"
  \/ dict_get question_number difficulty_levels "intermediate" = "advanced".
Proof.
  unfold dict_get, difficulty_levels. cbn [assoc].
  repeat case_decide; auto.
Qed.

Lemma tech_questions_tiers : Forall (fun item => three_tiers (snd item)) tech_questions.
Proof.
  unfold tech_questions.
  repeat (apply Forall_cons_2; [|]); try apply Forall_nil_2;
    intros difficulty [-> | [-> | ->]]; eexists; (split; [vm_compute; reflexivity | reflexivity]).
Qed.

Lemma generic_questions_tiers technology : three_tiers (generic_questions technology).
Proof.
  intros difficulty [-> | [-> | ->]]; eexists; (split; [reflexivity | reflexivity]).
Qed.

Lemma rotate_three questions question_number :
  length questions = 3 ->
  exists q, questions !! Z.to_nat ((question_number - 1) `mod` 3) = Some q
            /\ rotate questions question_number = Ok q.
Proof.
  intros Hlen.
  destruct (lookup_lt_is_Some_2 questions (Z.to_nat ((question_number - 1) `mod` 3)))
    as [q Hq].
  { rewrite Hlen. pose proof (Z.mod_pos_bound (question_number - 1) 3 ltac:(lia)). lia. }
  exists q. split; [exact Hq|].
  unfold rotate. rewrite Hlen. change (Z.of_nat 3) with 3%Z.
  unfold pymod. change (3 =? 0)%Z with false. cbv iota.
  unfold getitem. rewrite Hq. reflexivity.
Qed.

(** The question an entry of three tiers gives. *)
Lemma entry_question entry question_number :
  three_tiers entry ->
  exists q,
    served_from entry question_number q
    /\ nonempty (dict_get (dict_get question_number difficulty_levels "intermediate")
                   entry []) = true
    /\ rotate (dict_get (dict_get question_number difficulty_levels "intermediate") entry [])
          question_number = Ok q.
Proof.
  intros Htiers.
  destruct (Htiers _ (tier_cases question_number)) as (questions & Hassoc & Hlen).
  destruct (rotate_three questions question_number Hlen) as (q & Hq & Hrot).
  assert (dict_get (dict_get question_number difficulty_levels "intermediate") entry []
          = questions) as Hget.
  { unfold dict_get at 1. rewrite Hassoc. reflexivity. }
  exists q. rewrite Hget.
  split; [exists questions; auto|]. split; [|exact Hrot].
  destruct questions; [discriminate Hlen | reflexivity].
Qed.

Lemma assoc_tiers tech_lower entry :
  assoc tech_lower tech_questions = Some entry -> three_tiers entry.
Proof.
  intros H. apply assoc_elem in H.
  pose proof tech_questions_tiers as Hall. rewrite Forall_forall in Hall.
  exact (Hall _ H).
Qed.

Lemma partial_match_first tech_lower difficulty question_number pre key entry post :
  Forall (fun item => overlaps (fst item) tech_lower = false) pre ->
  overlaps key tech_lower = true ->
  nonempty (dict_get difficulty entry []) = true ->
  partial_match tech_lower difficulty question_number (pre ++ (key, entry) :: post)
  = Some (rotate (dict_get difficulty entry []) question_number).
Proof.
  unfold overlaps. intros Hpre Hkey Hne.
  induction pre as [|[k e] pre IH]; cbn [app partial_match].
  - rewrite Hkey, Hne. reflexivity.
  - apply Forall_cons in Hpre as [Hk Hpre]. cbn [fst] in Hk. rewrite Hk. apply IH, Hpre.
Qed.

Lemma partial_match_none tech_lower difficulty question_number table :
  Forall (fun item => overlaps (fst item) tech_lower = false) table ->
  partial_match tech_lower difficulty question_number table = None.
Proof.
  unfold overlaps. induction 1 as [|[k e] table Hk _ IH]; cbn [partial_match]; [reflexivity|].
  cbn [fst] in Hk. rewrite Hk. exact IH.
Qed.

Lemma assoc_none_of_no_overlap tech_lower (table : list (string * list (string * list string))) :
  Forall (fun item => overlaps (fst item) tech_lower = false) table ->
  assoc tech_lower table = None.
Proof.
  unfold overlaps. induction 1 as [|[k e] table Hk _ IH]; cbn [assoc]; [reflexivity|].
  case_decide as Heq; [|exact IH].
  subst k. cbn [fst] in Hk. rewrite contains_refl in Hk. discriminate Hk.
Qed.

Lemma dict_get_default difficulty (entry : list (string * list string)) questions dflt :
  assoc difficulty entry = Some questions -> dict_get difficulty entry dflt = questions.
Proof. intros H. unfold dict_get. rewrite H. reflexivity. Qed.

Lemma generic_mentions technology difficulty questions q :
  assoc difficulty (generic_questions technology) = Some questions ->
  q ∈ questions -> contains technology q = true.
Proof.
  unfold generic_questions. cbn [assoc].
  repeat case_decide; intros [= <-] Hq;
    repeat (apply elem_of_cons in Hq as [-> | Hq];
            [apply contains_in_context, contains_refl|]);
    apply elem_of_nil in Hq; contradiction.
Qed.

(** What a call of [generate_question] does to the cache. *)
Lemma generate_question_cache technology question_number g q g' :
  generate_question technology question_number g = (Ok (Some q), g') ->
  question_cache g' !! cache_key technology question_number = Some q
  /\ question_cache g ⊆ question_cache g'.
Proof.
  unfold generate_question, bind, get, lift, ret, modify.
  destruct (question_cache g !! cache_key technology question_number) as [q0|] eqn:Hhit.
  - intros [= <- <-]. split; [exact Hhit | reflexivity].
  - destruct (_generate_with_simple_ai _ technology question_number) as [[q1|]|e];
      [|discriminate..].
    destruct (truthy q1); [|discriminate].
    intros [= <- <-]. cbn [question_cache]. split.
    + apply lookup_insert_eq.
    + apply insert_subseteq, Hhit.
Qed.

Lemma generate_question_hit technology question_number g q :
  question_cache g !! cache_key technology question_number = Some q ->
  generate_question technology question_number g = (Ok (Some q), g).
Proof.
  intros Hhit. unfold generate_question, bind, get, ret. rewrite Hhit. reflexivity.
Qed.

End MoreGenerator.
(** * The record of a session *)

Section MoreRecord.

Import Bot Session.

Ltac run_monad :=
  cbv beta iota zeta delta
    [bind ret get modify lift raise on_generator fst snd tech_stack_of
     question_generator conversation_state candidate_data
     technical_questions current_tech_index
     set_question_generator set_conversation_state set_candidate_data
     append_technical_question set_current_tech_index].

Lemma process_input_position user_input self :
  conversation_state self = "position" -> truthy (strip user_input) = true ->
  process_input user_input self = _handle_position (strip user_input) self.
Proof.
  intros Hst H. unfold process_input. rewrite H. cbn [negb].
  unfold bind at 1, get at 1. rewrite Hst. reflexivity.
Qed.

Lemma process_input_location user_input self :
  conversation_state self = "location" -> truthy (strip user_input) = true ->
  process_input user_input self = _handle_location (strip user_input) self.
Proof.
  intros Hst H. unfold process_input. rewrite H. cbn [negb].
  unfold bind at 1, get at 1. rewrite Hst. reflexivity.
Qed.

Ltac plain_field f nxt :=
  match goal with
  | |- context [if ?c then _ else _] =>
      destruct c eqn:?;
      [ right; exists f, nxt; eexists; run_monad;
        split; [reflexivity|]; split; [reflexivity|]; split; [reflexivity|]
      | left; run_monad; auto ]
  end.

Lemma validated_record (data : gmap string value) :
  is_Some (data !! "name") -> is_Some (data !! "email") ->
  (forall f v, data !! f = Some v -> field_ok f v) ->
  match data !! "name" with
  | Some v =>
      if value_truthy v
      then match data !! "email" with
           | Some v0 => if value_truthy v0 then true else false
           | None => false
           end
      else false
  | None => false
  end = true
  /\ exists e, data !! "email" = Some (VStr e)
               /\ Re.match_anchored email_pattern e = true.
Proof.
  intros [n Hn] [e He] Hok.
  pose proof (Hok _ _ Hn) as Hname. pose proof (Hok _ _ He) as Hemail.
  unfold field_ok in Hname, Hemail.
  destruct Hname as [(_ & s & -> & Hlen & _) | Hname].
  2: { exfalso. decompose [or and] Hname; discriminate. }
  destruct Hemail as [(Hf & _) | [(_ & s' & -> & Hshape) | Hemail]]; [discriminate Hf | |].
  2: { exfalso. decompose [or and] Hemail; discriminate. }
  assert (Re.match_anchored email_pattern s' = true) as Hm.
  { apply email_match_shape. left. exact Hshape. }
  rewrite Hn, He. split; [|eauto].
  destruct s as [|c s]; [cbn in Hlen; lia|].
  pose proof (email_match_nonempty _ Hm) as Hne.
  destruct s'; [congruence | reflexivity].
Qed.

(** One call of [process_input]: the record is left alone, or the field of
    the state gets what its handler stores for the trimmed input. *)
Lemma process_input_assigned inp self :
  cache_ok (question_generator self) ->
  (candidate_data (snd (process_input inp self)) = candidate_data self
   /\ (conversation_state (snd (process_input inp self)) = conversation_state self
       \/ (conversation_state self = "technical_questions"
           /\ conversation_state (snd (process_input inp self)) = "completed")))
  \/ (exists f nxt v,
        field_step (conversation_state self) = Some (f, nxt)
        /\ candidate_data (snd (process_input inp self)) = <[f := v]> (candidate_data self)
        /\ conversation_state (snd (process_input inp self)) = nxt
        /\ assigned f (strip inp) v).
Proof.
  intros Hc.
  destruct (truthy (strip inp)) eqn:Ht.
  2: { rewrite process_input_blank by exact Ht. left. auto. }
  destruct (field_step (conversation_state self)) as [[f0 nxt0]|] eqn:Hstep.
  2: { destruct (step_of_call inp self) as (_ & _ & [Hsame | (f & nxt & v & Hf & _)]).
       - left. exact Hsame.
       - rewrite Hstep in Hf. discriminate Hf. }
  unfold field_step in Hstep.
  repeat case_decide; try discriminate Hstep; injection Hstep as <- <-;
    match goal with Heq : conversation_state self = _ |- _ => rename Heq into Hst end.
  - rewrite process_input_name by assumption. unfold _handle_name.
    destruct self. plain_field "name" "email". unfold assigned. auto.
  - rewrite process_input_email by assumption. unfold _handle_email.
    destruct self. plain_field "email" "phone". unfold assigned. auto.
  - rewrite process_input_phone by assumption. unfold _handle_phone.
    destruct self. plain_field "phone" "experience". unfold assigned. auto 6.
  - rewrite process_input_experience by assumption. unfold _handle_experience.
    destruct self. destruct (Re.search_digits (strip inp)) as [years_match|] eqn:Hdigits;
      [|left; run_monad; auto].
    cbv beta iota zeta delta [bind lift].
    destruct (int years_match) as [years|e] eqn:Hint; [|left; run_monad; auto].
    cbv beta iota. plain_field "experience" "position".
    unfold assigned. right; right; right; left. split; [reflexivity|].
    exists years_match, years. split; [exact Hdigits|]. split; [exact Hint|].
    match goal with
    | Hyears : (_ && _) = true |- _ =>
        apply andb_true_iff in Hyears as [Hlo Hhi];
        apply Z.leb_le in Hlo; apply Z.leb_le in Hhi
    end.
    split; [lia | reflexivity].
  - rewrite process_input_position by assumption. unfold _handle_position.
    destruct self. plain_field "position" "location".
    unfold assigned. right; right; right; right; left.
    split; [auto|]. split; [reflexivity|].
    match goal with H : (2 <=? _) = true |- _ => apply Nat.leb_le in H; exact H end.
  - rewrite process_input_location by assumption. unfold _handle_location.
    destruct self. plain_field "location" "tech_stack".
    unfold assigned. right; right; right; right; left.
    split; [auto|]. split; [reflexivity|].
    match goal with H : (2 <=? _) = true |- _ => apply Nat.leb_le in H; exact H end.
  - destruct (decide (filter (fun tech => truthy tech = true)
                        (map strip (split "," (strip inp))) = [])) as [Hnone | Hsome].
    + destruct (tech_stack_reject self inp Hst) as [msg ->].
      { exact Hnone. }
      left. auto.
    + destruct (tech_stack_accept self inp Hst Hc Hsome) as (msg & q & g' & -> & _).
      right. exists "tech_stack", "technical_questions". eexists.
      destruct self. run_monad.
      split; [reflexivity|]. split; [reflexivity|]. split; [reflexivity|].
      unfold assigned. do 5 right. auto.
Qed.

Lemma assigned_field_ok f inp v : assigned f (strip inp) v -> field_ok f v.
Proof.
  unfold assigned, field_ok.
  intros [(-> & -> & Hm) | [(-> & -> & Hm) | [(-> & -> & Hm)
          | [(-> & years_match & years & _ & _ & Hyears & ->)
            | [(Hf & -> & Hlen) | (-> & -> & Hne)]]]]].
  - left. split; [reflexivity|]. eexists. split; [reflexivity|].
    apply name_match_iff, Hm.
  - right; left. split; [reflexivity|]. eexists. split; [reflexivity|].
    apply email_match_iff, Hm.
  - right; right; left. split; [reflexivity|].
    destruct (accepted_phone inp Hm) as [(body & Hbody & Hlen & Hchars) _].
    exists (strip inp), body. auto.
  - do 3 right; left. split; [reflexivity|]. eauto.
  - do 4 right; left. split; [exact Hf|]. eauto.
  - do 5 right. split; [reflexivity|]. eexists. split; [reflexivity|].
    split; [exact Hne | apply tech_tokens_trimmed].
Qed.

Lemma record_ok_started : record_ok started.
Proof.
  split.
  - cbn. apply dom_empty_L.
  - intros f v H. cbn in H. rewrite lookup_empty in H. discriminate H.
Qed.

Lemma collected_fields_next st f nxt :
  field_step st = Some (f, nxt) ->
  collected_fields nxt = collected_fields st ++ [f].
Proof.
  unfold field_step. repeat case_decide; intros [= <- <-]; subst st; reflexivity.
Qed.

Lemma record_ok_step inp self :
  cache_ok (question_generator self) ->
  record_ok self -> record_ok (snd (process_input inp self)).
Proof.
  intros Hc [Hdom Hok].
  destruct (process_input_assigned inp self Hc)
    as [[Hd Hs] | (f & nxt & v & Hstep & Hd & Hs & Hv)]; split; rewrite Hd.
  - rewrite Hdom. destruct Hs as [-> | [Hq ->]]; [reflexivity|]. rewrite Hq. reflexivity.
  - exact Hok.
  - rewrite dom_insert_L, Hdom, Hs, (collected_fields_next _ _ _ Hstep).
    rewrite list_to_set_app_L. cbn [list_to_set]. rewrite (right_id_L ∅ (∪)).
    apply (comm_L (∪)).
  - intros f' v' Hlook. destruct (decide (f = f')) as [<- | Hne].
    + rewrite lookup_insert_eq in Hlook. injection Hlook as <-.
      exact (assigned_field_ok _ _ _ Hv).
    + rewrite lookup_insert_ne in Hlook by exact Hne. exact (Hok _ _ Hlook).
Qed.

Lemma reachable_record_ok self : Reachable self -> record_ok self.
Proof.
  induction 1 as [|inp self Hreach IH]; [apply record_ok_started|].
  apply record_ok_step; [apply reachable_cache_ok, Hreach | exact IH].
Qed.

Lemma record_ok_fields self f :
  record_ok self ->
  is_Some (candidate_data self !! f) <-> f ∈ collected_fields (conversation_state self).
Proof.
  intros [Hdom _]. rewrite <- elem_of_dom, Hdom, elem_of_list_to_set. reflexivity.
Qed.

(** The states of a session started once. *)
Lemma reachable_state self :
  Reachable self ->
  conversation_state self ∈ fields ++ ["technical_questions"; "completed"].
Proof.
  intros Hreach. pose proof (reachable_quiz_progress _ Hreach) as [[Hst _] | [[Hst _] | [Hst _]]].
  - apply elem_of_app. left. exact Hst.
  - rewrite Hst. apply (proj1 (bool_decide_spec _)). vm_compute. exact I.
  - rewrite Hst. apply (proj1 (bool_decide_spec _)). vm_compute. exact I.
Qed.

(** The record handed to the store passes its validation from state
    [phone] on, and fails it before. *)
Lemma record_validation self questions :
  record_ok self ->
  conversation_state self ∈ fields ++ ["technical_questions"; "completed"] ->
  Db._validate_candidate_data
    (<["technical_questions" := VList questions]> (candidate_data self))
  = Ok (negb (bool_decide (conversation_state self ∈ ["name"; "email"]))).
Proof.
  intros Hrec Hst.
  assert (forall f, f <> "technical_questions" ->
            (<["technical_questions" := VList questions]> (candidate_data self)) !! f
            = candidate_data self !! f) as Hlook.
  { intros f Hf. apply lookup_insert_ne. congruence. }
  unfold Db._validate_candidate_data, Db.required_present.
  rewrite !Hlook by discriminate.
  pose proof (record_ok_fields self "name" Hrec) as Hname.
  pose proof (record_ok_fields self "email" Hrec) as Hemail.
  destruct Hrec as [_ Hok].
  repeat (apply elem_of_cons in Hst as [Hst | Hst]); [..|apply elem_of_nil in Hst; contradiction];
    rewrite Hst in *; cbn [negb];
    try (destruct (validated_record (candidate_data self)) as [Hreq (e & He & Hm)];
         [ apply Hname, (proj1 (bool_decide_spec _)); vm_compute; exact I
         | apply Hemail, (proj1 (bool_decide_spec _)); vm_compute; exact I
         | exact Hok
         | rewrite Hreq, He; cbn [negb Db.re_match_email]; rewrite Hm; reflexivity ]).
  (* state [name]: nothing collected *)
  - destruct (candidate_data self !! "name") eqn:Hn; [|reflexivity].
    exfalso. assert (is_Some (Some v)) as Hs by eauto.
    apply Hname in Hs. revert Hs. apply (proj1 (bool_decide_eq_false _)).
    vm_compute. reflexivity.
  (* state [email]: the name only *)
  - destruct (candidate_data self !! "email") eqn:He.
    { exfalso. assert (is_Some (Some v)) as Hs by eauto.
      apply Hemail in Hs. revert Hs. apply (proj1 (bool_decide_eq_false _)).
      vm_compute. reflexivity. }
    destruct (candidate_data self !! "name") as [n|]; [|reflexivity].
    destruct (value_truthy n); reflexivity.
Qed.

End MoreRecord.
(** * The store *)

Section MoreStore.

Import Bot.

Variable hash : string -> Z.
Variable str_of_list : list string -> string.
Variable utcnow : Z.
Variable db_raises : Db.db_op -> list Db.Candidate -> bool.

Local Abbreviation save := (Db.save_candidate_data hash str_of_list utcnow db_raises).
Local Abbreviation cleanup := (Db._cleanup_old_data utcnow db_raises).
Local Abbreviation summary := (Db.get_candidate_summary db_raises).
Local Abbreviation delete := (Db.delete_candidate_data db_raises).
Local Abbreviation id_of := (Db._generate_candidate_id hash str_of_list).

Ltac run_store :=
  repeat (progress (cbv beta iota zeta delta
             [Db.try_except Db.query_first Db.commit Db.stage Db._cleanup_old_data
              Db.guard Db.rollback bind lift get modify ret];
           cbn [Db.staged Db.stored])).

Ltac run_ops :=
  repeat (progress (cbv beta iota zeta delta
             [Db.try_except Db.query_first Db.commit Db.stage
              Db.guard Db.rollback bind lift get modify ret];
           cbn [Db.staged Db.stored])).

Lemma filter_all_length {A} (P : A -> Prop) `{forall x, Decision (P x)} (l : list A) :
  length l <= length (filter P l) -> filter P l = l.
Proof.
  induction l as [|x l IH]; [reflexivity|].
  rewrite filter_cons. destruct (decide (P x)); cbn [length]; intros Hlen.
  - f_equal. apply IH. lia.
  - pose proof (length_filter P l). lia.
Qed.

Lemma filter_all {A} (P : A -> Prop) `{forall x, Decision (P x)} (l : list A) :
  Forall P l -> filter P l = l.
Proof.
  induction 1 as [|x l Hx _ IH]; [reflexivity|].
  rewrite filter_cons, decide_True by exact Hx. f_equal. exact IH.
Qed.

Lemma first_match_split {A} (P : A -> Prop) `{forall x, Decision (P x)} (l : list A) c :
  head (filter P l) = Some c ->
  exists pre post, l = pre ++ c :: post /\ Forall (fun x => ~ P x) pre /\ P c.
Proof.
  induction l as [|x l IH]; [discriminate|].
  rewrite filter_cons. destruct (decide (P x)) as [Hx | Hx].
  - intros [= ->]. exists [], l. auto.
  - intros Hhead. destruct (IH Hhead) as (pre & post & -> & Hpre & Hc).
    exists (x :: pre), post. split; [reflexivity|]. split; [constructor; assumption | exact Hc].
Qed.

Lemma no_match_none {A} (P : A -> Prop) `{forall x, Decision (P x)} (l : list A) :
  head (filter P l) = None <-> Forall (fun x => ~ P x) l.
Proof.
  induction l as [|x l IH]; [split; [constructor | reflexivity]|].
  rewrite filter_cons, Forall_cons. destruct (decide (P x)) as [Hx | Hx].
  - split; [discriminate | intros [Hn _]; contradiction].
  - rewrite IH. tauto.
Qed.

Lemma filter_none {A} (P : A -> Prop) `{forall x, Decision (P x)} (l : list A) :
  Forall (fun x => ~ P x) l -> filter P l = [].
Proof.
  induction 1 as [|x l Hx _ IH]; [reflexivity|].
  rewrite filter_cons. destruct (decide (P x)); [contradiction | exact IH].
Qed.

Lemma update_first_split cid f pre c post :
  Forall (fun x => ~ Db.candidate_id x = cid) pre -> Db.candidate_id c = cid ->
  Db.update_first cid f (pre ++ c :: post) = pre ++ f c :: post.
Proof.
  intros Hpre Hc. induction Hpre as [|x pre Hx _ IH]; cbn [app Db.update_first].
  - rewrite decide_True by exact Hc. reflexivity.
  - rewrite decide_False by exact Hx. f_equal. exact IH.
Qed.

Lemma update_first_ids cid f rows :
  (forall c, Db.candidate_id (f c) = cid) ->
  Db.candidate_id <$> Db.update_first cid f rows = Db.candidate_id <$> rows.
Proof.
  intros Hf. induction rows as [|c rows IH]; [reflexivity|].
  cbn [Db.update_first]. destruct (decide (Db.candidate_id c = cid)) as [Hc | Hc].
  - cbn [fmap list_fmap]. rewrite Hf, Hc. reflexivity.
  - cbn [fmap list_fmap]. f_equal. exact IH.
Qed.

Lemma upsert_ids_nodup cid data rows :
  NoDup (Db.candidate_id <$> rows) ->
  NoDup (Db.candidate_id <$> upsert utcnow cid data rows).
Proof.
  intros Hnd. unfold upsert.
  destruct (head (filter (fun c => Db.candidate_id c = cid) rows)) eqn:Hhead.
  - rewrite update_first_ids by reflexivity. exact Hnd.
  - rewrite fmap_app. apply NoDup_app. split; [exact Hnd|]. split.
    + intros x Hx Hin. cbn in Hin. apply list_elem_of_singleton in Hin. subst x.
      apply list_elem_of_fmap in Hx as (c & Hc & Hin).
      apply no_match_none in Hhead. rewrite Forall_forall in Hhead.
      exact (Hhead c Hin (eq_sym Hc)).
    + cbn. apply NoDup_singleton.
Qed.

Lemma retained_ids_nodup rows :
  NoDup (Db.candidate_id <$> rows) -> NoDup (Db.candidate_id <$> retained utcnow rows).
Proof.
  intros Hnd. apply (sublist_NoDup _ _ Hnd), fmap_sublist, sublist_filter.
Qed.

(** The cleanup when the database raises nothing. *)
Lemma cleanup_runs s :
  (forall op rows, db_raises op rows = false) ->
  Db.staged s = Db.stored s ->
  cleanup s = (Ok tt, {| Db.stored := retained utcnow (Db.stored s);
                         Db.staged := retained utcnow (Db.stored s) |}).
Proof.
  intros Hdb Hopen. unfold Db._cleanup_old_data. run_store. rewrite Hdb. run_store.
  fold (retained utcnow (Db.staged s)).
  destruct (0 <? length (Db.staged s) - length (retained utcnow (Db.staged s))) eqn:Hdel.
  - run_store. rewrite Hdb. run_store. rewrite Hopen. reflexivity.
  - apply Nat.ltb_ge in Hdel.
    assert (retained utcnow (Db.staged s) = Db.staged s) as Hall.
    { unfold retained in *. apply filter_all_length. lia. }
    run_store. rewrite <- Hopen, Hall. reflexivity.
Qed.

(** A save of a validated record when the database raises nothing. *)
Lemma save_runs data s :
  (forall op rows, db_raises op rows = false) ->
  Db._validate_candidate_data data = Ok true ->
  save data s
  = (Ok true,
     {| Db.stored := retained utcnow (upsert utcnow (id_of data) data (Db.staged s));
        Db.staged := retained utcnow (upsert utcnow (id_of data) data (Db.staged s)) |}).
Proof.
  intros Hdb Hv.
  unfold Db.save_candidate_data. unfold Db.try_except at 1. unfold bind at 1, lift.
  rewrite Hv. cbn [negb].
  run_ops. rewrite Hdb. run_ops.
  unfold upsert.
  destruct (head (filter (fun c => Db.candidate_id c = id_of data) (Db.staged s)));
    run_ops; rewrite Hdb; run_ops;
    match goal with
    | |- context [cleanup ?s0] => rewrite (cleanup_runs s0 Hdb eq_refl)
    end; reflexivity.
Qed.

Lemma retained_fresh_new :
  ~ (utcnow < utcnow - Db.data_retention_days * 86400)%Z.
Proof. unfold Db.data_retention_days. lia. Qed.

Lemma filter_id_retained cid rows :
  Forall (fun x => ~ Db.candidate_id x = cid) rows ->
  filter (fun c => Db.candidate_id c = cid) (retained utcnow rows) = [].
Proof.
  intros Hrows. apply filter_none. unfold retained.
  rewrite Forall_forall in *. intros x Hx. apply list_elem_of_filter in Hx as [_ Hx].
  exact (Hrows x Hx).
Qed.

(** The row of a saved record is the first of its id, unless the row it
    updates is older than the retention time. *)
Lemma upsert_found cid data rows :
  (forall c, head (filter (fun c => Db.candidate_id c = cid) rows) = Some c ->
             ~ (Db.created_at c < utcnow - Db.data_retention_days * 86400)%Z) ->
  head (filter (fun c => Db.candidate_id c = cid) (retained utcnow (upsert utcnow cid data rows)))
  = Some (Db.row_of utcnow cid data (created_of utcnow cid rows)).
Proof.
  intros Hfresh. unfold upsert, created_of.
  destruct (head (filter (fun c => Db.candidate_id c = cid) rows)) as [c|] eqn:Hhead.
  - destruct (first_match_split _ _ _ Hhead) as (pre & post & -> & Hpre & Hc).
    rewrite (update_first_split _ _ _ _ _ Hpre Hc).
    unfold retained at 1. rewrite filter_app, filter_cons.
    rewrite decide_True by exact (Hfresh c eq_refl).
    rewrite filter_app. fold (retained utcnow pre).
    rewrite (filter_id_retained _ _ Hpre), filter_cons.
    rewrite decide_True by reflexivity. reflexivity.
  - apply no_match_none in Hhead.
    unfold retained at 1. rewrite filter_app. fold (retained utcnow rows).
    rewrite filter_cons, decide_True by exact retained_fresh_new.
    rewrite filter_app, (filter_id_retained _ _ Hhead), filter_cons.
    rewrite decide_True by reflexivity. reflexivity.
Qed.

Lemma upsert_stale cid data rows c :
  NoDup (Db.candidate_id <$> rows) ->
  head (filter (fun c => Db.candidate_id c = cid) rows) = Some c ->
  (Db.created_at c < utcnow - Db.data_retention_days * 86400)%Z ->
  filter (fun c => Db.candidate_id c = cid) (retained utcnow (upsert utcnow cid data rows)) = [].
Proof.
  intros Hnd Hhead Hstale. unfold upsert. rewrite Hhead.
  destruct (first_match_split _ _ _ Hhead) as (pre & post & -> & Hpre & Hc).
  rewrite (update_first_split _ _ _ _ _ Hpre Hc).
  rewrite fmap_app, fmap_cons in Hnd.
  apply NoDup_app in Hnd as (_ & _ & Hnd). apply NoDup_cons in Hnd as [Hnotin _].
  assert (Forall (fun x => ~ Db.candidate_id x = cid) post) as Hpost.
  { rewrite Forall_forall. intros x Hx Hid. apply Hnotin. rewrite Hc, <- Hid.
    apply list_elem_of_fmap_2, Hx. }
  unfold retained at 1. rewrite filter_app, filter_cons.
  rewrite decide_False by (intros Hn; apply Hn; exact Hstale).
  rewrite filter_app. fold (retained utcnow pre). fold (retained utcnow post).
  rewrite (filter_id_retained _ _ Hpre), (filter_id_retained _ _ Hpost). reflexivity.
Qed.

(** [get_candidate_summary] reads the first row of the id. *)
Lemma summary_runs cid s :
  (forall op rows, db_raises op rows = false) ->
  summary cid s
  = (Ok match head (filter (fun c => Db.candidate_id c = cid) (Db.staged s)) with
        | Some c =>
            Some {| Db.summary_candidate_id := Db.candidate_id c;
                    Db.summary_name := Db.name c;
                    Db.summary_email := Db.email c;
                    Db.summary_position := Db.position c;
                    Db.summary_experience := Db.experience c;
                    Db.summary_tech_stack := Db.or_empty (Db.tech_stack c);
                    Db.summary_technical_questions := Db.or_empty (Db.technical_questions c);
                    Db.summary_created_at := Db.created_at c |}
        | None => None
        end, s).
Proof.
  intros Hdb. unfold Db.get_candidate_summary. run_ops. rewrite Hdb. run_ops.
  destruct (head _); reflexivity.
Qed.

Lemma summary_keeps cid s : snd (summary cid s) = s /\ exists r, fst (summary cid s) = Ok r.
Proof.
  unfold Db.get_candidate_summary. run_ops.
  destruct (db_raises Db.OpQuery (Db.staged s)); run_ops; [eauto|].
  destruct (head _); eauto.
Qed.

(** [delete_candidate_data] on a store with no open transaction. *)
Lemma delete_runs cid s :
  (forall op rows, db_raises op rows = false) ->
  Db.staged s = Db.stored s ->
  delete cid s
  = (Ok (bool_decide (cid ∈ Db.candidate_id <$> Db.stored s)),
     {| Db.stored := filter (fun c => Db.candidate_id c <> cid) (Db.stored s);
        Db.staged := filter (fun c => Db.candidate_id c <> cid) (Db.stored s) |}).
Proof.
  intros Hdb Hopen. unfold Db.delete_candidate_data. run_ops. rewrite Hdb. run_ops.
  rewrite Hopen.
  destruct (decide (cid ∈ Db.candidate_id <$> Db.stored s)) as [Hin | Hout].
  - rewrite bool_decide_eq_true_2 by exact Hin.
    apply list_elem_of_fmap in Hin as (c & Hc & Hin).
    pose proof (length_filter_lt (fun c => Db.candidate_id c <> cid) (Db.stored s) c Hin) as Hlt.
    assert ((0 <? length (Db.stored s)
                  - length (filter (fun c => Db.candidate_id c <> cid) (Db.stored s))) = true)
      as ->.
    { apply Nat.ltb_lt. assert (~ Db.candidate_id c <> cid) as Hn by (intros Hn; congruence).
      specialize (Hlt Hn). lia. }
    run_ops. rewrite Hdb. run_ops. reflexivity.
  - rewrite bool_decide_eq_false_2 by exact Hout.
    assert (filter (fun c => Db.candidate_id c <> cid) (Db.stored s) = Db.stored s) as Hall.
    { apply filter_all. rewrite Forall_forall. intros c Hc Hid. apply Hout.
      rewrite <- Hid. apply list_elem_of_fmap_2, Hc. }
    rewrite Hall, Nat.sub_diag. run_ops. reflexivity.
Qed.

(** The cleanup, whatever the database does. *)
Lemma cleanup_any s :
  Db.staged s = Db.stored s ->
  fst (cleanup s) = Ok tt
  /\ Db.staged (snd (cleanup s)) = Db.stored (snd (cleanup s))
  /\ (Db.stored (snd (cleanup s)) = Db.stored s
      \/ Db.stored (snd (cleanup s)) = retained utcnow (Db.stored s)).
Proof.
  intros Hopen. unfold Db._cleanup_old_data.
  run_store. destruct (db_raises Db.OpDelete (Db.staged s)); run_store; [auto|].
  fold (retained utcnow (Db.staged s)).
  destruct (0 <? length (Db.staged s) - length (retained utcnow (Db.staged s))) eqn:Hdel;
    run_store.
  - destruct (db_raises Db.OpCommit (retained utcnow (Db.staged s))); run_store; [auto|].
    rewrite Hopen. auto.
  - apply Nat.ltb_ge in Hdel.
    assert (retained utcnow (Db.staged s) = Db.staged s) as Hall.
    { unfold retained in *. apply filter_all_length. lia. }
    rewrite Hall. auto.
Qed.

Lemma stored_cases_ok s rows :
  store_ok s ->
  rows = Db.stored s \/ rows = retained utcnow (Db.stored s) ->
  NoDup (Db.candidate_id <$> rows).
Proof.
  intros [_ Hnd] [-> | ->]; [exact Hnd | apply retained_ids_nodup, Hnd].
Qed.

Lemma cleanup_store_ok s : store_ok s -> store_ok (snd (cleanup s)).
Proof.
  intros Hok. destruct (cleanup_any s (proj1 Hok)) as (_ & Hopen & Hrows).
  split; [exact Hopen | exact (stored_cases_ok s _ Hok Hrows)].
Qed.

(** A save, whatever the database does: it raises nothing; [False] leaves
    the rows as they were; [True] has committed the insert or update. *)
Lemma save_any data s :
  Db.staged s = Db.stored s ->
  exists b s',
    save data s = (Ok b, s')
    /\ Db.staged s' = Db.stored s'
    /\ (if b
        then Db.stored s' = upsert utcnow (id_of data) data (Db.stored s)
             \/ Db.stored s' = retained utcnow (upsert utcnow (id_of data) data (Db.stored s))
        else Db.stored s' = Db.stored s).
Proof.
  intros Hopen.
  unfold Db.save_candidate_data. unfold Db.try_except at 1. unfold bind at 1, lift.
  destruct (Db._validate_candidate_data data) as [[|]|e]; cbn [negb].
  2: { exists false, s. run_ops. auto. }
  2: { exists false. eexists. run_ops. split; [reflexivity|]. auto. }
  run_ops.
  destruct (db_raises Db.OpQuery (Db.staged s)); run_ops.
  { exists false. eexists. split; [reflexivity|]. auto. }
  unfold upsert. rewrite <- Hopen.
  destruct (head (filter (fun c => Db.candidate_id c = id_of data) (Db.staged s)));
    run_ops;
    match goal with
    | |- context [db_raises Db.OpCommit ?rows] =>
        destruct (db_raises Db.OpCommit rows); run_ops;
        [ exists false; eexists; split; [reflexivity|]; auto
        | destruct (cleanup_any {| Db.stored := rows; Db.staged := rows |} eq_refl)
            as (Hr & Hopen' & Hrows);
          destruct (cleanup {| Db.stored := rows; Db.staged := rows |}) as [[[]|e] s0];
          [|discriminate Hr];
          exists true, s0; split; [reflexivity|]; split; [exact Hopen' | exact Hrows] ]
    end.
Qed.

Lemma save_store_ok data s : store_ok s -> store_ok (snd (save data s)).
Proof.
  intros Hok. destruct (save_any data s (proj1 Hok)) as (b & s' & -> & Hopen & Hrows).
  cbn [snd]. split; [exact Hopen|].
  destruct Hok as [_ Hnd]. destruct b.
  - destruct Hrows as [-> | ->].
    + apply upsert_ids_nodup, Hnd.
    + apply retained_ids_nodup, upsert_ids_nodup, Hnd.
  - rewrite Hrows. exact Hnd.
Qed.

(** A deletion, whatever the database does. *)
Lemma delete_any cid s :
  Db.staged s = Db.stored s ->
  exists b,
    fst (delete cid s) = Ok b
    /\ Db.staged (snd (delete cid s)) = Db.stored (snd (delete cid s))
    /\ (if b
        then Db.stored (snd (delete cid s))
             = filter (fun c => Db.candidate_id c <> cid) (Db.stored s)
        else Db.stored (snd (delete cid s)) = Db.stored s).
Proof.
  intros Hopen. unfold Db.delete_candidate_data. run_ops.
  destruct (db_raises Db.OpDelete (Db.staged s)); run_ops; [exists false; auto|].
  destruct (0 <? length (Db.staged s)
                 - length (filter (fun c => Db.candidate_id c <> cid) (Db.staged s))) eqn:Hdel;
    run_ops.
  - destruct (db_raises Db.OpCommit _); run_ops; [exists false; auto|].
    exists true. rewrite Hopen. auto.
  - apply Nat.ltb_ge in Hdel.
    assert (filter (fun c => Db.candidate_id c <> cid) (Db.staged s) = Db.staged s) as Hall.
    { apply filter_all_length. lia. }
    exists false. rewrite Hall. auto.
Qed.

Lemma delete_store_ok cid s : store_ok s -> store_ok (snd (delete cid s)).
Proof.
  intros Hok. destruct (delete_any cid s (proj1 Hok)) as (b & _ & Hopen & Hrows).
  split; [exact Hopen|]. destruct Hok as [_ Hnd]. destruct b; rewrite Hrows; [|exact Hnd].
  apply (sublist_NoDup _ _ Hnd), fmap_sublist, sublist_filter.
Qed.

(** The insert or update touches the rows of its id only. *)
Lemma upsert_others cid data rows :
  filter (fun c => Db.candidate_id c <> cid) (upsert utcnow cid data rows)
  = filter (fun c => Db.candidate_id c <> cid) rows.
Proof.
  unfold upsert.
  destruct (head (filter (fun c => Db.candidate_id c = cid) rows)) as [c|] eqn:Hhead.
  - destruct (first_match_split _ _ _ Hhead) as (pre & post & -> & Hpre & Hc).
    rewrite (update_first_split _ _ _ _ _ Hpre Hc).
    rewrite !filter_app, !filter_cons.
    rewrite decide_False by (intros Hn; apply Hn; reflexivity).
    rewrite decide_False by (intros Hn; apply Hn; exact Hc). reflexivity.
  - rewrite filter_app, filter_cons.
    rewrite decide_False by (intros Hn; apply Hn; reflexivity).
    cbn. apply app_nil_r.
Qed.

Lemma filter_swap {A} (P Q : A -> Prop) `{forall x, Decision (P x)} `{forall x, Decision (Q x)}
    (l : list A) :
  filter P (filter Q l) = filter Q (filter P l).
Proof.
  induction l as [|x l IH]; [reflexivity|].
  rewrite !filter_cons.
  destruct (decide (Q x)), (decide (P x)); rewrite ?filter_cons;
    rewrite ?decide_True by assumption; rewrite ?decide_False by assumption;
    rewrite IH; reflexivity.
Qed.

Lemma other_rows_kept cid data rows :
  filter (fun c => Db.candidate_id c <> cid) (retained utcnow (upsert utcnow cid data rows))
  = filter (fun c => Db.candidate_id c <> cid) (retained utcnow rows).
Proof.
  unfold retained. rewrite !(filter_swap (fun c => Db.candidate_id c <> cid)).
  rewrite upsert_others. reflexivity.
Qed.

End MoreStore.
(** * The host *)

Section MoreHost.

Import Bot Session.

Variable hash : string -> Z.
Variable str_of_list : list string -> string.
Variable utcnow : Z.
Variable db_raises : Db.db_op -> list Db.Candidate -> bool.

Local Abbreviation on_input := (App.on_user_input hash str_of_list utcnow db_raises).
Local Abbreviation save := (Db.save_candidate_data hash str_of_list utcnow db_raises).

Ltac run_host :=
  repeat (progress (cbv beta iota zeta delta
             [bind ret get modify lift App.on_chatbot App.on_data_handler
              App.set_chatbot App.set_data_handler App.set_conversation_started
              App.set_conversation_ended App.append_message];
           cbn [App.chatbot App.data_handler App.conversation_started
                App.conversation_ended App.messages fst snd])).

(** The keywords end a conversation wherever they occur in the input. *)
Lemma is_ending_iff user_input :
  App.is_ending user_input = true <->
  exists keyword pre post,
    keyword ∈ App.ending_keywords /\ lower user_input = pre +:+ keyword +:+ post.
Proof.
  unfold App.is_ending. rewrite existsb_exists. split.
  - intros (keyword & Hin & Hc). apply contains_app in Hc as (pre & post & Heq).
    exists keyword, pre, post. split; [apply list_elem_of_In, Hin | exact Heq].
  - intros (keyword & pre & post & Hin & Heq). exists keyword.
    split; [apply list_elem_of_In, Hin|]. apply contains_app. eauto.
Qed.

Lemma is_ending_context a s b :
  App.is_ending s = true -> App.is_ending (a +:+ s +:+ b) = true.
Proof.
  unfold App.is_ending. rewrite !existsb_exists.
  intros (keyword & Hin & Hc). exists keyword. split; [exact Hin|].
  rewrite !lower_app. apply contains_in_context, Hc.
Qed.

Lemma is_ending_strip s : App.is_ending (strip s) = true -> App.is_ending s = true.
Proof.
  intros H. destruct (strip_split s) as (a & b & Heq & _).
  rewrite Heq. apply is_ending_context, H.
Qed.

(** The pieces of a split are parts of the text. *)
Lemma split_parts sep s :
  match split sep s with
  | w :: ws =>
      (exists b, s = w +:+ b) /\ Forall (fun p => exists a b, s = a +:+ p +:+ b) ws
  | [] => False
  end.
Proof.
  induction s as [|c s IH]; cbn [split].
  - split; [exists ""; reflexivity | constructor].
  - destruct (Ascii.eqb c sep).
    + split; [exists (String c s); reflexivity|].
      destruct (split sep s) as [|w ws]; [contradiction|].
      destruct IH as [[b Hb] Hws]. constructor.
      * exists (String c ""), b. rewrite Hb at 1. reflexivity.
      * eapply Forall_impl; [exact Hws|]. cbn beta.
        intros p (a & b' & Hp). exists (String c a), b'. rewrite Hp at 1. reflexivity.
    + destruct (split sep s) as [|w ws]; [contradiction|].
      destruct IH as [[b Hb] Hws]. split.
      * exists b. rewrite Hb at 1. reflexivity.
      * eapply Forall_impl; [exact Hws|]. cbn beta.
        intros p (a & b' & Hp). exists (String c a), b'. rewrite Hp at 1. reflexivity.
Qed.

Lemma split_substrings sep s :
  Forall (fun p => exists a b, s = a +:+ p +:+ b) (split sep s).
Proof.
  pose proof (split_parts sep s) as H.
  destruct (split sep s) as [|w ws]; [contradiction|].
  destruct H as [[b Hb] Hws]. constructor; [|exact Hws].
  exists "", b. exact Hb.
Qed.

Lemma years_keyword_free years :
  (0 <= years <= 50)%Z -> App.is_ending (str_of_int years +:+ " years") = false.
Proof.
  intros Hyears.
  assert (forallb (fun n => negb (App.is_ending (str_of_int (Z.of_nat n) +:+ " years")))
            (seq 0 51) = true) as Hall by (vm_compute; reflexivity).
  rewrite forallb_forall in Hall.
  specialize (Hall (Z.to_nat years)). rewrite Z2Nat.id in Hall by lia.
  apply negb_true_iff, Hall, in_seq. lia.
Qed.

(** What a handler stores for an input without an ending keyword holds none. *)
Lemma assigned_keyword_free f inp v :
  App.is_ending inp = false -> assigned f (strip inp) v -> keyword_free v.
Proof.
  intros Hfree.
  assert (App.is_ending (strip inp) = false) as Hstrip.
  { destruct (App.is_ending (strip inp)) eqn:H; [|reflexivity].
    apply is_ending_strip in H. congruence. }
  unfold assigned.
  intros [(_ & -> & _) | [(_ & -> & _) | [(_ & -> & _)
          | [(_ & years_match & years & _ & _ & Hyears & ->)
            | [(_ & -> & _) | (_ & -> & _)]]]]];
    cbn [keyword_free]; try exact Hstrip.
  - apply years_keyword_free, Hyears.
  - apply Forall_forall. intros tech Htech.
    apply list_elem_of_filter in Htech as [_ Htech].
    apply list_elem_of_fmap in Htech as (p & -> & Hp).
    pose proof (split_substrings "," (strip inp)) as Hparts.
    rewrite Forall_forall in Hparts. destruct (Hparts p Hp) as (a & b & Heq).
    destruct (App.is_ending (strip p)) eqn:H; [|reflexivity].
    apply is_ending_strip in H. apply (is_ending_context a p b) in H.
    rewrite <- Heq in H. congruence.
Qed.

(** A run of the script on a chat input: nothing happens, or the input ends
    the conversation, or it is given to the chatbot. *)
Lemma turn_cases user_input st :
  ((App.conversation_started st = false \/ App.conversation_ended st = true
    \/ user_input = "")
   /\ on_input user_input st = (Ok tt, st))
  \/ (App.conversation_started st = true /\ App.conversation_ended st = false
      /\ user_input <> "" /\ App.is_ending user_input = true
      /\ exists db,
           on_input user_input st
           = (Ok tt,
              {| App.chatbot := snd (end_conversation (App.chatbot st));
                 App.data_handler := db;
                 App.conversation_started := true;
                 App.conversation_ended := true;
                 App.messages :=
                   (App.messages st ++ [("user", user_input)])
                   ++ [("assistant",
                        match fst (end_conversation (App.chatbot st)) with
                        | Ok farewell_message => farewell_message
                        | Raise _ => ""
                        end)] |})
           /\ db = (if dict_truthy (candidate_data (App.chatbot st))
                    then snd (save (handed_over (App.chatbot st)) (App.data_handler st))
                    else App.data_handler st))
  \/ (App.conversation_started st = true /\ App.conversation_ended st = false
      /\ user_input <> "" /\ App.is_ending user_input = false
      /\ App.chatbot (snd (on_input user_input st))
         = snd (process_input user_input (App.chatbot st))
      /\ App.data_handler (snd (on_input user_input st)) = App.data_handler st
      /\ App.conversation_started (snd (on_input user_input st)) = true
      /\ App.conversation_ended (snd (on_input user_input st)) = false).
Proof.
  unfold App.on_user_input. destruct st as [bot db started ended msgs]. run_host.
  destruct started; [|left; auto].
  destruct ended; [left; auto|]. cbn [andb negb].
  destruct (truthy user_input) eqn:Ht; [|left; apply truthy_false in Ht; auto].
  apply truthy_true in Ht.
  destruct (App.is_ending user_input) eqn:Hend; run_host.
  - right; left. do 4 (split; [auto|]).
    unfold end_conversation. destruct bot as [g cs d qs i]. run_host.
    cbv beta iota zeta delta [bind modify get ret set_conversation_state candidate_data
                               technical_questions question_generator conversation_state
                               current_tech_index fst snd].
    unfold handed_over. cbn [technical_questions candidate_data].
    destruct (dict_truthy d); run_host.
    + pose proof (save_never_raises hash str_of_list utcnow db_raises
                    (<["technical_questions" := VList qs]> d) db) as Hsave.
      destruct (save (<["technical_questions" := VList qs]> d) db) as [[b|e] db'].
      * eexists. split; reflexivity.
      * exfalso. exact (Hsave e eq_refl).
    + eexists. split; reflexivity.
  - right; right. do 4 (split; [auto|]).
    destruct (process_input user_input bot) as [[response|e] bot']; run_host; auto.
Qed.

Lemma end_conversation_frame self :
  conversation_state (snd (end_conversation self)) = "ended"
  /\ candidate_data (snd (end_conversation self)) = candidate_data self
  /\ technical_questions (snd (end_conversation self)) = technical_questions self
  /\ question_generator (snd (end_conversation self)) = question_generator self.
Proof. destruct self. repeat split. Qed.

(** What the runs of the script keep: the cache holds questions, and no
    value of the record holds an ending keyword. *)
Lemma turn_keeps_keyword_free user_input st :
  cache_ok (question_generator (App.chatbot st)) ->
  (forall f v, candidate_data (App.chatbot st) !! f = Some v -> keyword_free v) ->
  cache_ok (question_generator (App.chatbot (snd (on_input user_input st))))
  /\ (forall f v,
        candidate_data (App.chatbot (snd (on_input user_input st))) !! f = Some v ->
        keyword_free v).
Proof.
  intros Hc Hfree.
  destruct (turn_cases user_input st)
    as [[_ ->] | [(_ & _ & _ & _ & db & -> & _) | (_ & _ & _ & Hend & Hbot & _)]].
  - auto.
  - cbn [snd App.chatbot].
    destruct (end_conversation_frame (App.chatbot st)) as (_ & -> & _ & ->). auto.
  - rewrite Hbot. split.
    + exact (proj1 (proj2 (step_of_call user_input (App.chatbot st))) Hc).
    + destruct (process_input_assigned user_input (App.chatbot st) Hc)
        as [[-> _] | (f & nxt & v & _ & -> & _ & Hv)]; [exact Hfree|].
      intros f' v' Hlook. destruct (decide (f = f')) as [<- | Hne].
      * rewrite lookup_insert_eq in Hlook. injection Hlook as <-.
        exact (assigned_keyword_free _ _ _ Hend Hv).
      * rewrite lookup_insert_ne in Hlook by exact Hne. exact (Hfree _ _ Hlook).
Qed.

Lemma turns_keep_keyword_free inputs : forall st,
  cache_ok (question_generator (App.chatbot st)) ->
  (forall f v, candidate_data (App.chatbot st) !! f = Some v -> keyword_free v) ->
  forall f v,
    candidate_data (App.chatbot (turns hash str_of_list utcnow db_raises inputs st)) !! f
    = Some v ->
    keyword_free v.
Proof.
  induction inputs as [|user_input inputs IH]; intros st Hc Hfree; [exact Hfree|].
  cbn [turns fold_left].
  destruct (turn_keeps_keyword_free user_input st Hc Hfree) as [Hc' Hfree'].
  exact (IH _ Hc' Hfree').
Qed.

Lemma save_invalid_unchanged data s :
  Db._validate_candidate_data data = Ok false -> save data s = (Ok false, s).
Proof.
  intros Hv. unfold Db.save_candidate_data, Db.try_except, bind, lift. rewrite Hv.
  reflexivity.
Qed.

(** Inputs without an ending keyword go to the chatbot, one call each. *)
Lemma turns_feed inputs : forall st,
  App.conversation_started st = true -> App.conversation_ended st = false ->
  Forall (fun user_input => App.is_ending user_input = false) inputs ->
  App.chatbot (turns hash str_of_list utcnow db_raises inputs st)
  = feed inputs (App.chatbot st)
  /\ App.data_handler (turns hash str_of_list utcnow db_raises inputs st)
     = App.data_handler st
  /\ App.conversation_started (turns hash str_of_list utcnow db_raises inputs st) = true
  /\ App.conversation_ended (turns hash str_of_list utcnow db_raises inputs st) = false.
Proof.
  induction inputs as [|user_input inputs IH]; intros st Hstarted Hended Hall.
  { cbn. auto. }
  apply Forall_cons in Hall as [Hfree Hall]. cbn [turns fold_left feed].
  destruct (turn_cases user_input st)
    as [[Hidle Hrun] | [(_ & _ & _ & Hend & _) | (_ & _ & _ & _ & Hbot & Hdb & Hs & He)]].
  - destruct Hidle as [Hidle | [Hidle | ->]]; [congruence | congruence |].
    rewrite Hrun. cbn [snd].
    rewrite (process_input_blank "" (App.chatbot st)) by reflexivity. cbn [snd].
    exact (IH st Hstarted Hended Hall).
  - congruence.
  - destruct (IH _ Hs He Hall) as (Hbot' & Hdb' & Hs' & He').
    fold (turns hash str_of_list utcnow db_raises inputs
            (snd (on_input user_input st))).
    rewrite Hbot', Hdb', Hbot, Hdb. auto.
Qed.

Lemma turns_snoc inputs user_input st :
  turns hash str_of_list utcnow db_raises (inputs ++ [user_input]) st
  = snd (on_input user_input (turns hash str_of_list utcnow db_raises inputs st)).
Proof. unfold turns. rewrite fold_left_app. reflexivity. Qed.

Lemma opened_started db :
  App.chatbot (opened db) = started
  /\ App.data_handler (opened db) = db
  /\ App.conversation_started (opened db) = true
  /\ App.conversation_ended (opened db) = false.
Proof. repeat split. Qed.

End MoreHost.
(** * The fallback questions *)

Section MoreFallback.

Import Bot.

Lemma fallback_match_first tech_lower pre key questions post :
  Forall (fun item => overlaps (fst item) tech_lower = false) pre ->
  overlaps key tech_lower = true ->
  fallback_match tech_lower (pre ++ (key, questions) :: post) = Some questions.
Proof.
  unfold overlaps. intros Hpre Hkey.
  induction pre as [|[k e] pre IH]; cbn [app fallback_match].
  - rewrite Hkey. reflexivity.
  - apply Forall_cons in Hpre as [Hk Hpre]. cbn [fst] in Hk. rewrite Hk. apply IH, Hpre.
Qed.

Lemma fallback_match_none tech_lower table :
  Forall (fun item => overlaps (fst item) tech_lower = false) table ->
  fallback_match tech_lower table = None.
Proof.
  unfold overlaps. induction 1 as [|[k e] table Hk _ IH]; cbn [fallback_match]; [reflexivity|].
  cbn [fst] in Hk. rewrite Hk. exact IH.
Qed.

Lemma fallback_match_elem tech_lower table questions :
  fallback_match tech_lower table = Some questions -> questions ∈ map snd table.
Proof.
  induction table as [|[k e] table IH]; cbn [fallback_match map snd]; [discriminate|].
  destruct (_ || _).
  - intros [= ->]. apply list_elem_of_here.
  - intros H. apply list_elem_of_further, IH, H.
Qed.

Lemma fallback_db_ok : Forall tier_ok (map snd fallback_db).
Proof.
  unfold fallback_db. cbn [map snd].
  repeat (apply Forall_cons_2; [split; [reflexivity | repeat constructor; discriminate]|]).
  apply Forall_nil_2.
Qed.

End MoreFallback.
(** ** Properties of the remaining code *)

Section Extras.

Import Bot Session.

(** X1: in state [name] the trimmed input is accepted exactly when it has 2
    to 50 characters, each an ASCII letter or a whitespace character; it is
    then stored unchanged as [name], the state becomes [email] and the reply
    greets by that name.  Any other input leaves the session as it is, and
    the reply to one that is not blank repeats the question. *)
Theorem name_accepted_iff_letters_and_whitespace
    (self : TalentScoutChatbot) (user_input : string) :
  conversation_state self = "name" ->
  ((2 <= len (strip user_input) <= 50
    /\ all_chars name_class (strip user_input)) ->
   exists msg self',
     process_input user_input self = (Ok msg, self')
     /\ self' = set_conversation_state "email"
                  (set_candidate_data "name" (VStr (strip user_input)) self)
     /\ candidate_data self' !! "name" = Some (VStr (strip user_input))
     /\ conversation_state self' = "email"
     /\ contains (strip user_input) msg = true)
  /\ (~ (2 <= len (strip user_input) <= 50
         /\ all_chars name_class (strip user_input)) ->
      exists msg,
        process_input user_input self = (Ok msg, self)
        /\ (strip user_input <> "" -> contains "**What's your full name?**" msg = true))
  /\ (forall ch,
        name_class ch = true <->
        (exists c, ch = String c "" /\ isalpha c = true) \/ isspace ch = true).
Proof.
  intros Hst. split; [|split; [|apply name_class_chars]]; intros Hname.
  - assert (truthy (strip user_input) = true) as Ht.
    { apply truthy_true. intros Heq. rewrite Heq in Hname. cbn in Hname. lia. }
    rewrite process_input_name by assumption. unfold _handle_name.
    rewrite (proj2 (name_match_iff user_input) Hname).
    unfold bind, modify, ret. eexists _, _. split; [reflexivity|].
    split; [reflexivity|]. split; [apply lookup_insert_eq|]. split; [reflexivity|].
    apply contains_app. eexists _, _. reflexivity.
  - destruct (truthy (strip user_input)) eqn:Ht.
    + rewrite process_input_name by assumption. unfold _handle_name.
      destruct (Re.match_text name_pattern (strip user_input)) eqn:Hm.
      { exfalso. apply Hname, name_match_iff, Hm. }
      unfold ret. eexists. split; [reflexivity|]. intros _. vm_compute. reflexivity.
    + rewrite process_input_blank by assumption. eexists. split; [reflexivity|].
      intros Hne. apply truthy_false in Ht. contradiction.
Qed.

Lemma name_accepted_iff_letters_and_whitespace_witness :
  exists msg self',
    process_input ("  Jane" +:+ no_break_space +:+ "Doe ") started = (Ok msg, self')
    /\ self' = set_conversation_state "email"
                 (set_candidate_data "name"
                    (VStr (strip ("  Jane" +:+ no_break_space +:+ "Doe "))) started)
    /\ candidate_data self' !! "name"
       = Some (VStr (strip ("  Jane" +:+ no_break_space +:+ "Doe ")))
    /\ conversation_state self' = "email"
    /\ contains (strip ("  Jane" +:+ no_break_space +:+ "Doe ")) msg = true.
Proof.
  apply (proj1 (name_accepted_iff_letters_and_whitespace started
                  ("  Jane" +:+ no_break_space +:+ "Doe ") eq_refl)).
  split; [vm_compute; lia | apply all_chars_check; vm_compute; reflexivity].
Defined.

(** X2: in state [email] the trimmed input is accepted exactly when it is a
    local part, [@], a domain, a dot and at least two letters, in the
    characters of the pattern's classes; it is then stored unchanged as
    [email] and the state becomes [phone].  Any other input leaves the
    session as it is, and the reply to one that is not blank repeats the
    question. *)
Theorem email_accepted_iff_shape (self : TalentScoutChatbot) (user_input : string) :
  conversation_state self = "email" ->
  (email_shape (list_ascii_of_string (strip user_input)) ->
   exists msg self',
     process_input user_input self = (Ok msg, self')
     /\ self' = set_conversation_state "phone"
                  (set_candidate_data "email" (VStr (strip user_input)) self)
     /\ candidate_data self' !! "email" = Some (VStr (strip user_input))
     /\ conversation_state self' = "phone")
  /\ (~ email_shape (list_ascii_of_string (strip user_input)) ->
      exists msg,
        process_input user_input self = (Ok msg, self)
        /\ (strip user_input <> "" ->
            contains "**What's your email address?**" msg = true)).
Proof.
  intros Hst. split; intros Hshape.
  - assert (truthy (strip user_input) = true) as Ht.
    { apply truthy_true. intros Heq. rewrite Heq in Hshape.
      destruct Hshape as (l & d & t & H & _). destruct l; discriminate H. }
    rewrite process_input_email by assumption. unfold _handle_email.
    rewrite (proj2 (email_match_iff user_input) Hshape).
    unfold bind, modify, ret. eexists _, _. split; [reflexivity|].
    split; [reflexivity|]. split; [apply lookup_insert_eq | reflexivity].
  - destruct (truthy (strip user_input)) eqn:Ht.
    + rewrite process_input_email by assumption. unfold _handle_email.
      destruct (Re.match_anchored email_pattern (strip user_input)) eqn:Hm.
      { exfalso. apply Hshape, email_match_iff, Hm. }
      unfold ret. eexists. split; [reflexivity|]. intros _. vm_compute. reflexivity.
    + rewrite process_input_blank by assumption. eexists. split; [reflexivity|].
      intros Hne. apply truthy_false in Ht. contradiction.
Qed.

Lemma email_accepted_iff_shape_witness :
  exists msg self',
    process_input (ideographic_space +:+ "jane@x.com")
      (set_conversation_state "email" started)
    = (Ok msg, self')
    /\ self' = set_conversation_state "phone"
                 (set_candidate_data "email"
                    (VStr (strip (ideographic_space +:+ "jane@x.com")))
                    (set_conversation_state "email" started))
    /\ candidate_data self' !! "email"
       = Some (VStr (strip (ideographic_space +:+ "jane@x.com")))
    /\ conversation_state self' = "phone".
Proof.
  apply (proj1 (email_accepted_iff_shape (set_conversation_state "email" started)
                  (ideographic_space +:+ "jane@x.com") eq_refl)).
  exists (list_ascii_of_string "jane"), (list_ascii_of_string "x"),
    (list_ascii_of_string "com").
  split; [vm_compute; reflexivity|].
  repeat split; try discriminate; try (cbn; lia); repeat constructor.
Defined.

(** X3: in state [tech_stack] an input of nothing but whitespace and commas
    is refused and changes nothing.  Any other input is accepted: the
    comma-separated pieces that are not blank are stored, trimmed and in
    their order, as [tech_stack], each of them not empty, without a comma
    and without whitespace at either end; the state becomes
    [technical_questions], the index 0, and the first question is asked in
    the same call. *)
Theorem tech_stack_tokens (self : TalentScoutChatbot) (user_input : string) :
  conversation_state self = "tech_stack" ->
  cache_ok (question_generator self) ->
  let techs :=
    filter (fun tech => truthy tech = true) (map strip (split "," (strip user_input))) in
  (all_chars blank_or_comma user_input ->
   exists msg, process_input user_input self = (Ok msg, self))
  /\ (~ all_chars blank_or_comma user_input ->
      techs <> []
      /\ Forall trimmed_token techs
      /\ exists msg q g' self',
           process_input user_input self = (Ok msg, self')
           /\ self' = append_technical_question q
                        (set_question_generator g'
                           (set_current_tech_index 0
                              (set_conversation_state "technical_questions"
                                 (set_candidate_data "tech_stack" (VList techs) self))))
           /\ candidate_data self' !! "tech_stack" = Some (VList techs)
           /\ conversation_state self' = "technical_questions"
           /\ current_tech_index self' = 0
           /\ technical_questions self' = technical_questions self ++ [q]
           /\ q <> "").
Proof.
  intros Hst Hc techs. split; intros Hblank.
  - apply tech_stack_reject; [exact Hst|].
    apply tech_tokens_none, all_chars_blank_or_comma_strip, Hblank.
  - assert (techs <> []) as Hne.
    { intros Hnone. apply Hblank, all_chars_blank_or_comma_strip, tech_tokens_none, Hnone. }
    split; [exact Hne|]. split; [apply tech_tokens_trimmed|].
    destruct (tech_stack_accept self user_input Hst Hc Hne) as (msg & q & g' & Hrun & Hq).
    exists msg, q, g'. eexists. split; [exact Hrun|]. split; [reflexivity|].
    split; [apply lookup_insert_eq|]. repeat split. exact Hq.
Qed.

Lemma tech_stack_tokens_witness :
  exists msg q g' self',
    process_input "Python, React , , Docker" (set_conversation_state "tech_stack" started)
    = (Ok msg, self')
    /\ self' = append_technical_question q
                 (set_question_generator g'
                    (set_current_tech_index 0
                       (set_conversation_state "technical_questions"
                          (set_candidate_data "tech_stack"
                             (VList ["Python"; "React"; "Docker"])
                             (set_conversation_state "tech_stack" started)))))
    /\ candidate_data self' !! "tech_stack" = Some (VList ["Python"; "React"; "Docker"])
    /\ conversation_state self' = "technical_questions"
    /\ current_tech_index self' = 0
    /\ technical_questions self'
       = technical_questions (set_conversation_state "tech_stack" started) ++ [q]
    /\ q <> "".
Proof.
  apply (proj2 (tech_stack_tokens (set_conversation_state "tech_stack" started)
                  "Python, React , , Docker" eq_refl cache_ok_init)).
  apply all_chars_refute. vm_compute. reflexivity.
Defined.

(** X4: every technology gets exactly three questions.  On a session
    started once, no question is asked before the quiz; during it the
    index points into the tech stack and [3 * index + k] questions have
    been asked, [k] of them (1 to 3) on the current technology; once the
    state is [completed] there are three questions per technology. *)
Theorem three_questions_per_technology (inputs : list string) :
  let self := feed inputs started in
  (conversation_state self = "completed" ->
   exists tech_stack,
     candidate_data self !! "tech_stack" = Some (VList tech_stack)
     /\ length (technical_questions self) = 3 * length tech_stack)
  /\ (conversation_state self = "technical_questions" ->
      exists tech_stack k,
        candidate_data self !! "tech_stack" = Some (VList tech_stack)
        /\ current_tech_index self < length tech_stack
        /\ 1 <= k <= 3
        /\ length (technical_questions self) = 3 * current_tech_index self + k)
  /\ (conversation_state self ∈ fields -> technical_questions self = [])
  /\ conversation_state self ∈ fields ++ ["technical_questions"; "completed"].
Proof.
  cbv zeta.
  pose proof (reachable_quiz_progress _ (reachable_feed inputs started reach_start)) as Hq.
  assert (forall st, st ∈ fields -> st <> "technical_questions" /\ st <> "completed") as Hf.
  { intros st Hst. split; intros ->; revert Hst;
      apply (proj1 (bool_decide_eq_false _)); vm_compute; reflexivity. }
  destruct Hq as [[Hst Hqs] | [[Hst Hquiz] | [Hst Hdone]]].
  - destruct (Hf _ Hst) as [Hn1 Hn2].
    split; [intros; contradiction|]. split; [intros; contradiction|].
    split; [auto|]. apply elem_of_app. left. exact Hst.
  - split; [intros H; congruence|]. split; [intros _; exact Hquiz|].
    split; [intros H; destruct (Hf _ H); contradiction|].
    rewrite Hst. apply (proj1 (bool_decide_spec _)). vm_compute. exact I.
  - split; [intros _; exact Hdone|]. split; [intros H; congruence|].
    split; [intros H; destruct (Hf _ H); contradiction|].
    rewrite Hst. apply (proj1 (bool_decide_spec _)). vm_compute. exact I.
Qed.

Lemma three_questions_per_technology_witness :
  exists tech_stack,
    candidate_data
      (feed (profile_inputs ++ ["a"; "b"; "c"; "d"; "e"; "f"]) started) !! "tech_stack"
    = Some (VList tech_stack)
    /\ length (technical_questions
                 (feed (profile_inputs ++ ["a"; "b"; "c"; "d"; "e"; "f"]) started))
       = 3 * length tech_stack.
Proof.
  apply (proj1 (three_questions_per_technology
                  (profile_inputs ++ ["a"; "b"; "c"; "d"; "e"; "f"]))).
  vm_compute. reflexivity.
Defined.

(** X5: [start_conversation] resets nothing but the state.  Called again
    in the middle of a session it keeps the record, the asked questions,
    the index and the cache, and the next valid name replaces the name the
    record holds: the fields are written once only in a session started
    once. *)
Theorem restart_keeps_record_and_reopens_name
    (self : TalentScoutChatbot) (user_input : string) :
  2 <= len (strip user_input) <= 50 ->
  all_chars name_class (strip user_input) ->
  let restarted := snd (start_conversation self) in
  restarted = set_conversation_state "name" self
  /\ candidate_data (snd (process_input user_input restarted))
     = <["name" := VStr (strip user_input)]> (candidate_data self)
  /\ technical_questions (snd (process_input user_input restarted))
     = technical_questions self.
Proof.
  intros Hlen Hchars restarted.
  assert (truthy (strip user_input) = true) as Ht.
  { apply truthy_true. intros Heq. rewrite Heq in Hlen. cbn in Hlen. lia. }
  split; [reflexivity|].
  subst restarted. unfold start_conversation, bind, modify, ret. cbn [snd].
  rewrite process_input_name; [|reflexivity | exact Ht].
  unfold _handle_name.
  rewrite (proj2 (name_match_iff user_input) (conj Hlen Hchars)).
  split; reflexivity.
Qed.

Lemma restart_keeps_record_and_reopens_name_witness :
  candidate_data
    (snd (process_input "Grace Hopper"
            (snd (start_conversation (feed ["Jane Doe"; "jane@x.com"] started)))))
    !! "name" = Some (VStr "Grace Hopper").
Proof.
  rewrite (proj1 (proj2 (restart_keeps_record_and_reopens_name
                           (feed ["Jane Doe"; "jane@x.com"] started) "Grace Hopper"
                           ltac:(vm_compute; lia)
                           ltac:(apply all_chars_check; vm_compute; reflexivity)))).
  apply lookup_insert_eq.
Defined.

(** X6: an input is blank for [process_input] exactly when all its
    characters are whitespace; in every state, the quiz included, such an
    input is answered with the no-input message and changes nothing, so it
    is not taken for an answer. *)
Theorem blank_input_changes_nothing (self : TalentScoutChatbot) (user_input : string) :
  (strip user_input = "" <-> all_chars isspace user_input)
  /\ (all_chars isspace user_input ->
      process_input user_input self = (Ok no_input_message, self)).
Proof.
  split; [apply strip_blank|].
  intros H. apply process_input_blank, truthy_false, strip_blank, H.
Qed.

Lemma blank_input_changes_nothing_witness :
  process_input (" " +:+ nl +:+ ideographic_space +:+ no_break_space)
    (feed profile_inputs started)
  = (Ok no_input_message, feed profile_inputs started).
Proof.
  apply (proj2 (blank_input_changes_nothing (feed profile_inputs started)
                  (" " +:+ nl +:+ ideographic_space +:+ no_break_space))).
  apply all_chars_check. vm_compute. reflexivity.
Defined.

(** X7: a question that [generate_question] returned for a technology in
    ASCII characters is kept in the cache under the lowercase technology
    and the question number.  The call removes no entry of the cache, and
    every later call with the same number and an ASCII technology of the
    same lowercase spelling returns that same question without changing the
    generator, whatever the spelling. *)
Theorem question_cached_under_lowercase_key
    (g g' : Gen.AIQuestionGenerator) (technology : string) (question_number : Z)
    (q : string) :
  ascii_text technology ->
  Gen.generate_question technology question_number g = (Ok (Some q), g') ->
  Gen.question_cache g' !! Gen.cache_key technology question_number = Some q
  /\ Gen.question_cache g' !! (lower technology +:+ "_" +:+ str_of_int question_number)
     = Some q
  /\ Gen.question_cache g ⊆ Gen.question_cache g'
  /\ (forall technology',
        ascii_text technology' ->
        lower technology' = lower technology ->
        Gen.generate_question technology' question_number g' = (Ok (Some q), g')).
Proof.
  intros _ Hrun. destruct (generate_question_cache _ _ _ _ _ Hrun) as [Hkey Hkeep].
  split; [exact Hkey|]. split; [exact Hkey|]. split; [exact Hkeep|].
  intros technology' _ Hlow. apply generate_question_hit.
  unfold Gen.cache_key in *. rewrite Hlow. exact Hkey.
Qed.

Lemma question_cached_under_lowercase_key_witness :
  Gen.generate_question "RUST" 1
    (snd (Gen.generate_question "Rust" 1 Gen.init))
  = (Ok (Some "What are the fundamental concepts you should know when working with Rust?"),
     snd (Gen.generate_question "Rust" 1 Gen.init)).
Proof.
  apply (proj2 (proj2 (proj2 (question_cached_under_lowercase_key Gen.init
                         (snd (Gen.generate_question "Rust" 1 Gen.init)) "Rust" 1 _
                         ltac:(apply all_bytes_check; vm_compute; reflexivity)
                         ltac:(vm_compute; reflexivity))))).
  - apply all_bytes_check. vm_compute. reflexivity.
  - reflexivity.
Defined.

(** X8: a technology whose lowercase spelling is a key of the question
    bank is served from the entry of that key, also when an earlier key of
    the bank contains it (java is served from java, not from javascript):
    the question is the one of the tier of the question number at position
    [(question_number - 1) mod 3]. *)
Theorem exact_key_is_served_first
    (prompt technology : string) (question_number : Z)
    (entry : list (string * list string)) :
  Gen.assoc (lower technology) Gen.tech_questions = Some entry ->
  exists q,
    Gen._generate_with_simple_ai prompt technology question_number = Ok (Some q)
    /\ served_from entry question_number q.
Proof.
  intros Hassoc.
  destruct (entry_question entry question_number (assoc_tiers _ _ Hassoc))
    as (q & Hserved & Hne & Hrot).
  exists q. split; [|exact Hserved].
  unfold Gen._generate_with_simple_ai. cbv zeta. rewrite Hassoc, Hne, Hrot. reflexivity.
Qed.

Lemma exact_key_is_served_first_witness :
  exists q,
    Gen._generate_with_simple_ai "" "Java" 3 = Ok (Some q)
    /\ served_from (default [] (Gen.assoc "java" Gen.tech_questions)) 3 q.
Proof.
  apply (exact_key_is_served_first "" "Java" 3). vm_compute. reflexivity.
Defined.

(** X9: a technology in ASCII characters whose lowercase spelling is no key
    of the bank is served from the first key, in the order of the bank, that
    is contained in the spelling or contains it: the partial matching takes
    the first overlap, not the best one, so that Go is served from
    mongodb. *)
Theorem first_overlapping_key_is_served
    (prompt technology : string) (question_number : Z)
    (pre post : list (string * list (string * list string)))
    (key : string) (entry : list (string * list string)) :
  ascii_text technology ->
  Gen.tech_questions = pre ++ (key, entry) :: post ->
  Gen.assoc (lower technology) Gen.tech_questions = None ->
  Forall (fun item => overlaps (fst item) (lower technology) = false) pre ->
  overlaps key (lower technology) = true ->
  exists q,
    Gen._generate_with_simple_ai prompt technology question_number = Ok (Some q)
    /\ served_from entry question_number q.
Proof.
  intros _ Hbank Hassoc Hpre Hkey.
  assert (three_tiers entry) as Htiers.
  { pose proof tech_questions_tiers as Hall. rewrite Hbank in Hall.
    apply Forall_app in Hall as [_ Hall]. apply Forall_cons in Hall as [Hall _].
    exact Hall. }
  destruct (entry_question entry question_number Htiers) as (q & Hserved & Hne & Hrot).
  exists q. split; [|exact Hserved].
  unfold Gen._generate_with_simple_ai. cbv zeta. rewrite Hassoc.
  rewrite Hbank at 1.
  rewrite (partial_match_first _ _ _ pre key entry post Hpre Hkey Hne), Hrot.
  reflexivity.
Qed.

Lemma first_overlapping_key_is_served_witness :
  exists q,
    Gen._generate_with_simple_ai "" "Go" 1 = Ok (Some q)
    /\ served_from (default [] (Gen.assoc "mongodb" Gen.tech_questions)) 1 q.
Proof.
  apply (first_overlapping_key_is_served "" "Go" 1
           (take 6 Gen.tech_questions) (drop 7 Gen.tech_questions) "mongodb").
  - apply all_bytes_check. vm_compute. reflexivity.
  - vm_compute. reflexivity.
  - vm_compute. reflexivity.
  - repeat constructor.
  - vm_compute. reflexivity.
Defined.

(** X10: a technology in ASCII characters that overlaps with no key of the
    bank gets a generic question: one of the three of the tier of the
    question number, at position [(question_number - 1) mod 3], and it
    mentions the technology as it was typed. *)
Theorem unknown_technology_gets_generic_question
    (prompt technology : string) (question_number : Z) :
  ascii_text technology ->
  Forall (fun item => overlaps (fst item) (lower technology) = false) Gen.tech_questions ->
  exists q,
    Gen._generate_with_simple_ai prompt technology question_number = Ok (Some q)
    /\ served_from (Gen.generic_questions technology) question_number q
    /\ contains technology q = true.
Proof.
  intros _ Hnone.
  destruct (entry_question _ question_number (generic_questions_tiers technology))
    as (q & Hserved & _ & Hrot).
  exists q. split; [|split; [exact Hserved|]].
  - destruct Hserved as (questions & Hassoc & _ & _).
    unfold Gen._generate_with_simple_ai. cbv zeta.
    rewrite (assoc_none_of_no_overlap _ _ Hnone), (partial_match_none _ _ _ _ Hnone).
    rewrite (dict_get_default _ _ _ [] Hassoc) in Hrot.
    change (Gen.assoc "intermediate" (Gen.generic_questions technology))
      with (Some (default [] (Gen.assoc "intermediate" (Gen.generic_questions technology)))).
    cbv iota. rewrite (dict_get_default _ _ _ _ Hassoc), Hrot. reflexivity.
  - destruct Hserved as (questions & Hassoc & _ & Hq).
    apply (generic_mentions technology _ questions q Hassoc).
    apply list_elem_of_lookup. eexists. exact Hq.
Qed.

Lemma unknown_technology_gets_generic_question_witness :
  exists q,
    Gen._generate_with_simple_ai "" "Rust" 2 = Ok (Some q)
    /\ served_from (Gen.generic_questions "Rust") 2 q
    /\ contains "Rust" q = true.
Proof.
  apply (unknown_technology_gets_generic_question "" "Rust" 2).
  - apply all_bytes_check. vm_compute. reflexivity.
  - repeat constructor.
Defined.

(** X11: on a session started once the record holds exactly the fields
    asked for before the current state, and each holds a value its handler
    accepts: a name of 2 to 50 letters and whitespace characters, an email
    of the shape of the pattern, a phone of 8 to 20 phone characters after
    an optional [+], an experience of the form [N years] with N from 0 to
    50, a position and a location of at least 2 characters, and a tech
    stack that is a non-empty list of trimmed, non-empty tokens. *)
Theorem record_holds_the_fields_asked_so_far (inputs : list string) :
  let self := feed inputs started in
  (forall f,
     is_Some (candidate_data self !! f) <-> f ∈ collected_fields (conversation_state self))
  /\ (forall f v, candidate_data self !! f = Some v -> field_ok f v).
Proof.
  cbv zeta.
  pose proof (reachable_record_ok _ (reachable_feed inputs started reach_start)) as Hrec.
  split; [intros f; apply record_ok_fields, Hrec | apply Hrec].
Qed.

Lemma record_holds_the_fields_asked_so_far_witness :
  field_ok "email" (VStr "jane@x.com").
Proof.
  apply (proj2 (record_holds_the_fields_asked_so_far ["Jane Doe"; "jane@x.com"]) "email").
  vm_compute. reflexivity.
Defined.

(** X12: the record the host hands to the store, the candidate record with
    the asked questions under [technical_questions], passes
    [_validate_candidate_data] in every state after [email] of a session
    started once, and is answered [False] without an exception in the
    states [name] and [email]. *)
Theorem record_passes_validation_after_email (inputs : list string) :
  let self := feed inputs started in
  let record :=
    <["technical_questions" := VList (technical_questions self)]> (candidate_data self) in
  (conversation_state self ∈ ["name"; "email"] ->
   Db._validate_candidate_data record = Ok false)
  /\ (conversation_state self ∉ ["name"; "email"] ->
      Db._validate_candidate_data record = Ok true).
Proof.
  cbv zeta.
  pose proof (reachable_feed inputs started reach_start) as Hreach.
  rewrite (record_validation _ _ (reachable_record_ok _ Hreach) (reachable_state _ Hreach)).
  split; intros Hst.
  - rewrite bool_decide_eq_true_2 by exact Hst. reflexivity.
  - rewrite bool_decide_eq_false_2 by exact Hst. reflexivity.
Qed.

Lemma record_passes_validation_after_email_witness :
  Db._validate_candidate_data
    (<["technical_questions" := VList (technical_questions (feed ["Jane Doe"] started))]>
       (candidate_data (feed ["Jane Doe"] started)))
  = Ok false.
Proof.
  apply (proj1 (record_passes_validation_after_email ["Jane Doe"])).
  apply (proj1 (bool_decide_spec _)). vm_compute. exact I.
Defined.

(** X13: save and read back.  When the database raises nothing, a
    validated record is saved, and [get_candidate_summary] on its id then
    returns the fields of the record, with the creation time of the row:
    that of the row of that id if there was one (the row is updated, whoever
    it belonged to), the time of the save otherwise; provided the row that
    is updated is not older than the retention time. *)
Theorem saved_candidate_is_found
    (hash : string -> Z) (str_of_list : list string -> string) (utcnow : Z)
    (db_raises : Db.db_op -> list Db.Candidate -> bool)
    (data : gmap string value) (s : Db.Session) :
  (forall op rows, db_raises op rows = false) ->
  Db._validate_candidate_data data = Ok true ->
  (forall c,
     head (filter (fun c => Db.candidate_id c
                            = Db._generate_candidate_id hash str_of_list data)
             (Db.staged s)) = Some c ->
     ~ (Db.created_at c < utcnow - Db.data_retention_days * 86400)%Z) ->
  exists s',
    Db.save_candidate_data hash str_of_list utcnow db_raises data s = (Ok true, s')
    /\ Db.get_candidate_summary db_raises (Db._generate_candidate_id hash str_of_list data) s'
       = (Ok (Some (summary_of (Db._generate_candidate_id hash str_of_list data) data
                      (created_of utcnow (Db._generate_candidate_id hash str_of_list data)
                         (Db.staged s)))),
          s').
Proof.
  intros Hdb Hv Hfresh. eexists. split; [apply save_runs; assumption|].
  rewrite summary_runs by exact Hdb. cbn [Db.staged].
  rewrite (upsert_found utcnow _ data (Db.staged s) Hfresh). reflexivity.
Qed.

Lemma saved_candidate_is_found_witness :
  exists s',
    Db.save_candidate_data (fun _ => 42%Z) (fun _ => "") 1000 (fun _ _ => false)
      {[ "name" := VStr "Jane Doe"; "email" := VStr "jane@x.com" ]}
      {| Db.stored := []; Db.staged := [] |}
    = (Ok true, s')
    /\ Db.get_candidate_summary (fun _ _ => false) "42" s'
       = (Ok (Some (summary_of "42"
                      {[ "name" := VStr "Jane Doe"; "email" := VStr "jane@x.com" ]} 1000)),
          s').
Proof.
  apply (saved_candidate_is_found (fun _ => 42%Z) (fun _ => "") 1000 (fun _ _ => false)
           {[ "name" := VStr "Jane Doe"; "email" := VStr "jane@x.com" ]}
           {| Db.stored := []; Db.staged := [] |}).
  - intros op rows. reflexivity.
  - vm_compute. reflexivity.
  - intros c Hc. discriminate Hc.
Defined.

(** X14: an update can lose the candidate.  When the row of the id exists
    and was created before the retention limit, [save_candidate_data]
    updates it, returns [True], and the cleanup that follows deletes the
    row it has just updated: with ids unique, no row of the id is left and
    [get_candidate_summary] returns [None]. *)
Theorem update_of_expired_row_is_lost
    (hash : string -> Z) (str_of_list : list string -> string) (utcnow : Z)
    (db_raises : Db.db_op -> list Db.Candidate -> bool)
    (data : gmap string value) (s : Db.Session) (c : Db.Candidate) :
  (forall op rows, db_raises op rows = false) ->
  Db._validate_candidate_data data = Ok true ->
  NoDup (Db.candidate_id <$> Db.staged s) ->
  head (filter (fun c => Db.candidate_id c
                         = Db._generate_candidate_id hash str_of_list data)
          (Db.staged s)) = Some c ->
  (Db.created_at c < utcnow - Db.data_retention_days * 86400)%Z ->
  exists s',
    Db.save_candidate_data hash str_of_list utcnow db_raises data s = (Ok true, s')
    /\ filter (fun c => Db.candidate_id c
                        = Db._generate_candidate_id hash str_of_list data)
         (Db.stored s') = []
    /\ Db.get_candidate_summary db_raises (Db._generate_candidate_id hash str_of_list data) s'
       = (Ok None, s').
Proof.
  intros Hdb Hv Hnd Hhead Hstale. eexists. split; [apply save_runs; assumption|].
  pose proof (upsert_stale utcnow _ data (Db.staged s) c Hnd Hhead Hstale) as Hnone.
  split; [exact Hnone|].
  rewrite summary_runs by exact Hdb. cbn [Db.staged]. rewrite Hnone. reflexivity.
Qed.

Lemma update_of_expired_row_is_lost_witness :
  exists s',
    Db.save_candidate_data (fun _ => 42%Z) (fun _ => "") 10000000 (fun _ _ => false)
      {[ "name" := VStr "Jane Doe"; "email" := VStr "jane@x.com" ]}
      {| Db.stored := [Db.row_of 0 "42" ∅ 0]; Db.staged := [Db.row_of 0 "42" ∅ 0] |}
    = (Ok true, s')
    /\ filter (fun c => Db.candidate_id c = "42") (Db.stored s') = []
    /\ Db.get_candidate_summary (fun _ _ => false) "42" s' = (Ok None, s').
Proof.
  apply (update_of_expired_row_is_lost (fun _ => 42%Z) (fun _ => "") 10000000
           (fun _ _ => false)
           {[ "name" := VStr "Jane Doe"; "email" := VStr "jane@x.com" ]}
           {| Db.stored := [Db.row_of 0 "42" ∅ 0]; Db.staged := [Db.row_of 0 "42" ∅ 0] |}
           (Db.row_of 0 "42" ∅ 0)).
  - intros op rows. reflexivity.
  - vm_compute. reflexivity.
  - cbn. apply NoDup_singleton.
  - vm_compute. reflexivity.
  - vm_compute. reflexivity.
Defined.

(** X15: whatever the database does (any operation may raise), the
    methods of the handler let no exception escape and keep the store
    sound: no transaction is left open and no two stored rows share a
    candidate id.  A save or a deletion that returns [False] leaves the
    stored rows as they were, and reading a summary changes nothing. *)
Theorem store_stays_sound_under_failures
    (hash : string -> Z) (str_of_list : list string -> string) (utcnow : Z)
    (db_raises : Db.db_op -> list Db.Candidate -> bool)
    (data : gmap string value) (cid : string) (s : Db.Session) :
  store_ok s ->
  (exists b s',
      Db.save_candidate_data hash str_of_list utcnow db_raises data s = (Ok b, s')
      /\ store_ok s' /\ (b = false -> Db.stored s' = Db.stored s))
  /\ (exists b s',
         Db.delete_candidate_data db_raises cid s = (Ok b, s')
         /\ store_ok s' /\ (b = false -> Db.stored s' = Db.stored s))
  /\ (exists s',
         Db._cleanup_old_data utcnow db_raises s = (Ok tt, s') /\ store_ok s')
  /\ (exists r, Db.get_candidate_summary db_raises cid s = (Ok r, s)).
Proof.
  intros Hok. split; [|split; [|split]].
  - pose proof (save_store_ok hash str_of_list utcnow db_raises data s Hok) as Hok'.
    destruct (save_any hash str_of_list utcnow db_raises data s (proj1 Hok))
      as (b & s' & Hrun & _ & Hrows).
    rewrite Hrun in Hok'. exists b, s'. split; [exact Hrun|]. split; [exact Hok'|].
    intros ->. exact Hrows.
  - pose proof (delete_store_ok db_raises cid s Hok) as Hok'.
    destruct (delete_any db_raises cid s (proj1 Hok)) as (b & Hr & _ & Hrows).
    destruct (Db.delete_candidate_data db_raises cid s) as [r s'].
    cbn [fst snd] in *. subst r. exists b, s'. split; [reflexivity|].
    split; [exact Hok'|]. intros ->. exact Hrows.
  - pose proof (cleanup_store_ok utcnow db_raises s Hok) as Hok'.
    destruct (cleanup_any utcnow db_raises s (proj1 Hok)) as (Hr & _).
    destruct (Db._cleanup_old_data utcnow db_raises s) as [r s'].
    cbn [fst snd] in *. subst r. exists s'. auto.
  - destruct (summary_keeps db_raises cid s) as [Hs [r Hr]].
    destruct (Db.get_candidate_summary db_raises cid s) as [r' s'].
    cbn [fst snd] in *. subst. eauto.
Qed.

Lemma store_stays_sound_under_failures_witness :
  exists b s',
    Db.save_candidate_data (fun _ => 42%Z) (fun _ => "") 1000 (fun _ _ => true)
      {[ "name" := VStr "Jane Doe"; "email" := VStr "jane@x.com" ]}
      {| Db.stored := []; Db.staged := [] |}
    = (Ok b, s')
    /\ store_ok s' /\ (b = false -> Db.stored s' = []).
Proof.
  apply (store_stays_sound_under_failures (fun _ => 42%Z) (fun _ => "") 1000
           (fun _ _ => true)
           {[ "name" := VStr "Jane Doe"; "email" := VStr "jane@x.com" ]} ""
           {| Db.stored := []; Db.staged := [] |}).
  split; [reflexivity | apply NoDup_nil_2].
Defined.

(** X16: erasure.  When the database raises nothing and no transaction is
    open, [delete_candidate_data] returns [True] exactly when a stored row
    has the id; afterwards the stored rows are those of the other ids, in
    their order, and [get_candidate_summary] on the id returns [None]. *)
Theorem delete_removes_the_candidate
    (db_raises : Db.db_op -> list Db.Candidate -> bool) (cid : string) (s : Db.Session) :
  (forall op rows, db_raises op rows = false) ->
  Db.staged s = Db.stored s ->
  exists s',
    Db.delete_candidate_data db_raises cid s
    = (Ok (bool_decide (cid ∈ Db.candidate_id <$> Db.stored s)), s')
    /\ Db.stored s' = filter (fun c => Db.candidate_id c <> cid) (Db.stored s)
    /\ Db.get_candidate_summary db_raises cid s' = (Ok None, s').
Proof.
  intros Hdb Hopen. eexists. split; [apply delete_runs; assumption|].
  split; [reflexivity|].
  rewrite summary_runs by exact Hdb. cbn [Db.staged].
  rewrite filter_none; [reflexivity|].
  rewrite Forall_forall. intros c Hc. apply list_elem_of_filter in Hc as [Hc _]. exact Hc.
Qed.

Lemma delete_removes_the_candidate_witness :
  exists s',
    Db.delete_candidate_data (fun _ _ => false) "42"
      {| Db.stored := [Db.row_of 0 "42" ∅ 0; Db.row_of 0 "7" ∅ 0];
         Db.staged := [Db.row_of 0 "42" ∅ 0; Db.row_of 0 "7" ∅ 0] |}
    = (Ok (bool_decide ("42" ∈ ["42"; "7"])), s')
    /\ Db.stored s' = [Db.row_of 0 "7" ∅ 0]
    /\ Db.get_candidate_summary (fun _ _ => false) "42" s' = (Ok None, s').
Proof.
  apply (delete_removes_the_candidate (fun _ _ => false) "42"
           {| Db.stored := [Db.row_of 0 "42" ∅ 0; Db.row_of 0 "7" ∅ 0];
              Db.staged := [Db.row_of 0 "42" ∅ 0; Db.row_of 0 "7" ∅ 0] |}).
  - intros op rows. reflexivity.
  - reflexivity.
Defined.

(** X17: retention.  After a save that the database lets through, no
    stored row was created before the retention limit of 90 days; the rows
    of the other ids are those the store held that are within the limit,
    none added and none of them lost. *)
Theorem save_keeps_the_rows_within_retention
    (hash : string -> Z) (str_of_list : list string -> string) (utcnow : Z)
    (db_raises : Db.db_op -> list Db.Candidate -> bool)
    (data : gmap string value) (s : Db.Session) :
  (forall op rows, db_raises op rows = false) ->
  Db._validate_candidate_data data = Ok true ->
  exists s',
    Db.save_candidate_data hash str_of_list utcnow db_raises data s = (Ok true, s')
    /\ Forall (fun c => ~ (Db.created_at c < utcnow - 90 * 86400)%Z) (Db.stored s')
    /\ filter (fun c => Db.candidate_id c <> Db._generate_candidate_id hash str_of_list data)
         (Db.stored s')
       = filter (fun c => Db.candidate_id c <> Db._generate_candidate_id hash str_of_list data)
           (retained utcnow (Db.staged s)).
Proof.
  intros Hdb Hv. eexists. split; [apply save_runs; assumption|]. cbn [Db.stored].
  split.
  - rewrite Forall_forall. intros c Hc. apply list_elem_of_filter in Hc as [Hc _]. exact Hc.
  - apply other_rows_kept.
Qed.

Lemma save_keeps_the_rows_within_retention_witness :
  exists s',
    Db.save_candidate_data (fun _ => 42%Z) (fun _ => "") 10000000 (fun _ _ => false)
      {[ "name" := VStr "Jane Doe"; "email" := VStr "jane@x.com" ]}
      {| Db.stored := []; Db.staged := [Db.row_of 0 "7" ∅ 0; Db.row_of 0 "8" ∅ 9999999] |}
    = (Ok true, s')
    /\ Forall (fun c => ~ (Db.created_at c < 10000000 - 90 * 86400)%Z) (Db.stored s')
    /\ filter (fun c => Db.candidate_id c <> "42") (Db.stored s')
       = [Db.row_of 0 "8" ∅ 9999999].
Proof.
  apply (save_keeps_the_rows_within_retention (fun _ => 42%Z) (fun _ => "") 10000000
           (fun _ _ => false)
           {[ "name" := VStr "Jane Doe"; "email" := VStr "jane@x.com" ]}
           {| Db.stored := []; Db.staged := [Db.row_of 0 "7" ∅ 0; Db.row_of 0 "8" ∅ 9999999] |}).
  - intros op rows. reflexivity.
  - vm_compute. reflexivity.
Defined.

(** X18: in a running conversation a chat input whose lowercase spelling
    contains one of the ending keywords, anywhere and also inside a word, is
    not given to the chatbot: the conversation is ended, the farewell is
    shown, and the record, the asked questions and the state of the quiz are
    left as they were.  So [Backend Engineer], which contains [end], ends
    the conversation instead of being recorded as the position. *)
Theorem ending_keyword_ends_the_conversation
    (hash : string -> Z) (str_of_list : list string -> string) (utcnow : Z)
    (db_raises : Db.db_op -> list Db.Candidate -> bool)
    (st : App.AppState) (user_input keyword pre post : string) :
  App.conversation_started st = true ->
  App.conversation_ended st = false ->
  keyword ∈ App.ending_keywords ->
  lower user_input = pre +:+ keyword +:+ post ->
  exists st' farewell_message,
    App.on_user_input hash str_of_list utcnow db_raises user_input st = (Ok tt, st')
    /\ App.conversation_ended st' = true
    /\ conversation_state (App.chatbot st') = "ended"
    /\ candidate_data (App.chatbot st') = candidate_data (App.chatbot st)
    /\ technical_questions (App.chatbot st') = technical_questions (App.chatbot st)
    /\ App.messages st'
       = App.messages st ++ [("user", user_input); ("assistant", farewell_message)].
Proof.
  intros Hstarted Hended Hkey Hlow.
  assert (App.is_ending user_input = true) as Hend.
  { apply is_ending_iff. eauto. }
  destruct (turn_cases hash str_of_list utcnow db_raises user_input st)
    as [[Hidle _] | [(_ & _ & _ & _ & db & Hrun & _) | (_ & _ & _ & Hnot & _)]].
  - exfalso. destruct Hidle as [Hidle | [Hidle | ->]]; [congruence | congruence |].
    vm_compute in Hend. discriminate Hend.
  - rewrite Hrun. eexists _, _. split; [reflexivity|].
    cbn [App.conversation_ended App.chatbot App.messages].
    destruct (end_conversation_frame (App.chatbot st)) as (-> & -> & -> & _).
    rewrite <- app_assoc. repeat split; reflexivity.
  - congruence.
Qed.

Lemma ending_keyword_ends_the_conversation_witness :
  exists st' farewell_message,
    App.on_user_input (fun _ => 0%Z) (fun _ => "") 0 (fun _ _ => false) "Backend Engineer"
      (opened {| Db.stored := []; Db.staged := [] |})
    = (Ok tt, st')
    /\ App.conversation_ended st' = true
    /\ conversation_state (App.chatbot st') = "ended"
    /\ candidate_data (App.chatbot st')
       = candidate_data (App.chatbot (opened {| Db.stored := []; Db.staged := [] |}))
    /\ technical_questions (App.chatbot st')
       = technical_questions (App.chatbot (opened {| Db.stored := []; Db.staged := [] |}))
    /\ App.messages st'
       = App.messages (opened {| Db.stored := []; Db.staged := [] |})
         ++ [("user", "Backend Engineer"); ("assistant", farewell_message)].
Proof.
  apply (ending_keyword_ends_the_conversation (fun _ => 0%Z) (fun _ => "") 0
           (fun _ _ => false) (opened {| Db.stored := []; Db.staged := [] |})
           "Backend Engineer" "end" "back" " engineer").
  - reflexivity.
  - reflexivity.
  - apply (proj1 (bool_decide_spec _)). vm_compute. exact I.
  - reflexivity.
Defined.

(** X19: through the host, no answer that contains an ending keyword is
    ever recorded.  After any sequence of chat inputs on a new browser
    session, no string of the candidate record (a field, or a technology of
    the tech stack) contains [exit], [quit], [bye], [goodbye], [end] or
    [stop] in its lowercase spelling. *)
Theorem no_ending_keyword_in_the_record
    (hash : string -> Z) (str_of_list : list string -> string) (utcnow : Z)
    (db_raises : Db.db_op -> list Db.Candidate -> bool)
    (db : Db.Session) (inputs : list string) (f : string) (v : value) :
  candidate_data
    (App.chatbot (turns hash str_of_list utcnow db_raises inputs (opened db))) !! f
  = Some v ->
  keyword_free v.
Proof.
  apply turns_keep_keyword_free.
  - exact cache_ok_init.
  - intros f' v' H. cbn in H. rewrite lookup_empty in H. discriminate H.
Qed.

Lemma no_ending_keyword_in_the_record_witness :
  keyword_free (VStr "Jane Doe").
Proof.
  apply (no_ending_keyword_in_the_record (fun _ => 0%Z) (fun _ => "") 0 (fun _ _ => false)
           {| Db.stored := []; Db.staged := [] |} ["Jane Doe"] "name").
  vm_compute. reflexivity.
Defined.

(** X20: what the farewell stores.  On a new browser session, after chat
    inputs without an ending keyword, an input with one hands the record to
    the store only if the record is not empty, and the store keeps it only
    if the email was given: ended in state [name] or [email], the session of
    the store is left as it was, though a name may have been collected;
    ended in any later state, with a database that raises nothing, the
    record is inserted or updated under its id and the expired rows are
    removed. *)
Theorem farewell_stores_the_record_once_the_email_is_given
    (hash : string -> Z) (str_of_list : list string -> string) (utcnow : Z)
    (db_raises : Db.db_op -> list Db.Candidate -> bool)
    (db : Db.Session) (inputs : list string) (user_input : string) :
  (forall op rows, db_raises op rows = false) ->
  Forall (fun user_input => App.is_ending user_input = false) inputs ->
  App.is_ending user_input = true ->
  let self := feed inputs started in
  let st' := turns hash str_of_list utcnow db_raises (inputs ++ [user_input]) (opened db) in
  (conversation_state self ∈ ["name"; "email"] -> App.data_handler st' = db)
  /\ (conversation_state self ∉ ["name"; "email"] ->
      App.data_handler st'
      = {| Db.stored :=
             retained utcnow
               (upsert utcnow (Db._generate_candidate_id hash str_of_list (handed_over self))
                  (handed_over self) (Db.staged db));
           Db.staged :=
             retained utcnow
               (upsert utcnow (Db._generate_candidate_id hash str_of_list (handed_over self))
                  (handed_over self) (Db.staged db)) |}).
Proof.
  intros Hdb Hall Hend. cbv zeta. rewrite turns_snoc.
  destruct (opened_started db) as (Hbot0 & Hdb0 & Hs0 & He0).
  destruct (turns_feed hash str_of_list utcnow db_raises inputs (opened db) Hs0 He0 Hall)
    as (Hbot & Hstore & Hs & He).
  rewrite Hbot0 in Hbot. rewrite Hdb0 in Hstore.
  pose proof (reachable_feed inputs started reach_start) as Hreach.
  pose proof (record_validation _ (technical_questions (feed inputs started))
                (reachable_record_ok _ Hreach) (reachable_state _ Hreach)) as Hv.
  fold (handed_over (feed inputs started)) in Hv.
  destruct (turn_cases hash str_of_list utcnow db_raises user_input
              (turns hash str_of_list utcnow db_raises inputs (opened db)))
    as [[Hidle _] | [(_ & _ & _ & _ & db' & -> & ->) | (_ & _ & _ & Hnot & _)]].
  - exfalso. destruct Hidle as [Hidle | [Hidle | ->]]; [congruence | congruence |].
    vm_compute in Hend. discriminate Hend.
  - cbn [snd App.data_handler]. rewrite Hbot, Hstore. split; intros Hst.
    + rewrite bool_decide_eq_true_2 in Hv by exact Hst. cbn [negb] in Hv.
      rewrite (save_invalid_unchanged _ _ _ _ _ _ Hv). cbn [snd].
      destruct (dict_truthy _); reflexivity.
    + rewrite bool_decide_eq_false_2 in Hv by exact Hst. cbn [negb] in Hv.
      assert (dict_truthy (candidate_data (feed inputs started)) = true) as ->.
      { apply validate_candidate_data_spec in Hv as [(n & Hn & _) _].
        unfold handed_over in Hn. rewrite lookup_insert_ne in Hn by discriminate.
        unfold dict_truthy. apply negb_true_iff, bool_decide_eq_false_2.
        intros Hempty. rewrite Hempty, lookup_empty in Hn. discriminate Hn. }
      rewrite (save_runs hash str_of_list utcnow db_raises _ db Hdb Hv). reflexivity.
  - congruence.
Qed.

Lemma farewell_stores_the_record_once_the_email_is_given_witness :
  App.data_handler
    (turns (fun _ => 0%Z) (fun _ => "") 0 (fun _ _ => false) (["Jane Doe"] ++ ["bye"])
       (opened {| Db.stored := []; Db.staged := [] |}))
  = {| Db.stored := []; Db.staged := [] |}.
Proof.
  apply (proj1 (farewell_stores_the_record_once_the_email_is_given
                  (fun _ => 0%Z) (fun _ => "") 0 (fun _ _ => false)
                  {| Db.stored := []; Db.staged := [] |} ["Jane Doe"] "bye"
                  ltac:(intros op rows; reflexivity)
                  ltac:(repeat constructor)
                  ltac:(reflexivity))).
  apply (proj1 (bool_decide_spec _)). vm_compute. exact I.
Defined.

(** X21: [_get_fallback_questions] returns three questions, none empty,
    for every technology.  It has no exact lookup: the list is that of the
    first key of its table, in source order, that is contained in the
    lowercase technology or contains it, so that Java gets the questions of
    javascript; a technology that overlaps with no key gets three generic
    questions that mention it as typed. *)
Theorem fallback_questions_take_the_first_overlap (technology : string) :
  tier_ok (_get_fallback_questions technology)
  /\ (forall pre key questions post,
        fallback_db = pre ++ (key, questions) :: post ->
        Forall (fun item => overlaps (fst item) (lower technology) = false) pre ->
        overlaps key (lower technology) = true ->
        _get_fallback_questions technology = questions)
  /\ (Forall (fun item => overlaps (fst item) (lower technology) = false) fallback_db ->
      Forall (fun q => contains technology q = true) (_get_fallback_questions technology)).
Proof.
  split; [|split].
  - unfold _get_fallback_questions. cbv zeta.
    destruct (fallback_match (lower technology) fallback_db) as [questions|] eqn:Hm.
    + apply fallback_match_elem in Hm.
      pose proof fallback_db_ok as Hall. rewrite Forall_forall in Hall. exact (Hall _ Hm).
    + split; [reflexivity|]. repeat constructor; discriminate.
  - intros pre key questions post Hdb Hpre Hkey.
    unfold _get_fallback_questions. cbv zeta. rewrite Hdb.
    rewrite (fallback_match_first _ _ _ _ _ Hpre Hkey). reflexivity.
  - intros Hnone. unfold _get_fallback_questions. cbv zeta.
    rewrite (fallback_match_none _ _ Hnone).
    repeat constructor; apply contains_in_context, contains_refl.
Qed.

Lemma fallback_questions_take_the_first_overlap_witness :
  _get_fallback_questions "Java"
  = ["Explain the difference between var, let, and const in JavaScript.";
     "What is event bubbling and how can you prevent it?";
     "How do closures work in JavaScript?"].
Proof.
  apply (proj1 (proj2 (fallback_questions_take_the_first_overlap "Java"))
           (take 1 fallback_db) "javascript" _ (drop 2 fallback_db)).
  - reflexivity.
  - repeat constructor.
  - vm_compute. reflexivity.
Defined.




End Extras.
